(** * A shallow embedding of the remote file-operation shim and server

    The embedded program is the pair [src/mylib.c] (the client-side
    interposition library) and [src/server.c] (the server).  The target is
    LP64 and little-endian, as the sources assume: [int] is 32 bits,
    [size_t], [ssize_t] and [off_t] are 64 bits, and every integer crosses
    the wire through [memcpy], that is in little-endian byte order.

    - C integers are values in [Z]; every conversion and every operation
      that can leave the range of its type is written with the reduction
      of that type ([to_int], [to_size_t], [to_int64]).
    - Buffers are [list byte]; a [memcpy] into or out of a buffer checks
      the bounds of the list and has no result ([None]) outside them.
    - The socket is a pair of byte streams.  What the peer will send is
      the [w_inbox]; [recv] loops take a prefix of it, and a loop that asks
      for more bytes than the stream holds never returns ([Blocked]).
      A [send] or [recv] that fails ends the process and is outside the
      model.
    - The local implementations behind the function pointers, the system
      calls of the server and the constants of the system headers are
      parameters.
    - The calls to [fprintf] and [perror] are logging and are left out. *)

From Stdlib Require Import ZArith List Lia Bool.
From Stdlib Require Import Strings.Byte.
From coqutil Require Import Byte Word.LittleEndianList.
Import ListNotations.
Local Open Scope Z_scope.
Set Warnings "-register-all".

(** ** C integer types *)

Module CInt.

Definition INT_MAX : Z := 2 ^ 31 - 1.
Definition INT_MIN : Z := - 2 ^ 31.

(** Conversion to [int]: reduction modulo [2^32] into [INT_MIN..INT_MAX]. *)
Definition to_int (z : Z) : Z := (z + 2 ^ 31) mod 2 ^ 32 - 2 ^ 31.

(** Conversion to [size_t]: reduction modulo [2^64]. *)
Definition to_size_t (z : Z) : Z := z mod 2 ^ 64.

(** Conversion to [off_t] / [ssize_t]. *)
Definition to_int64 (z : Z) : Z := (z + 2 ^ 63) mod 2 ^ 64 - 2 ^ 63.

Definition is_int (z : Z) : Prop := INT_MIN <= z <= INT_MAX.
Definition is_size_t (z : Z) : Prop := 0 <= z < 2 ^ 64.

End CInt.
Import CInt.

(** ** Bytes in memory *)

Definition NUL : byte := Byte.x00.

(** [memcpy(dst, &v, 4)] for a 4-byte integer [v], and [memcpy(dst, &v, 8)]
    for an 8-byte one: the little-endian bytes of [v]. *)
Definition store4 (v : Z) : list byte := le_split 4 v.
Definition store8 (v : Z) : list byte := le_split 8 v.

(** [memcpy(&v, src, 4)] with [v] an [int]; [memcpy(&v, src, 8)] with [v]
    an [off_t]. *)
Definition load_int (src : list byte) : Z := to_int (le_combine (firstn 4 src)).
Definition load_int64 (src : list byte) : Z := to_int64 (le_combine (firstn 8 src)).

(** [strlen(s)] on the memory [s]: the number of bytes before the first
    NUL; no result when the scan leaves the modelled memory. *)
Fixpoint strlen (s : list byte) : option Z :=
  match s with
  | [] => None
  | b :: s' =>
      if Byte.eqb b NUL then Some 0
      else match strlen s' with
           | Some n => Some (n + 1)
           | None => None
           end
  end.

(** The memory image of a C string whose characters are [s]. *)
Definition cstring (s : list byte) : list byte := s ++ [NUL].

(** [memcpy(buf + off, src, |src|)] on a buffer of known size. *)
Definition memcpy_to (buf : list byte) (off : Z) (src : list byte)
  : option (list byte) :=
  if (0 <=? off) && (off + Z.of_nat (length src) <=? Z.of_nat (length buf))
  then Some (firstn (Z.to_nat off) buf ++ src
             ++ skipn (Z.to_nat off + length src) buf)
  else None.

(** The [len] bytes of [buf] from [off] on, as [memcpy(dst, buf + off, len)]
    reads them. *)
Definition memcpy_from (buf : list byte) (off len : Z) : option (list byte) :=
  if (0 <=? off) && (0 <=? len) && (off + len <=? Z.of_nat (length buf))
  then Some (firstn (Z.to_nat len) (skipn (Z.to_nat off) buf))
  else None.

(** [buf + off] as the start of a string: the memory from [off] on. *)
Definition mem_from (buf : list byte) (off : Z) : option (list byte) :=
  if (0 <=? off) && (off <=? Z.of_nat (length buf))
  then Some (skipn (Z.to_nat off) buf)
  else None.

(** A small error monad for the code that touches buffers. *)
Definition obind {A B : Type} (m : option A) (k : A -> option B) : option B :=
  match m with
  | Some a => k a
  | None => None
  end.

Declare Scope mem_scope.
Delimit Scope mem_scope with mem.
Notation "x <- m ;; k" := (obind m (fun x => k))
  (at level 61, m at next level, right associativity) : mem_scope.
Notation "' p <- m ;; k" := (obind m (fun p => k))
  (at level 61, p pattern, m at next level, right associativity) : mem_scope.

(** ** The directory tree *)

(** Modelled from the spec: [struct dirtreenode] is declared in [dirtree.h],
    which is not part of the sources; the spec describes it as a name, an
    explicit child count and an ordered sequence of children, and the code
    reads the fields [name], [num_subdirs] (an [int]) and [subdirs].
    [name] holds the characters of the string; its memory image is
    [cstring name]. *)
Inductive dirtreenode : Type :=
  Dirtreenode (name : list byte) (num_subdirs : Z) (subdirs : list dirtreenode).

Definition name (n : dirtreenode) : list byte :=
  let 'Dirtreenode s _ _ := n in s.
Definition num_subdirs (n : dirtreenode) : Z :=
  let 'Dirtreenode _ k _ := n in k.
Definition subdirs (n : dirtreenode) : list dirtreenode :=
  let 'Dirtreenode _ _ l := n in l.

(** ** The process and its socket *)

(** The part of the process that the local implementations act on: the
    error-number location and the rest of the process state [L]. *)
Record host (L : Type) : Type := Host { h_errno : Z; h_state : L }.
Arguments Host {L} _ _.
Arguments h_errno {L} _.
Arguments h_state {L} _.

(** The process together with its connection: the buffers handed to
    [send], in order; the buffers filled by [recv] loops, in order; the
    bytes the peer sends, not yet received; and the copies made into the
    caller's buffer, as destination offset and bytes. *)
Record world (L : Type) : Type := World {
  w_host : host L;
  w_sent : list (list byte);
  w_rcvd : list (list byte);
  w_inbox : list byte;
  w_copied : list (Z * list byte)
}.
Arguments World {L} _ _ _ _ _.
Arguments w_host {L} _.
Arguments w_sent {L} _.
Arguments w_rcvd {L} _.
Arguments w_inbox {L} _.
Arguments w_copied {L} _.

(** A call either returns a value in a new world or waits for ever in a
    receive loop. *)
Inductive result (L A : Type) : Type :=
| Done (a : A) (w : world L)
| Blocked (w : world L).
Arguments Done {L A} _ _.
Arguments Blocked {L A} _.

Definition final {L A : Type} (r : result L A) : world L :=
  match r with
  | Done _ w => w
  | Blocked w => w
  end.

Definition M (L A : Type) : Type := world L -> result L A.

Definition ret {L A : Type} (a : A) : M L A := fun w => Done a w.

Definition bind {L A B : Type} (m : M L A) (k : A -> M L B) : M L B :=
  fun w =>
    match m w with
    | Done a w' => k a w'
    | Blocked w' => Blocked w'
    end.

Definition block {L A : Type} : M L A := fun w => Blocked w.

Declare Scope io_scope.
Delimit Scope io_scope with io.
Notation "x <- m ;; k" := (bind m (fun x => k))
  (at level 61, m at next level, right associativity) : io_scope.
Notation "m ;;; k" := (bind m (fun _ => k))
  (at level 61, right associativity) : io_scope.

Definition get_errno {L : Type} : M L Z :=
  fun w => Done (h_errno (w_host w)) w.

(** [memcpy(&errno, src, 4)]. *)
Definition set_errno {L : Type} (e : Z) : M L unit :=
  fun w =>
    Done tt (World (Host e (h_state (w_host w)))
                   (w_sent w) (w_rcvd w) (w_inbox w) (w_copied w)).

(** A call of a local implementation: it acts on the host only. *)
Definition local {L : Type} (f : host L -> Z * host L) : M L Z :=
  fun w =>
    let '(r, h) := f (w_host w) in
    Done r (World h (w_sent w) (w_rcvd w) (w_inbox w) (w_copied w)).

(** [memcpy(buf + dst, data, |data|)] into the caller's buffer. *)
Definition copy_out {L : Type} (dst : Z) (data : list byte) : M L unit :=
  fun w =>
    Done tt (World (w_host w) (w_sent w) (w_rcvd w) (w_inbox w)
                   (w_copied w ++ [(dst, data)])).

Module Server.

Local Open Scope mem_scope.

(** The loop [for (i = 0; i < node->num_subdirs; i++)] of
    [serialize_dirtree], from [i] on; [rest] is the array [subdirs] from
    the index [i] on, and an index past the end of the array has no
    result.  [serialize] is the recursive call. *)
Definition serialize_subdirs
  (serialize : dirtreenode -> list byte -> Z -> option (list byte * Z))
  (num : Z)
  : list dirtreenode -> Z -> list byte -> Z -> option (list byte * Z) :=
  fix loop (rest : list dirtreenode) (i : Z) (buf : list byte) (offset : Z)
    {struct rest} : option (list byte * Z) :=
    if i <? num then
      match rest with
      | [] => None
      | child :: rest' =>
          '(buf, offset) <- serialize child buf offset ;;
          loop rest' (to_int (i + 1)) buf offset
      end
    else Some (buf, offset).

(** [serialize_dirtree] of server.c on a node that is not NULL. *)
Fixpoint serialize_node (node : dirtreenode) (buf : list byte) (offset : Z)
  {struct node} : option (list byte * Z) :=
  let 'Dirtreenode nm num subs := node in
  len <- strlen (cstring nm) ;;
  let name_len := to_int len in
  chars <- memcpy_from (cstring nm) 0 name_len ;;
  buf <- memcpy_to buf offset chars ;;
  buf <- memcpy_to buf (offset + name_len) [NUL] ;;
  let offset := to_int (offset + (name_len + 1)) in
  buf <- memcpy_to buf offset (store4 num) ;;
  let offset := to_int (offset + 4) in
  serialize_subdirs serialize_node num subs 0 buf offset.

(** [serialize_dirtree(node, buf, offset)]: nothing is written for NULL. *)
Definition serialize_dirtree (node : option dirtreenode) (buf : list byte)
  (offset : Z) : option (list byte * Z) :=
  match node with
  | None => Some (buf, offset)
  | Some n => serialize_node n buf offset
  end.

(** What a session does that its peer or its stack can observe:
    [send(sessfd, buf, len, 0)], with the length asked for and the bytes of
    [buf] up to that length, and a store outside the reply buffer. *)
Inductive sevent : Type :=
| Send (len : Z) (bytes : list byte)
| StoreOutside (index : Z).

(** A forked handler: the host it runs on and what it has done so far. *)
Record session (K : Type) : Type := Session {
  s_host : host K;
  s_trace : list sevent
}.
Arguments Session {K} _ _.
Arguments s_host {K} _.
Arguments s_trace {K} _.

Definition MAX_MSG_LEN : Z := 4096.

Definition send {K : Type} (buf : list byte) (len : Z) (s : session K)
  : session K :=
  let bytes := if len <=? Z.of_nat (length buf)
               then firstn (Z.to_nat len) buf else buf in
  Session (s_host s) (s_trace s ++ [Send len bytes]).

Section Handlers.

Context {K : Type}.

(** The server's own [getdirentries(fd, retBuf, nbyte, &basep)]: its return
    value and the bytes it stores at the start of [retBuf]. *)
Variable sys_getdirentries :
  Z -> Z -> Z -> host K -> (Z * list byte) * host K.

(** The server's own [getdirtree(path)]; NULL is [None]. *)
Variable sys_getdirtree : list byte -> host K -> option dirtreenode * host K.

(** The handlers of the opcodes 0 to 6, from the opcode, the request body
    and the reply buffer to the reply buffer and the reply length. *)
Variable handle_fixed :
  Z -> list byte -> list byte -> host K -> (list byte * Z) * host K.

(** [handle_getdirentries(buf, retBuf)]: sends the 8-byte header itself
    and returns [bytes_read], a [size_t]. *)
Definition handle_getdirentries (buf retBuf : list byte) (s : session K)
  : (list byte * Z) * session K :=
  let fd := load_int buf in
  let nbyte := load_int (skipn 4 buf) in
  let basep := load_int64 (skipn 8 buf) in
  let '((r, data), h) := sys_getdirentries fd nbyte basep (s_host s) in
  let retBuf := data ++ skipn (length data) retBuf in
  let bytes_read := to_size_t r in
  let retBuf1 := store4 bytes_read ++ store4 (h_errno h) in
  let s := send retBuf1 8 (Session h (s_trace s)) in
  ((retBuf, bytes_read), s).

(** [handle_getdirtree(buf, retBuf)]: sends the 4-byte length itself and
    returns the length of the serialized tree.  No result when the
    serializer leaves [retBuf]. *)
Definition handle_getdirtree (buf retBuf : list byte) (s : session K)
  : option ((list byte * Z) * session K) :=
  let path_len := le_combine (firstn 4 buf) in
  let folder_path := firstn (Z.to_nat path_len) (skipn 4 buf) in
  let '(root, h) := sys_getdirtree folder_path (s_host s) in
  '(retBuf, ret_data_length) <- serialize_dirtree root retBuf 0 ;;
  let retBuf1 := store4 ret_data_length in
  let s := send retBuf1 4 (Session h (s_trace s)) in
  Some ((retBuf, to_size_t ret_data_length), s).

(** The body of the request loop of [main], after [recv] has filled [buf]:
    the dispatch on the opcode, then [retBuf[retLen] = 0] and
    [send(sessfd, retBuf, retLen, 0)] for every opcode. *)
Definition serve (buf retBuf : list byte) (s : session K)
  : option (session K) :=
  let op := load_int buf in
  let p := skipn 4 buf in
  '((retBuf, retLen), s) <-
    (if (0 <=? op) && (op <=? 6) then
       let '(out, h) := handle_fixed op p retBuf (s_host s) in
       Some (out, Session h (s_trace s))
     else if op =? 7 then Some (handle_getdirentries p retBuf s)
     else if op =? 8 then handle_getdirtree p retBuf s
     else Some ((retBuf, 0), s)) ;;
  let '(retBuf, s) :=
    if retLen <? Z.of_nat (length retBuf)
    then (firstn (Z.to_nat retLen) retBuf ++ NUL
          :: skipn (S (Z.to_nat retLen)) retBuf, s)
    else (retBuf, Session (s_host s) (s_trace s ++ [StoreOutside retLen])) in
  Some (send retBuf retLen s).

End Handlers.

(** The handlers of the opcodes 0 to 6.  [buf] is the request after the
    opcode and [retBuf] the reply buffer of [main]; a handler returns the
    reply buffer, the reply length and the host, and has no result when a
    [memcpy] leaves one of the two buffers. *)
Section FixedHandlers.

Context {K : Type}.

(** The server's own system calls.  [sys_open], [sys_stat] and
    [sys_unlink] get the buffer that holds the path; [sys_read] returns,
    with the value of [read], the content of the buffer it was given. *)
Variable sys_open : list byte -> Z -> Z -> host K -> Z * host K.
Variable sys_read : Z -> Z -> host K -> (Z * list byte) * host K.
Variable sys_write : Z -> list byte -> Z -> host K -> Z * host K.
Variable sys_close : Z -> host K -> Z * host K.
Variable sys_lseek : Z -> Z -> Z -> host K -> Z * host K.
Variable sys_stat : list byte -> list byte -> host K -> Z * host K.
Variable sys_unlink : list byte -> host K -> Z * host K.

(** [sizeof(struct stat)], and the byte that [malloc] left after the
    path: the handlers copy [n] characters into a buffer of [n + 1] bytes
    and do not store the terminator. *)
Variable stat_size : Z.
Variable uninit : byte.

(** The two fields of a reply header, [memcpy]'d to [retBuf] and
    [retBuf + 4]. *)
Definition put_header (retBuf : list byte) (value errno : Z)
  : option (list byte) :=
  retBuf <- memcpy_to retBuf 0 (store4 value) ;;
  memcpy_to retBuf 4 (store4 errno).

(** [handle_open(buf, retBuf)]. *)
Definition handle_open (buf retBuf : list byte) (h : host K)
  : option ((list byte * Z) * host K) :=
  let path_len := le_combine (firstn 4 buf) in
  let off2 := to_int (4 + path_len) in
  let off3 := to_int (off2 + 4) in
  chars <- memcpy_from buf 4 path_len ;;
  let pathname := chars ++ [uninit] in
  word <- memcpy_from buf off2 4 ;;
  let flags := load_int word in
  word <- memcpy_from buf off3 4 ;;
  let mode := le_combine word in
  let '(fd, h) := sys_open pathname flags mode h in
  retBuf <- put_header retBuf fd (h_errno h) ;;
  Some ((retBuf, 8), h).

(** [handle_read(buf, retBuf)]: the reply carries [count] bytes of the
    buffer that [read] filled, whatever [read] returned. *)
Definition handle_read (buf retBuf : list byte) (h : host K)
  : option ((list byte * Z) * host K) :=
  let fd := load_int buf in
  let count := load_int (skipn 4 buf) in
  let n := to_size_t count in
  let res_end := to_int (8 + n) in
  let '((r, data), h) := sys_read fd n h in
  let bytes_read := to_int r in
  retBuf <- put_header retBuf bytes_read (h_errno h) ;;
  chars <- memcpy_from data 0 n ;;
  retBuf <- memcpy_to retBuf 8 chars ;;
  Some ((retBuf, to_size_t res_end), h).

(** [handle_write(buf, retBuf)]. *)
Definition handle_write (buf retBuf : list byte) (h : host K)
  : option ((list byte * Z) * host K) :=
  let fd := load_int buf in
  let count := load_int (skipn 4 buf) in
  let n := to_size_t count in
  data <- memcpy_from buf 8 n ;;
  let '(bytes_written, h) := sys_write fd data n h in
  retBuf <- put_header retBuf bytes_written (h_errno h) ;;
  Some ((retBuf, 8), h).

(** [handle_close(buf, retBuf)]. *)
Definition handle_close (buf retBuf : list byte) (h : host K)
  : option ((list byte * Z) * host K) :=
  let fd := load_int buf in
  let '(success, h) := sys_close fd h in
  retBuf <- put_header retBuf success (h_errno h) ;;
  Some ((retBuf, 8), h).

(** [handle_lseek(buf, retBuf)]. *)
Definition handle_lseek (buf retBuf : list byte) (h : host K)
  : option ((list byte * Z) * host K) :=
  let fd := load_int buf in
  let offset := load_int64 (skipn 4 buf) in
  let whence := load_int (skipn 12 buf) in
  let '(new_offset, h) := sys_lseek fd offset whence h in
  retBuf <- memcpy_to retBuf 0 (store8 new_offset) ;;
  retBuf <- memcpy_to retBuf 8 (store4 (h_errno h)) ;;
  Some ((retBuf, 12), h).

(** [handle_stat(buf, retBuf)]: the structure that [stat] fills stays in
    the handler. *)
Definition handle_stat (buf retBuf : list byte) (h : host K)
  : option ((list byte * Z) * host K) :=
  let path_len := le_combine (firstn 4 buf) in
  let off2 := to_int (4 + path_len) in
  chars <- memcpy_from buf 4 path_len ;;
  let pathname := chars ++ [uninit] in
  statbuf <- memcpy_from buf off2 stat_size ;;
  let '(success, h) := sys_stat pathname statbuf h in
  retBuf <- put_header retBuf success (h_errno h) ;;
  Some ((retBuf, 8), h).

(** [handle_unlink(buf, retBuf)]. *)
Definition handle_unlink (buf retBuf : list byte) (h : host K)
  : option ((list byte * Z) * host K) :=
  let path_len := le_combine (firstn 4 buf) in
  chars <- memcpy_from buf 4 path_len ;;
  let pathname := chars ++ [uninit] in
  let '(success, h) := sys_unlink pathname h in
  retBuf <- put_header retBuf success (h_errno h) ;;
  Some ((retBuf, 8), h).

(** The cases 0 to 6 of the [switch] of [main]. *)
Definition handle_fixed_ops (op : Z) (buf retBuf : list byte) (h : host K)
  : option ((list byte * Z) * host K) :=
  if op =? 0 then handle_open buf retBuf h
  else if op =? 1 then handle_read buf retBuf h
  else if op =? 2 then handle_write buf retBuf h
  else if op =? 3 then handle_close buf retBuf h
  else if op =? 4 then handle_lseek buf retBuf h
  else if op =? 5 then handle_stat buf retBuf h
  else if op =? 6 then handle_unlink buf retBuf h
  else None.

Variable sys_getdirentries :
  Z -> Z -> Z -> host K -> (Z * list byte) * host K.
Variable sys_getdirtree : list byte -> host K -> option dirtreenode * host K.

(** The body of the request loop of [main] with the handlers above: for
    the opcodes 0 to 6 the handler runs, and [serve] stores the
    terminator and sends what the handler left. *)
Definition request_step (buf retBuf : list byte) (s : session K)
  : option (session K) :=
  let op := load_int buf in
  if (0 <=? op) && (op <=? 6) then
    '(out, h) <- handle_fixed_ops op (skipn 4 buf) retBuf (s_host s) ;;
    serve sys_getdirentries sys_getdirtree (fun _ _ _ _ => (out, h))
      buf retBuf s
  else
    serve sys_getdirentries sys_getdirtree
      (fun _ _ retBuf h => ((retBuf, 0), h)) buf retBuf s.

End FixedHandlers.

End Server.

Module Client.

Local Open Scope mem_scope.

(** The loop [for (i = 0; i < node->num_subdirs; i++)] of
    [deserialize_dirtree], with [todo] passes to go.  [deserialize] is the
    recursive call. *)
Fixpoint deserialize_subdirs
  (deserialize : list byte -> Z -> option (dirtreenode * Z))
  (buf : list byte) (todo : nat) (offset : Z)
  {struct todo} : option (list dirtreenode * Z) :=
  match todo with
  | O => Some ([], offset)
  | S todo' =>
      '(child, offset) <- deserialize buf offset ;;
      '(more, offset) <- deserialize_subdirs deserialize buf todo' offset ;;
      Some (child :: more, offset)
  end.

(** [deserialize_dirtree] of mylib.c.  The node it fills was allocated by
    the caller and is returned here together with the new offset.
    [fuel] bounds the depth of the recursion. *)
Fixpoint deserialize_dirtree (fuel : nat) (buf : list byte) (offset : Z)
  {struct fuel} : option (dirtreenode * Z) :=
  match fuel with
  | O => None
  | S fuel' =>
      str <- mem_from buf offset ;;
      len <- strlen str ;;
      let name_len := to_int len in
      nm <- memcpy_from buf offset name_len ;;
      let offset := to_int (offset + (name_len + 1)) in
      word <- memcpy_from buf offset 4 ;;
      let num := load_int word in
      let offset := to_int (offset + 4) in
      '(subs, offset) <-
        deserialize_subdirs (deserialize_dirtree fuel') buf
          (Z.to_nat num) offset ;;
      Some (Dirtreenode nm num subs, offset)
  end.

Local Close Scope mem_scope.
Local Open Scope io_scope.

Definition MAX_MSG_LEN : Z := 4096.
Definition FD_OFFSET : Z := 5000.

(** [sendRequest(buf, totalSize)] with [buf] of [totalSize] bytes: the
    send loop runs until the whole buffer is out; it does not run for an
    empty buffer. *)
Definition sendRequest {L : Type} (buf : list byte) : M L unit :=
  fun w =>
    match buf with
    | [] => Done tt w
    | _ => Done tt (World (w_host w) (w_sent w ++ [buf]) (w_rcvd w)
                          (w_inbox w) (w_copied w))
    end.

(** [receiveResponse(buf, totalSize)]: the receive loop runs until
    [totalSize] bytes are in; it does not run for [totalSize = 0], and it
    does not end when the peer sends fewer bytes. *)
Definition receiveResponse {L : Type} (totalSize : Z) : M L (list byte) :=
  fun w =>
    if totalSize =? 0 then Done [] w
    else if totalSize <=? Z.of_nat (length (w_inbox w)) then
      let n := Z.to_nat totalSize in
      Done (firstn n (w_inbox w))
           (World (w_host w) (w_sent w) (w_rcvd w ++ [firstn n (w_inbox w)])
                  (skipn n (w_inbox w)) (w_copied w))
    else Blocked w.

(** [strlen(pathname)] and the characters [memcpy] takes from [pathname]. *)
Definition path_len (pathname : list byte) : Z :=
  match strlen (cstring pathname) with
  | Some n => n
  | None => 0
  end.

Definition path_chars (pathname : list byte) : list byte :=
  firstn (Z.to_nat (path_len pathname)) (cstring pathname).

(** One pass of the loop of [read]: [return -1], [break], or go round
    again with a new [count] and total. *)
Inductive read_pass : Type :=
| RAbort
| RBreak
| RNext (count total : Z).

(** One pass of the loop of [write]: [return -1], or go round again. *)
Inductive write_pass : Type :=
| WAbort
| WNext (count total : Z).

Section Shim.

Context {L : Type}.

(** The local implementations the shim resolved at start-up, with the
    return types of their function pointers. *)
Variable orig_read : Z -> Z -> host L -> Z * host L.
Variable orig_write : Z -> list byte -> Z -> host L -> Z * host L.
Variable orig_close : Z -> host L -> Z * host L.
Variable orig_lseek : Z -> Z -> Z -> host L -> Z * host L.
Variable orig_getdirentries : Z -> Z -> Z -> host L -> Z * host L.

(** [O_CREAT] of [<fcntl.h>] and [sizeof(struct stat)]. *)
Variable O_CREAT : Z.
Variable stat_size : Z.

(** [open(pathname, flags, ...)]; [mode] is the variadic argument, read
    only under [O_CREAT]. *)
Definition open (pathname : list byte) (flags mode : Z) : M L Z :=
  let mode := if Z.land flags O_CREAT =? 0 then 0 else mode in
  let reqBuf := store4 0 ++ store4 (to_int (path_len pathname))
                ++ path_chars pathname ++ store4 flags ++ store4 mode in
  sendRequest reqBuf ;;;
  resBuf <- receiveResponse 8 ;;
  let fd := load_int resBuf in
  set_errno (load_int (skipn 4 resBuf)) ;;;
  ret (if fd =? -1 then fd else to_int (fd + FD_OFFSET)).

(** [readHelper(fd, buf + dst, count)]. *)
Definition readHelper (fd dst count : Z) : M L Z :=
  let reqBuf := store4 1 ++ store4 fd ++ store4 count in
  sendRequest reqBuf ;;;
  resBuf <- receiveResponse (to_size_t (to_int (4 + 4 + count))) ;;
  let bytes_read := load_int resBuf in
  set_errno (load_int (skipn 4 resBuf)) ;;;
  copy_out dst (skipn 8 resBuf) ;;;
  e <- get_errno ;;
  ret (if e =? 0 then bytes_read else -1).

(** The body of [while (count != 0)] in [read]. *)
Definition read_step (fd count total : Z) : M L read_pass :=
  let maxLen := MAX_MSG_LEN - 8 in
  let bytes_read := if count >? maxLen then maxLen else count in
  r <- readHelper fd total bytes_read ;;
  let bytes_read := to_size_t r in
  if bytes_read =? to_size_t (-1) then ret RAbort
  else if bytes_read =? 0 then ret RBreak
  else ret (RNext (to_size_t (count - bytes_read))
                  (to_int (total + bytes_read))).

Fixpoint read_loop (fuel : nat) (fd count total : Z) : M L Z :=
  match fuel with
  | O => block
  | S fuel' =>
      if count =? 0 then ret total
      else
        s <- read_step fd count total ;;
        match s with
        | RAbort => ret (-1)
        | RBreak => ret total
        | RNext count' total' => read_loop fuel' fd count' total'
        end
  end.

(** [read(fd, buf, count)].  Every pass of the loop takes at least 8
    bytes from the stream, so the loop makes at most as many passes as
    the stream has bytes before it returns or waits for ever. *)
Definition read (fd count : Z) : M L Z :=
  if fd <? FD_OFFSET then local (orig_read fd count)
  else
    let fd := fd - FD_OFFSET in
    fun w => read_loop (S (length (w_inbox w))) fd count 0 w.

(** [writeHelper(fd, buf, count)]; [buf] is the caller's buffer from the
    position the loop has reached.  Where the caller's buffer is shorter
    than [count] the request carries the bytes there are. *)
Definition writeHelper (fd : Z) (buf : list byte) (count : Z) : M L Z :=
  let reqBuf := store4 2 ++ store4 fd ++ store4 count
                ++ firstn (Z.to_nat count) buf in
  sendRequest reqBuf ;;;
  resBuf <- receiveResponse 8 ;;
  let bytes_written := load_int resBuf in
  set_errno (load_int (skipn 4 resBuf)) ;;;
  e <- get_errno ;;
  ret (if e =? 0 then bytes_written else -1).

(** The body of [while (count != 0)] in [write]. *)
Definition write_step (fd : Z) (buf : list byte) (count total : Z)
  : M L write_pass :=
  let maxLen := MAX_MSG_LEN - 12 in
  let bytes_written := if count >? maxLen then maxLen else count in
  r <- writeHelper fd (skipn (Z.to_nat total) buf) bytes_written ;;
  let bytes_written := to_size_t r in
  if bytes_written =? to_size_t (-1) then ret WAbort
  else ret (WNext (to_size_t (count - bytes_written))
                  (to_int (total + bytes_written))).

Fixpoint write_loop (fuel : nat) (fd : Z) (buf : list byte) (count total : Z)
  : M L Z :=
  match fuel with
  | O => block
  | S fuel' =>
      if count =? 0 then ret (if total =? 0 then -1 else total)
      else
        s <- write_step fd buf count total ;;
        match s with
        | WAbort => ret (-1)
        | WNext count' total' => write_loop fuel' fd buf count' total'
        end
  end.

(** [write(fd, buf, count)]. *)
Definition write (fd : Z) (buf : list byte) (count : Z) : M L Z :=
  if fd <? FD_OFFSET then local (orig_write fd buf count)
  else
    let fd := fd - FD_OFFSET in
    fun w => write_loop (S (length (w_inbox w))) fd buf count 0 w.

(** [close(fd)]. *)
Definition close (fd : Z) : M L Z :=
  if fd <? FD_OFFSET then local (orig_close fd)
  else
    let fd := fd - FD_OFFSET in
    let reqBuf := store4 3 ++ store4 fd in
    sendRequest reqBuf ;;;
    resBuf <- receiveResponse 8 ;;
    let success := load_int resBuf in
    set_errno (load_int (skipn 4 resBuf)) ;;;
    ret success.

(** [lseek(fd, offset, whence)]. *)
Definition lseek (fd offset whence : Z) : M L Z :=
  if fd <? FD_OFFSET then local (orig_lseek fd offset whence)
  else
    let fd := fd - FD_OFFSET in
    let reqBuf := store4 4 ++ store4 fd ++ store8 offset ++ store4 whence in
    sendRequest reqBuf ;;;
    resBuf <- receiveResponse 12 ;;
    let new_offset := load_int64 resBuf in
    set_errno (load_int (skipn 8 resBuf)) ;;;
    ret new_offset.

(** [stat(pathname, statbuf)]; [statbuf] is the content of the caller's
    structure, which goes out with the request. *)
Definition stat (pathname statbuf : list byte) : M L Z :=
  let reqBuf := store4 5 ++ store4 (path_len pathname)
                ++ path_chars pathname
                ++ firstn (Z.to_nat stat_size) statbuf in
  sendRequest reqBuf ;;;
  resBuf <- receiveResponse 8 ;;
  let success := load_int resBuf in
  set_errno (load_int (skipn 4 resBuf)) ;;;
  ret success.

(** [unlink(pathname)]. *)
Definition unlink (pathname : list byte) : M L Z :=
  let reqBuf := store4 6 ++ store4 (path_len pathname)
                ++ path_chars pathname in
  sendRequest reqBuf ;;;
  resBuf <- receiveResponse 8 ;;
  let success := load_int resBuf in
  set_errno (load_int (skipn 4 resBuf)) ;;;
  ret success.

(** [getdirentries(fd, buf, nbyte, basep)]; [basep] is the value at the
    caller's pointer. *)
Definition getdirentries (fd nbyte basep : Z) : M L Z :=
  if fd <? FD_OFFSET then local (orig_getdirentries fd nbyte basep)
  else
    let fd := fd - FD_OFFSET in
    let reqBuf := store4 7 ++ store4 fd ++ store4 nbyte ++ store8 basep in
    sendRequest reqBuf ;;;
    resBuf <- receiveResponse 8 ;;
    let bytes_read := load_int resBuf in
    set_errno (load_int (skipn 4 resBuf)) ;;;
    e <- get_errno ;;
    if negb (e =? 0) then ret bytes_read
    else
      data <- receiveResponse (to_size_t bytes_read) ;;
      copy_out 0 (data ++ [NUL]) ;;;
      ret bytes_read.

(** [getdirtree(path)]: the tree, or nothing when the deserializer leaves
    the reply buffer.  No node of the reply takes fewer than five bytes,
    so the length of the buffer bounds the depth of the recursion. *)
Definition getdirtree (path : list byte) : M L (option dirtreenode) :=
  let reqBuf := store4 8 ++ store4 (path_len path) ++ path_chars path in
  sendRequest reqBuf ;;;
  resBuf1 <- receiveResponse 4 ;;
  let ret_data_length := load_int resBuf1 in
  data <- receiveResponse (to_size_t ret_data_length) ;;
  let resBuf := data ++ [NUL] in
  ret (option_map fst (deserialize_dirtree (length resBuf) resBuf 0)).

End Shim.

End Client.

(** ** Vocabulary of the statements *)

(** The value field and the error number of a reply whose header is
    [bytes:i32 | errno:i32], as the shim decodes them. *)
Definition frame_val (F : list byte) : Z := load_int F.
Definition frame_errno (F : list byte) : Z := load_int (skipn 4 F).

(** A reply header as the server lays it out. *)
Definition reply (v e : Z) : list byte := store4 v ++ store4 e.

(** An error-indicating sub-frame: bytes value [-1], error number not 0. *)
Definition error_frame (F : list byte) : Prop :=
  frame_val F = -1 /\ frame_errno F <> 0.

(** What a helper returns for a reply: [errno == 0 ? bytes : -1]. *)
Definition helper_ret (F : list byte) : Z :=
  if frame_errno F =? 0 then frame_val F else -1.

(** The buffers sent and received during a call that started in [w] and
    ended, or got stuck, in [w']. *)
Definition sent_during {L : Type} (w w' : world L) : list (list byte) :=
  skipn (length (w_sent w)) (w_sent w').
Definition rcvd_during {L : Type} (w w' : world L) : list (list byte) :=
  skipn (length (w_rcvd w)) (w_rcvd w').

(** The [count] field of a read or write request. *)
Definition request_count (req : list byte) : Z := load_int (skipn 8 req).

(** A world with nothing sent or received yet. *)
Definition fresh {L : Type} (h : host L) (inbox : list byte) : world L :=
  World h [] [] inbox [].

(** The world after one exchange: [req] went out, [F] came in and [rest]
    is still to come, and the error number of [F] is in [errno]. *)
Definition exchanged {L : Type} (w : world L) (req F rest : list byte)
  : world L :=
  World (Host (frame_errno F) (h_state (w_host w)))
        (w_sent w ++ [req]) (w_rcvd w ++ [F]) rest (w_copied w).

(** The request [open] puts on the wire. *)
Definition open_request (O_CREAT : Z) (pathname : list byte) (flags mode : Z)
  : list byte :=
  store4 0 ++ store4 (to_int (Client.path_len pathname))
  ++ Client.path_chars pathname ++ store4 flags
  ++ store4 (if Z.land flags O_CREAT =? 0 then 0 else mode).

(** The socket is as it was: nothing sent, nothing received, nothing taken
    from the stream. *)
Definition same_socket {L : Type} (w w' : world L) : Prop :=
  w_sent w' = w_sent w /\ w_rcvd w' = w_rcvd w /\ w_inbox w' = w_inbox w.

(** The call returned what the local implementation [f] returned, left
    the host as [f] left it, and did not touch the socket. *)
Definition delegated {L : Type} (f : host L -> Z * host L) (w : world L)
  (res : result L Z) : Prop :=
  exists w', res = Done (fst (f (w_host w))) w'
             /\ w_host w' = snd (f (w_host w))
             /\ same_socket w w'.

(** ** The runs of the chunking loops *)

(** The size of the next sub-frame: [count > maxLen ? maxLen : count]. *)
Definition read_chunk (count : Z) : Z :=
  if count >? Client.MAX_MSG_LEN - 8 then Client.MAX_MSG_LEN - 8 else count.
Definition write_chunk (count : Z) : Z :=
  if count >? Client.MAX_MSG_LEN - 12 then Client.MAX_MSG_LEN - 12 else count.

(** The requests of the helpers. *)
Definition read_request (fd count : Z) : list byte :=
  store4 1 ++ store4 fd ++ store4 count.
Definition write_request (fd : Z) (buf : list byte) (count : Z) : list byte :=
  store4 2 ++ store4 fd ++ store4 count ++ firstn (Z.to_nat count) buf.

(** The world in which a request has gone out and no reply has come. *)
Definition requested {L : Type} (w : world L) (req : list byte) : world L :=
  World (w_host w) (w_sent w ++ [req]) (w_rcvd w) (w_inbox w) (w_copied w).

(** The world after an exchange of [readHelper], which also copies the
    payload of the reply to the caller's buffer at [dst]. *)
Definition exchanged_read {L : Type} (w : world L) (req F rest : list byte)
  (dst : Z) : world L :=
  World (Host (frame_errno F) (h_state (w_host w)))
        (w_sent w ++ [req]) (w_rcvd w ++ [F]) rest
        (w_copied w ++ [(dst, skipn 8 F)]).

(** The total of [write] after the replies [frames], as the loop computes
    it: [total_bytes_written += bytes_written] on an [int]. *)
Definition accumulated (total : Z) (frames : list (list byte)) : Z :=
  fold_left (fun t F => to_int (t + frame_val F)) frames total.

(** A run of the loop of [write] from [count] and [total] in the world
    [w]: the requests it sends, the replies it takes, and how it ends. *)
Inductive write_run {L : Type} (fd : Z) (buf : list byte)
  : Z -> Z -> world L -> list (list byte) -> list (list byte)
    -> result L Z -> Prop :=
| write_run_end total w :
    write_run fd buf 0 total w [] []
      (Done (if total =? 0 then -1 else total) w)
| write_run_wait count total w :
    count <> 0 -> (length (w_inbox w) < 8)%nat ->
    let req := write_request fd (skipn (Z.to_nat total) buf)
                 (write_chunk count) in
    write_run fd buf count total w [req] [] (Blocked (requested w req))
| write_run_abort count total w F rest :
    count <> 0 -> w_inbox w = F ++ rest -> length F = 8%nat ->
    helper_ret F = -1 ->
    let req := write_request fd (skipn (Z.to_nat total) buf)
                 (write_chunk count) in
    write_run fd buf count total w [req] [F]
      (Done (-1) (exchanged w req F rest))
| write_run_next count total w F rest reqs frames res :
    count <> 0 -> w_inbox w = F ++ rest -> length F = 8%nat ->
    helper_ret F <> -1 ->
    let req := write_request fd (skipn (Z.to_nat total) buf)
                 (write_chunk count) in
    write_run fd buf (to_size_t (count - helper_ret F))
      (to_int (total + helper_ret F)) (exchanged w req F rest)
      reqs frames res ->
    write_run fd buf count total w (req :: reqs) (F :: frames) res.

(** A run of the loop of [read]. *)
Inductive read_run {L : Type} (fd : Z)
  : Z -> Z -> world L -> list (list byte) -> list (list byte)
    -> result L Z -> Prop :=
| read_run_end total w :
    read_run fd 0 total w [] [] (Done total w)
| read_run_wait count total w :
    count <> 0 -> Z.of_nat (length (w_inbox w)) < 8 + read_chunk count ->
    let req := read_request fd (read_chunk count) in
    read_run fd count total w [req] [] (Blocked (requested w req))
| read_run_abort count total w F rest :
    count <> 0 -> w_inbox w = F ++ rest ->
    Z.of_nat (length F) = 8 + read_chunk count ->
    helper_ret F = -1 ->
    let req := read_request fd (read_chunk count) in
    read_run fd count total w [req] [F]
      (Done (-1) (exchanged_read w req F rest total))
| read_run_eof count total w F rest :
    count <> 0 -> w_inbox w = F ++ rest ->
    Z.of_nat (length F) = 8 + read_chunk count ->
    helper_ret F = 0 ->
    let req := read_request fd (read_chunk count) in
    read_run fd count total w [req] [F]
      (Done total (exchanged_read w req F rest total))
| read_run_next count total w F rest reqs frames res :
    count <> 0 -> w_inbox w = F ++ rest ->
    Z.of_nat (length F) = 8 + read_chunk count ->
    helper_ret F <> -1 -> helper_ret F <> 0 ->
    let req := read_request fd (read_chunk count) in
    read_run fd (to_size_t (count - helper_ret F))
      (to_int (total + helper_ret F)) (exchanged_read w req F rest total)
      reqs frames res ->
    read_run fd count total w (req :: reqs) (F :: frames) res.

(** The call aborted at the reply [F], which came after the replies
    [pre] and before the replies [post]: it returned [-1]; no reply came
    after [F]; no reply before [F] was error-indicating; the error number
    of [F] is in [errno]; and the requests sent, [reqs], are one for each
    reply up to [F] and no more. *)
Definition aborted_at {L : Type} (res : result L Z)
  (reqs pre : list (list byte)) (F : list byte) (post : list (list byte))
  : Prop :=
  res = Done (-1) (final res)
  /\ post = []
  /\ Forall (fun G => ~ error_frame G) pre
  /\ h_errno (w_host (final res)) = frame_errno F
  /\ length reqs = S (length pre).

(** The two chunked entry points. *)
Inductive chunked_call : Type :=
| CallRead
| CallWrite (buf : list byte).

Definition chunked {L : Type}
  (orig_read : Z -> Z -> host L -> Z * host L)
  (orig_write : Z -> list byte -> Z -> host L -> Z * host L)
  (c : chunked_call) (fd count : Z) : M L Z :=
  match c with
  | CallRead => Client.read orig_read fd count
  | CallWrite buf => Client.write orig_write fd buf count
  end.

(** Local implementations for the examples: they return [r] and leave the
    host alone. *)
Definition const_local (r : Z) : host unit -> Z * host unit :=
  fun h => (r, h).

(** A reply on which a helper returns [-1]: its error number is not 0, or
    its bytes value is [-1]. *)
Definition aborting (F : list byte) : bool := helper_ret F =? -1.

(** The value [write] returns after the replies [frames]: [-1] when a
    reply made the helper return [-1]; otherwise the accumulated count, and
    [-1] in its place when it is 0. *)
Definition write_result (frames : list (list byte)) : Z :=
  if existsb aborting frames then -1
  else if accumulated 0 frames =? 0 then -1
       else accumulated 0 frames.

(** A reply that fits the request it answers: it carries an error number,
    or a positive bytes value that is at most the count asked for. *)
Definition fits (req F : list byte) : Prop :=
  frame_errno F <> 0 \/ 0 < frame_val F <= request_count req.

(** ** The entry points as one interface *)

(** The local implementations and the constants of the headers. *)
Record locals (L : Type) : Type := Locals {
  orig_read : Z -> Z -> host L -> Z * host L;
  orig_write : Z -> list byte -> Z -> host L -> Z * host L;
  orig_close : Z -> host L -> Z * host L;
  orig_lseek : Z -> Z -> Z -> host L -> Z * host L;
  orig_getdirentries : Z -> Z -> Z -> host L -> Z * host L;
  O_CREAT : Z;
  stat_size : Z
}.
Arguments Locals {L} _ _ _ _ _ _ _.
Arguments orig_read {L} _.
Arguments orig_write {L} _.
Arguments orig_close {L} _.
Arguments orig_lseek {L} _.
Arguments orig_getdirentries {L} _.
Arguments O_CREAT {L} _.
Arguments stat_size {L} _.

(** A call of one of the eight entry points that return an integer. *)
Inductive call : Type :=
| COpen (pathname : list byte) (flags mode : Z)
| CRead (fd count : Z)
| CWrite (fd : Z) (buf : list byte) (count : Z)
| CClose (fd : Z)
| CLseek (fd offset whence : Z)
| CStat (pathname statbuf : list byte)
| CUnlink (pathname : list byte)
| CGetdirentries (fd nbyte basep : Z).

Definition run {L : Type} (lib : locals L) (c : call) : M L Z :=
  match c with
  | COpen pathname flags mode => Client.open (O_CREAT lib) pathname flags mode
  | CRead fd count => Client.read (orig_read lib) fd count
  | CWrite fd buf count => Client.write (orig_write lib) fd buf count
  | CClose fd => Client.close (orig_close lib) fd
  | CLseek fd offset whence => Client.lseek (orig_lseek lib) fd offset whence
  | CStat pathname statbuf => Client.stat (stat_size lib) pathname statbuf
  | CUnlink pathname => Client.unlink pathname
  | CGetdirentries fd nbyte basep =>
      Client.getdirentries (orig_getdirentries lib) fd nbyte basep
  end.

(** The call takes the remote path, and its [count] is a [size_t]. *)
Definition remote (c : call) : Prop :=
  match c with
  | COpen _ _ _ | CStat _ _ | CUnlink _ => True
  | CRead fd count => Client.FD_OFFSET <= fd /\ is_size_t count
  | CWrite fd _ _ | CClose fd | CLseek fd _ _ | CGetdirentries fd _ _ =>
      Client.FD_OFFSET <= fd
  end.

(** The value and the error number that the entry points with a single
    reply header take from it. *)
Definition reply_value (c : call) (F : list byte) : Z :=
  match c with
  | COpen _ _ _ =>
      if frame_val F =? -1 then -1
      else to_int (frame_val F + Client.FD_OFFSET)
  | CLseek _ _ _ => load_int64 F
  | _ => frame_val F
  end.

Definition reply_errno (c : call) (F : list byte) : Z :=
  match c with
  | CLseek _ _ _ => load_int (skipn 8 F)
  | _ => frame_errno F
  end.

(** How the value returned relates to the error number stored.  [read]
    and [write] return [-1] when the error number they stored is not 0.
    The other entry points return the value of the reply header [F] and
    store its error number, whatever the two are. *)
Definition errno_discipline {L : Type} (c : call) (w : world L) (r : Z)
  (w' : world L) : Prop :=
  match c with
  | CRead _ _ | CWrite _ _ _ =>
      rcvd_during w w' <> [] -> h_errno (w_host w') <> 0 -> r = -1
  | _ =>
      exists F, hd_error (rcvd_during w w') = Some F
                /\ h_errno (w_host w') = reply_errno c F
                /\ r = reply_value c F
  end.

(** Local implementations for the examples. *)
Definition example_locals : locals unit :=
  Locals (fun _ _ => const_local 0) (fun _ _ _ => const_local 0)
         (fun _ => const_local 0) (fun _ _ _ => const_local 0)
         (fun _ _ _ => const_local 0) 64 144.

(** ** A session for the examples *)

(** A [getdirentries] of the server that succeeds with the entries
    [data]; as a system call that succeeds does, it leaves [errno] as it
    was. *)
Definition getdirentries_ok (data : list byte)
  : Z -> Z -> Z -> host unit -> (Z * list byte) * host unit :=
  fun _ _ _ h => ((Z.of_nat (length data), data), h).

(** A [getdirentries] of the server that fails with the error number [e]. *)
Definition getdirentries_fails (e : Z)
  : Z -> Z -> Z -> host unit -> (Z * list byte) * host unit :=
  fun _ _ _ h => ((-1, []), Host e (h_state h)).

Definition no_getdirtree : list byte -> host unit
                           -> option dirtreenode * host unit :=
  fun _ h => (None, h).

Definition no_fixed : Z -> list byte -> list byte -> host unit
                      -> (list byte * Z) * host unit :=
  fun _ _ retBuf h => ((retBuf, 0), h).

(** The request [getdirentries(3, buf, 4096, &basep)] with [*basep = 0] as
    it lies in the receive buffer of [main], and a reply buffer. *)
Definition getdirentries_request : list byte :=
  store4 7 ++ store4 3 ++ store4 4096 ++ store8 0 ++ [NUL].

Definition empty_retBuf : list byte :=
  repeat NUL (Z.to_nat (Server.MAX_MSG_LEN + 1)).

Definition entries : list byte := repeat Byte.x41 24.

(** ** Directory trees on the wire *)

(** The bytes of a tree in pre-order: the name, a NUL, the child count in
    four bytes, the children. *)
Fixpoint tree_bytes (T : dirtreenode) : list byte :=
  let 'Dirtreenode nm num subs := T in
  nm ++ [NUL] ++ store4 num ++ concat (map tree_bytes subs).

(** The trees of the round-trip law: every name is non-empty and has no
    NUL, and every child count is non-negative and is the length of the
    list of children. *)
Inductive well_formed : dirtreenode -> Prop :=
| well_formed_node nm num subs :
    nm <> [] -> ~ In NUL nm ->
    0 <= num -> num = Z.of_nat (length subs) ->
    Forall well_formed subs ->
    well_formed (Dirtreenode nm num subs).

(** The tree of the scenario: [a] with the empty directories [b] and [c]. *)
Definition example_tree : dirtreenode :=
  Dirtreenode [Byte.x61] 2
    [Dirtreenode [Byte.x62] 0 []; Dirtreenode [Byte.x63] 0 []].

(** What [serialize_dirtree] does on a node: it fills the hole of the
    buffer at [offset] with the bytes of the tree and moves [offset] past
    them. *)
Definition fills_hole (T : dirtreenode) : Prop :=
  forall pre hole post,
    length hole = length (tree_bytes T) ->
    Z.of_nat (length (pre ++ hole ++ post)) <= INT_MAX ->
    Server.serialize_node T (pre ++ hole ++ post) (Z.of_nat (length pre))
    = Some (pre ++ tree_bytes T ++ post,
            Z.of_nat (length pre) + Z.of_nat (length (tree_bytes T))).

(** What [deserialize_dirtree] does where the bytes of a tree lie in the
    buffer: it returns the tree and the offset past its bytes. *)
Definition reads_back (fuel : nat) (T : dirtreenode) : Prop :=
  forall pre post,
    Z.of_nat (length (pre ++ tree_bytes T)) <= INT_MAX ->
    Client.deserialize_dirtree fuel (pre ++ tree_bytes T ++ post)
      (Z.of_nat (length pre))
    = Some (T, Z.of_nat (length pre) + Z.of_nat (length (tree_bytes T))).

(** Worlds for the examples. *)
Definition example_host : host unit := Host 0 tt.

Definition write_aborted_world : world unit :=
  fresh example_host (reply 1 0 ++ reply (-1) 28).

Definition read_aborted_world : world unit :=
  fresh example_host (reply (-1) 9 ++ [Byte.x41; Byte.x42]).

Definition two_replies_world : world unit :=
  fresh example_host (reply 1 0 ++ reply 1 0).

(** ** Vocabulary of the further properties *)

(** The copies made into the caller's buffer during a call. *)
Definition copied_during {L : Type} (w w' : world L) : list (Z * list byte) :=
  skipn (length (w_copied w)) (w_copied w').

(** The value [read] returns after the replies [frames]: [-1] when a
    reply made the helper return [-1]; otherwise the accumulated count. *)
Definition read_result (frames : list (list byte)) : Z :=
  if existsb aborting frames then -1 else accumulated 0 frames.

(** A reply that carries data: the helper returns neither [-1] nor 0. *)
Definition carries_data (F : list byte) : Prop :=
  helper_ret F <> -1 /\ helper_ret F <> 0.

(** A reply to a read request that reports an error, or at most the
    bytes asked for. *)
Definition fits_read (req F : list byte) : Prop :=
  frame_errno F <> 0 \/ -1 <= frame_val F <= request_count req.





(** The copy stays inside a caller's buffer of [count] bytes. *)
Definition inside (count : Z) (c : Z * list byte) : Prop :=
  0 <= fst c /\ fst c + Z.of_nat (length (snd c)) <= count.



(** Worlds for the examples of the further properties. *)
Definition read_two_bytes_world : world unit :=
  fresh example_host (reply 2 0 ++ [Byte.x41; Byte.x42]).

Definition zero_acks_world : world unit :=
  fresh example_host (concat (repeat (reply 0 0) 2)).


Definition entries_world : world unit :=
  fresh example_host (reply 2 0 ++ [Byte.x41; Byte.x42] ++ [Byte.x43]).

Definition entries_error_world : world unit :=
  fresh example_host (reply (-1) 9 ++ [Byte.x43]).

(** [buf] of [main] after [recv] has returned the whole request [req]:
    the request, the NUL that [main] stores at [buf[rv]], and what the
    buffer held before. *)
Definition received (req stale : list byte) : list byte :=
  req ++ NUL :: stale.

(** The value is an [off_t]. *)
Definition is_off_t (z : Z) : Prop := - 2 ^ 63 <= z < 2 ^ 63.

(** The reply to [lseek]: the new offset and the error number. *)
Definition lseek_reply (v e : Z) : list byte := store8 v ++ store4 e.

(** System calls of the server for the examples.  Those that succeed
    leave [errno] as it was. *)
Definition open_gives (fd : Z)
  : list byte -> Z -> Z -> host unit -> Z * host unit :=
  fun _ _ _ h => (fd, h).

Definition read_gives (data : list byte)
  : Z -> Z -> host unit -> (Z * list byte) * host unit :=
  fun _ _ h => ((Z.of_nat (length data), data), h).

Definition write_all : Z -> list byte -> Z -> host unit -> Z * host unit :=
  fun _ _ count h => (count, h).

Definition close_ok : Z -> host unit -> Z * host unit :=
  fun _ h => (0, h).

Definition lseek_to : Z -> Z -> Z -> host unit -> Z * host unit :=
  fun _ offset _ h => (offset, h).

Definition stat_fails (e : Z)
  : list byte -> list byte -> host unit -> Z * host unit :=
  fun _ _ h => (-1, Host e (h_state h)).

Definition unlink_ok : list byte -> host unit -> Z * host unit :=
  fun _ h => (0, h).

Definition getdirtree_gives (T : dirtreenode)
  : list byte -> host unit -> option dirtreenode * host unit :=
  fun _ h => (Some T, h).

Definition example_session : Server.session unit :=
  Server.Session example_host [].

(** The request loop of [main] with the system calls of the examples;
    [getdirtree] is a parameter. *)
Definition example_step
  (sys_getdirtree : list byte -> host unit -> option dirtreenode * host unit)
  (data : list byte)
  : list byte -> list byte -> Server.session unit
    -> option (Server.session unit) :=
  Server.request_step (open_gives 3) (read_gives data) write_all close_ok
    lseek_to (stat_fails 2) unlink_ok (stat_size example_locals) Byte.xff
    (getdirentries_ok [Byte.x41; Byte.x42]) sys_getdirtree.

Definition example_statbuf : list byte :=
  repeat NUL (Z.to_nat (stat_size example_locals)).
(** ** Integers and bytes *)

Lemma to_int_id (z : Z) : is_int z -> to_int z = z.
Proof.
  unfold is_int, to_int, INT_MIN, INT_MAX. intros H.
  rewrite Z.mod_small; lia.
Qed.

Lemma to_int_range (z : Z) : is_int (to_int z).
Proof.
  unfold is_int, to_int, INT_MIN, INT_MAX.
  pose proof (Z.mod_pos_bound (z + 2 ^ 31) (2 ^ 32)). lia.
Qed.

Lemma to_int_mod (z : Z) : to_int (z mod 2 ^ 32) = to_int z.
Proof.
  unfold to_int.
  rewrite Z.add_mod_idemp_l by lia. reflexivity.
Qed.

Lemma to_int_add_to_int (a b : Z) : to_int (to_int a + b) = to_int (a + b).
Proof.
  unfold to_int.
  replace ((a + 2 ^ 31) mod 2 ^ 32 - 2 ^ 31 + b + 2 ^ 31)
    with ((a + 2 ^ 31) mod 2 ^ 32 + b) by lia.
  rewrite Z.add_mod_idemp_l by lia.
  f_equal. f_equal. lia.
Qed.

Lemma to_int_add_size_t (a b : Z) : to_int (a + to_size_t b) = to_int (a + b).
Proof.
  unfold to_int, to_size_t.
  f_equal.
  rewrite <- (Z.mod_mod_divide (a + b mod 2 ^ 64 + 2 ^ 31) (2 ^ 64) (2 ^ 32)).
  2: { exists (2 ^ 32). reflexivity. }
  replace (a + b mod 2 ^ 64 + 2 ^ 31) with (b mod 2 ^ 64 + (a + 2 ^ 31)) by lia.
  rewrite Z.add_mod_idemp_l by lia.
  rewrite Z.mod_mod_divide.
  2: { exists (2 ^ 32). reflexivity. }
  f_equal. lia.
Qed.

Lemma to_size_t_sub (a b : Z) :
  to_size_t (a - to_size_t b) = to_size_t (a - b).
Proof.
  unfold to_size_t. rewrite Zminus_mod_idemp_r. reflexivity.
Qed.

Lemma to_size_t_minus_one (r : Z) :
  is_int r -> (to_size_t r =? to_size_t (-1)) = (r =? -1).
Proof.
  unfold is_int, INT_MIN, INT_MAX, to_size_t. intros H.
  change ((-1) mod 2 ^ 64) with (2 ^ 64 - 1).
  destruct (Z.eqb_spec r (-1)) as [->|Hne].
  - reflexivity.
  - apply Z.eqb_neq.
    destruct (Z_lt_le_dec r 0).
    + replace r with (r + 2 ^ 64 + (-1) * 2 ^ 64) by lia.
      rewrite Z_mod_plus_full. rewrite Z.mod_small; lia.
    + rewrite Z.mod_small; lia.
Qed.

Lemma to_size_t_zero (r : Z) : is_int r -> (to_size_t r =? 0) = (r =? 0).
Proof.
  unfold is_int, INT_MIN, INT_MAX, to_size_t. intros H.
  destruct (Z.eqb_spec r 0) as [->|Hne].
  - reflexivity.
  - apply Z.eqb_neq.
    destruct (Z_lt_le_dec r 0).
    + replace r with (r + 2 ^ 64 + (-1) * 2 ^ 64) by lia.
      rewrite Z_mod_plus_full. rewrite Z.mod_small; lia.
    + rewrite Z.mod_small; lia.
Qed.

Lemma length_store4 (v : Z) : length (store4 v) = 4%nat.
Proof. apply length_le_split. Qed.

Lemma length_store8 (v : Z) : length (store8 v) = 8%nat.
Proof. apply length_le_split. Qed.

Lemma load_int_store4 (v : Z) (rest : list byte) :
  load_int (store4 v ++ rest) = to_int v.
Proof.
  unfold load_int.
  rewrite firstn_app, length_store4, Nat.sub_diag, firstn_O, app_nil_r.
  rewrite firstn_all2 by (rewrite length_store4; lia).
  unfold store4. rewrite le_combine_split.
  change (Z.of_nat 4 * 8) with 32. apply to_int_mod.
Qed.

Lemma load_int_range (src : list byte) : is_int (load_int src).
Proof. apply to_int_range. Qed.

Lemma frame_val_reply (v e : Z) (rest : list byte) :
  frame_val (reply v e ++ rest) = to_int v.
Proof.
  unfold frame_val, reply. rewrite <- app_assoc. apply load_int_store4.
Qed.

Lemma frame_errno_reply (v e : Z) (rest : list byte) :
  frame_errno (reply v e ++ rest) = to_int e.
Proof.
  unfold frame_errno, reply. rewrite <- !app_assoc.
  rewrite skipn_app, length_store4, Nat.sub_diag.
  rewrite skipn_all2 by (rewrite length_store4; lia).
  simpl. apply load_int_store4.
Qed.

Lemma length_reply (v e : Z) : length (reply v e) = 8%nat.
Proof. unfold reply. rewrite length_app, !length_store4. reflexivity. Qed.

Lemma helper_ret_range (F : list byte) : is_int (helper_ret F).
Proof.
  unfold helper_ret. destruct (frame_errno F =? 0).
  - apply load_int_range.
  - unfold is_int, INT_MIN, INT_MAX. lia.
Qed.

(** ** The socket primitives *)

Section Primitives.

Context {L : Type}.
Implicit Types w : world L.

Lemma sendRequest_store4 (v : Z) (tail : list byte) w :
  Client.sendRequest (store4 v ++ tail) w
  = Done tt (World (w_host w) (w_sent w ++ [store4 v ++ tail]) (w_rcvd w)
                   (w_inbox w) (w_copied w)).
Proof. reflexivity. Qed.

Lemma receiveResponse_frame (n : Z) (F rest : list byte) w :
  w_inbox w = F ++ rest -> Z.of_nat (length F) = n -> n <> 0 ->
  Client.receiveResponse n w
  = Done F (World (w_host w) (w_sent w) (w_rcvd w ++ [F]) rest (w_copied w)).
Proof.
  intros Hin Hlen Hn. unfold Client.receiveResponse.
  rewrite (proj2 (Z.eqb_neq n 0) Hn).
  rewrite Hin, length_app.
  replace (n <=? Z.of_nat (length F + length rest)) with true
    by (symmetry; apply Z.leb_le; lia).
  replace (Z.to_nat n) with (length F) by lia.
  rewrite firstn_app, Nat.sub_diag, firstn_O, app_nil_r, firstn_all.
  rewrite skipn_app, Nat.sub_diag, skipn_all. reflexivity.
Qed.

Lemma receiveResponse_short (n : Z) w :
  Z.of_nat (length (w_inbox w)) < n ->
  Client.receiveResponse n w = Blocked w.
Proof.
  intros Hlt. unfold Client.receiveResponse.
  replace (n =? 0) with false by (symmetry; apply Z.eqb_neq; lia).
  replace (n <=? Z.of_nat (length (w_inbox w))) with false
    by (symmetry; apply Z.leb_gt; lia).
  reflexivity.
Qed.

(** A stream of at least [n] bytes starts with a frame of [n] bytes. *)
Lemma inbox_split (n : nat) (l : list byte) :
  (n <= length l)%nat ->
  l = firstn n l ++ skipn n l /\ length (firstn n l) = n.
Proof.
  intros H. split.
  - symmetry. apply firstn_skipn.
  - apply firstn_length_le. exact H.
Qed.

End Primitives.

(** ** [open] *)

Section OpenFacts.

Context {L : Type}.
Variable O_CREAT : Z.

Lemma open_exchange (pathname : list byte) (flags mode : Z) (w : world L)
  (F rest : list byte) :
  w_inbox w = F ++ rest -> length F = 8%nat ->
  Client.open O_CREAT pathname flags mode w
  = Done (if frame_val F =? -1 then frame_val F
          else to_int (frame_val F + Client.FD_OFFSET))
         (exchanged w (open_request O_CREAT pathname flags mode) F rest).
Proof.
  intros Hin HF. unfold Client.open, bind.
  rewrite sendRequest_store4.
  erewrite receiveResponse_frame; [ | exact Hin | simpl; lia | lia ].
  reflexivity.
Qed.

End OpenFacts.

(** C1 (amended).  [open] returns [-1] when the reply carries the
    descriptor [-1], and [server_fd + 5000] when it carries a descriptor
    from [0] to [INT_MAX - 5000]; so for every reply whose descriptor lies
    in [-1 .. INT_MAX - 5000] the value returned is [-1] or
    [server_fd + 5000] for a non-negative [server_fd].  The test of the
    shim is [fd != -1]: every other descriptor of a reply, negative ones
    included, is biased by 5000 in [int] arithmetic.  The error number of
    the reply is in [errno] afterwards. *)
Theorem open_return_value {L : Type} (O_CREAT : Z) (pathname : list byte)
  (flags mode : Z) (w : world L) (fd e : Z) (rest : list byte) :
  is_int fd -> is_int e -> w_inbox w = reply fd e ++ rest ->
  exists r w',
    Client.open O_CREAT pathname flags mode w = Done r w'
    /\ h_errno (w_host w') = e
    /\ (fd = -1 -> r = -1)
    /\ (0 <= fd <= INT_MAX - 5000 -> r = fd + 5000)
    /\ (-1 <= fd <= INT_MAX - 5000 ->
        r = -1 \/ exists server_fd, 0 <= server_fd /\ r = server_fd + 5000)
    /\ (fd <> -1 -> r = to_int (fd + 5000)).
Proof.
  intros Hfd He Hin.
  rewrite (open_exchange O_CREAT pathname flags mode w (reply fd e) rest Hin
             (length_reply fd e)).
  rewrite <- (app_nil_r (reply fd e)).
  rewrite frame_val_reply, (to_int_id fd Hfd).
  eexists. eexists. split; [reflexivity|].
  unfold exchanged; cbn [w_host h_errno].
  rewrite frame_errno_reply, (to_int_id e He).
  unfold Client.FD_OFFSET, INT_MAX in *.
  split; [reflexivity|].
  destruct (Z.eqb_spec fd (-1)) as [->|Hne].
  - repeat split; intros; lia.
  - assert (Hbias : 0 <= fd <= 2 ^ 31 - 1 - 5000 -> to_int (fd + 5000) = fd + 5000).
    { intros Hr. apply to_int_id. unfold is_int, INT_MIN, INT_MAX. lia. }
    split; [intros; lia|].
    split; [intros; apply Hbias; lia|].
    split; [|intros; reflexivity].
    intros Hr. right. exists fd. split; [lia|]. apply Hbias; lia.
Qed.

Lemma open_return_value_witness :
  is_int 3 /\ is_int 0
  /\ w_inbox (fresh (Host 0 tt) (reply 3 0)) = reply 3 0 ++ []
  /\ exists r w',
       Client.open 64 [] 0 0 (fresh (Host 0 tt) (reply 3 0)) = Done r w'
       /\ h_errno (w_host w') = 0
       /\ (3 = -1 -> r = -1)
       /\ (0 <= 3 <= INT_MAX - 5000 -> r = 3 + 5000)
       /\ (-1 <= 3 <= INT_MAX - 5000 ->
           r = -1 \/ exists server_fd, 0 <= server_fd /\ r = server_fd + 5000)
       /\ (3 <> -1 -> r = to_int (3 + 5000)).
Proof.
  assert (H3 : is_int 3) by (unfold is_int, INT_MIN, INT_MAX; lia).
  assert (H0 : is_int 0) by (unfold is_int, INT_MIN, INT_MAX; lia).
  assert (Hin : w_inbox (fresh (Host 0 tt) (reply 3 0)) = reply 3 0 ++ [])
    by reflexivity.
  split; [exact H3|]. split; [exact H0|]. split; [exact Hin|].
  exact (open_return_value 64 [] 0 0 (fresh (Host 0 tt) (reply 3 0)) 3 0 []
           H3 H0 Hin).
Defined.

(** C1, as stated, fails.  On a reply that carries the descriptor [-2],
    [open] returns [4998], which is neither [-1] nor [server_fd + 5000]
    for a non-negative [server_fd]; and on a reply that carries [INT_MAX]
    the value returned is not [INT_MAX + 5000], which no [int] holds. *)
Lemma open_biases_every_fd_but_minus_one :
  (exists w', Client.open 64 [] 0 0 (fresh (Host 0 tt) (reply (-2) 0))
              = Done 4998 w'
              /\ 4998 <> -1
              /\ ~ (exists server_fd, 0 <= server_fd /\ 4998 = server_fd + 5000))
  /\ (exists r w', Client.open 64 [] 0 0 (fresh (Host 0 tt) (reply INT_MAX 0))
                   = Done r w'
                   /\ 0 <= INT_MAX /\ r <> INT_MAX + 5000).
Proof.
  split.
  - eexists. split; [vm_compute; reflexivity|]. split; [lia|].
    intros [s [H0 H1]]. lia.
  - eexists. eexists. split; [vm_compute; reflexivity|].
    unfold INT_MAX. split; lia.
Qed.

(** ** Local descriptors *)

Section LocalPath.

Context {L : Type}.
Variable orig_read : Z -> Z -> host L -> Z * host L.
Variable orig_write : Z -> list byte -> Z -> host L -> Z * host L.
Variable orig_close : Z -> host L -> Z * host L.
Variable orig_lseek : Z -> Z -> Z -> host L -> Z * host L.
Variable orig_getdirentries : Z -> Z -> Z -> host L -> Z * host L.

Lemma local_delegated (f : host L -> Z * host L) (w : world L) :
  delegated f w (local f w).
Proof.
  unfold delegated, local, same_socket.
  destruct (f (w_host w)) as [r h]. eexists. cbn.
  repeat split; reflexivity.
Qed.

(** C6.  With a descriptor below 5000, [read], [write], [close], [lseek]
    and [getdirentries] return what the local implementation returns,
    leave the host as it leaves it, and send nothing, receive nothing and
    take nothing from the stream of the socket. *)
Theorem local_descriptor_no_traffic (fd : Z) (w : world L) :
  fd < Client.FD_OFFSET ->
  (forall count,
      delegated (orig_read fd count) w (Client.read orig_read fd count w))
  /\ (forall buf count,
        delegated (orig_write fd buf count) w
                  (Client.write orig_write fd buf count w))
  /\ delegated (orig_close fd) w (Client.close orig_close fd w)
  /\ (forall offset whence,
        delegated (orig_lseek fd offset whence) w
                  (Client.lseek orig_lseek fd offset whence w))
  /\ (forall nbyte basep,
        delegated (orig_getdirentries fd nbyte basep) w
                  (Client.getdirentries orig_getdirentries fd nbyte basep w)).
Proof.
  intros Hfd.
  assert (Hlt : (fd <? Client.FD_OFFSET) = true) by (apply Z.ltb_lt; exact Hfd).
  unfold Client.read, Client.write, Client.close, Client.lseek,
    Client.getdirentries.
  rewrite Hlt.
  repeat split; intros; apply local_delegated.
Qed.

(** C10.  On a remote descriptor, [read] with [count = 0] returns 0 and
    leaves the world as it was: no request is sent. *)
Theorem read_zero_count (fd : Z) (w : world L) :
  Client.FD_OFFSET <= fd ->
  Client.read orig_read fd 0 w = Done 0 w.
Proof.
  intros Hfd. unfold Client.read.
  replace (fd <? Client.FD_OFFSET) with false
    by (symmetry; apply Z.ltb_ge; exact Hfd).
  reflexivity.
Qed.

End LocalPath.

(** ** One exchange of a helper *)

Section Helpers.

Context {L : Type}.
Implicit Types w : world L.

Lemma writeHelper_exchange (fd : Z) (buf : list byte) (count : Z) w
  (F rest : list byte) :
  w_inbox w = F ++ rest -> length F = 8%nat ->
  Client.writeHelper fd buf count w
  = Done (helper_ret F) (exchanged w (write_request fd buf count) F rest).
Proof.
  intros Hin HF. unfold Client.writeHelper, bind.
  rewrite sendRequest_store4.
  erewrite receiveResponse_frame; [ | exact Hin | simpl; lia | lia ].
  reflexivity.
Qed.

Lemma writeHelper_wait (fd : Z) (buf : list byte) (count : Z) w :
  (length (w_inbox w) < 8)%nat ->
  Client.writeHelper fd buf count w
  = Blocked (requested w (write_request fd buf count)).
Proof.
  intros Hlen. unfold Client.writeHelper, bind.
  rewrite sendRequest_store4.
  rewrite receiveResponse_short by (simpl; lia).
  reflexivity.
Qed.

Lemma write_step_exchange (fd : Z) (buf : list byte) (count total : Z) w
  (F rest : list byte) :
  w_inbox w = F ++ rest -> length F = 8%nat ->
  Client.write_step fd buf count total w
  = Done (if helper_ret F =? -1 then Client.WAbort
          else Client.WNext (to_size_t (count - helper_ret F))
                            (to_int (total + helper_ret F)))
         (exchanged w (write_request fd (skipn (Z.to_nat total) buf)
                         (write_chunk count)) F rest).
Proof.
  intros Hin HF. unfold Client.write_step, bind.
  fold (write_chunk count).
  rewrite (writeHelper_exchange _ _ _ w F rest Hin HF).
  rewrite (to_size_t_minus_one _ (helper_ret_range F)).
  destruct (helper_ret F =? -1); [reflexivity|].
  unfold ret. rewrite to_size_t_sub, to_int_add_size_t. reflexivity.
Qed.

Lemma write_step_wait (fd : Z) (buf : list byte) (count total : Z) w :
  (length (w_inbox w) < 8)%nat ->
  Client.write_step fd buf count total w
  = Blocked (requested w (write_request fd (skipn (Z.to_nat total) buf)
                            (write_chunk count))).
Proof.
  intros Hlen. unfold Client.write_step, bind.
  fold (write_chunk count).
  rewrite writeHelper_wait by exact Hlen. reflexivity.
Qed.

(** With more fuel than the stream has bytes, the loop of [write] makes a
    run: the fuel does not run out. *)
Lemma write_loop_run (fd : Z) (buf : list byte) (fuel : nat) :
  forall count total w,
    (length (w_inbox w) < fuel)%nat ->
    exists reqs frames,
      write_run fd buf count total w reqs frames
        (Client.write_loop fuel fd buf count total w).
Proof.
  induction fuel as [|fuel IH]; intros count total w Hfuel; [lia|].
  cbn [Client.write_loop].
  destruct (Z.eqb_spec count 0) as [->|Hc].
  - exists [], []. apply write_run_end.
  - unfold bind.
    destruct (Nat.lt_ge_cases (length (w_inbox w)) 8) as [Hshort|Hlong].
    + rewrite write_step_wait by exact Hshort.
      eexists. eexists. apply write_run_wait; assumption.
    + destruct (inbox_split 8 (w_inbox w) Hlong) as [Hin HF].
      rewrite (write_step_exchange _ _ _ _ w _ _ Hin HF).
      destruct (Z.eqb_spec (helper_ret (firstn 8 (w_inbox w))) (-1))
        as [Hr|Hr].
      * eexists. eexists. eapply write_run_abort; eassumption.
      * edestruct (IH (to_size_t (count - helper_ret (firstn 8 (w_inbox w))))
                      (to_int (total + helper_ret (firstn 8 (w_inbox w))))
                      (exchanged w
                         (write_request fd (skipn (Z.to_nat total) buf)
                            (write_chunk count))
                         (firstn 8 (w_inbox w)) (skipn 8 (w_inbox w))))
          as [reqs [frames Hrun]].
        { cbn [exchanged w_inbox]. rewrite length_skipn. lia. }
        eexists. eexists. eapply write_run_next; eassumption.
Qed.

End Helpers.

Section ReadHelper.

Context {L : Type}.
Implicit Types w : world L.

Lemma read_chunk_range (count : Z) :
  is_size_t count -> count <> 0 ->
  0 < read_chunk count <= 4088 /\ read_chunk count <= count.
Proof.
  unfold is_size_t, read_chunk, Client.MAX_MSG_LEN. intros H Hc.
  destruct (Z.gtb_spec count (4096 - 8)); lia.
Qed.

Lemma write_chunk_range (count : Z) :
  is_size_t count -> count <> 0 ->
  0 < write_chunk count <= 4084 /\ write_chunk count <= count.
Proof.
  unfold is_size_t, write_chunk, Client.MAX_MSG_LEN. intros H Hc.
  destruct (Z.gtb_spec count (4096 - 12)); lia.
Qed.

Lemma read_reply_size (chunk : Z) :
  0 < chunk <= 4088 -> to_size_t (to_int (4 + 4 + chunk)) = 8 + chunk.
Proof.
  intros H. rewrite to_int_id by (unfold is_int, INT_MIN, INT_MAX; lia).
  unfold to_size_t. rewrite Z.mod_small; lia.
Qed.

Lemma readHelper_exchange (fd dst count : Z) w (F rest : list byte) :
  0 < count <= 4088 ->
  w_inbox w = F ++ rest -> Z.of_nat (length F) = 8 + count ->
  Client.readHelper fd dst count w
  = Done (helper_ret F)
         (exchanged_read w (read_request fd count) F rest dst).
Proof.
  intros Hc Hin HF. unfold Client.readHelper, bind.
  rewrite sendRequest_store4.
  rewrite (read_reply_size count Hc).
  erewrite receiveResponse_frame; [ | exact Hin | exact HF | lia ].
  reflexivity.
Qed.

Lemma readHelper_wait (fd dst count : Z) w :
  0 < count <= 4088 ->
  Z.of_nat (length (w_inbox w)) < 8 + count ->
  Client.readHelper fd dst count w
  = Blocked (requested w (read_request fd count)).
Proof.
  intros Hc Hlen. unfold Client.readHelper, bind.
  rewrite sendRequest_store4.
  rewrite (read_reply_size count Hc).
  rewrite receiveResponse_short by (cbn [w_inbox]; lia).
  reflexivity.
Qed.

Lemma read_step_exchange (fd count total : Z) w (F rest : list byte) :
  is_size_t count -> count <> 0 ->
  w_inbox w = F ++ rest -> Z.of_nat (length F) = 8 + read_chunk count ->
  Client.read_step fd count total w
  = Done (if helper_ret F =? -1 then Client.RAbort
          else if helper_ret F =? 0 then Client.RBreak
          else Client.RNext (to_size_t (count - helper_ret F))
                            (to_int (total + helper_ret F)))
         (exchanged_read w (read_request fd (read_chunk count)) F rest total).
Proof.
  intros Hs Hc Hin HF. unfold Client.read_step, bind.
  fold (read_chunk count).
  destruct (read_chunk_range count Hs Hc) as [Hr _].
  rewrite (readHelper_exchange _ _ _ w F rest Hr Hin HF).
  rewrite (to_size_t_minus_one _ (helper_ret_range F)).
  rewrite (to_size_t_zero _ (helper_ret_range F)).
  destruct (helper_ret F =? -1); [reflexivity|].
  destruct (helper_ret F =? 0); [reflexivity|].
  unfold ret. rewrite to_size_t_sub, to_int_add_size_t. reflexivity.
Qed.

Lemma read_step_wait (fd count total : Z) w :
  is_size_t count -> count <> 0 ->
  Z.of_nat (length (w_inbox w)) < 8 + read_chunk count ->
  Client.read_step fd count total w
  = Blocked (requested w (read_request fd (read_chunk count))).
Proof.
  intros Hs Hc Hlen. unfold Client.read_step, bind.
  fold (read_chunk count).
  destruct (read_chunk_range count Hs Hc) as [Hr _].
  rewrite readHelper_wait by assumption. reflexivity.
Qed.

Lemma to_size_t_range (z : Z) : is_size_t (to_size_t z).
Proof. unfold is_size_t, to_size_t. apply Z.mod_pos_bound. lia. Qed.

(** With more fuel than the stream has bytes, the loop of [read] makes a
    run. *)
Lemma read_loop_run (fd : Z) (fuel : nat) :
  forall count total w,
    is_size_t count ->
    (length (w_inbox w) < fuel)%nat ->
    exists reqs frames,
      read_run fd count total w reqs frames
        (Client.read_loop fuel fd count total w).
Proof.
  induction fuel as [|fuel IH]; intros count total w Hs Hfuel; [lia|].
  cbn [Client.read_loop].
  destruct (Z.eqb_spec count 0) as [->|Hc].
  - exists [], []. apply read_run_end.
  - unfold bind.
    destruct (read_chunk_range count Hs Hc) as [Hr _].
    destruct (Z_lt_le_dec (Z.of_nat (length (w_inbox w)))
                (8 + read_chunk count)) as [Hshort|Hlong].
    + rewrite read_step_wait by assumption.
      eexists. eexists. apply read_run_wait; assumption.
    + set (n := Z.to_nat (8 + read_chunk count)).
      destruct (inbox_split n (w_inbox w)) as [Hin HF]; [lia|].
      assert (HF' : Z.of_nat (length (firstn n (w_inbox w)))
                    = 8 + read_chunk count) by lia.
      rewrite (read_step_exchange _ _ _ w _ _ Hs Hc Hin HF').
      destruct (Z.eqb_spec (helper_ret (firstn n (w_inbox w))) (-1))
        as [Hm|Hm].
      { eexists. eexists. eapply read_run_abort; eassumption. }
      destruct (Z.eqb_spec (helper_ret (firstn n (w_inbox w))) 0)
        as [Hz|Hz].
      { eexists. eexists. eapply read_run_eof; eassumption. }
      edestruct (IH (to_size_t (count - helper_ret (firstn n (w_inbox w))))
                    (to_int (total + helper_ret (firstn n (w_inbox w))))
                    (exchanged_read w (read_request fd (read_chunk count))
                       (firstn n (w_inbox w)) (skipn n (w_inbox w)) total))
        as [reqs [frames Hrun]].
      { apply to_size_t_range. }
      { cbn [exchanged_read w_inbox]. rewrite length_skipn. lia. }
      eexists. eexists. eapply read_run_next; eassumption.
Qed.

End ReadHelper.

(** ** What a run leaves in the logs *)

Section RunLogs.

Context {L : Type}.

Lemma write_run_logs (fd : Z) (buf : list byte) count total (w : world L)
  reqs frames res :
  write_run fd buf count total w reqs frames res ->
  w_sent (final res) = w_sent w ++ reqs
  /\ w_rcvd (final res) = w_rcvd w ++ frames.
Proof.
  induction 1 as [total w | count total w Hc Hlen req
                 | count total w F rest Hc Hin HF Hr req
                 | count total w F rest reqs frames res Hc Hin HF Hr req Hrun IH].
  - cbn. rewrite !app_nil_r. split; reflexivity.
  - cbn. rewrite app_nil_r. split; reflexivity.
  - cbn. split; reflexivity.
  - destruct IH as [IHs IHr]. cbn in IHs, IHr.
    rewrite IHs, IHr, <- !app_assoc. split; reflexivity.
Qed.

Lemma read_run_logs (fd : Z) count total (w : world L) reqs frames res :
  read_run fd count total w reqs frames res ->
  w_sent (final res) = w_sent w ++ reqs
  /\ w_rcvd (final res) = w_rcvd w ++ frames.
Proof.
  induction 1 as [total w | count total w Hc Hlen req
                 | count total w F rest Hc Hin HF Hr req
                 | count total w F rest Hc Hin HF Hr req
                 | count total w F rest reqs frames res Hc Hin HF Hr Hz req
                     Hrun IH].
  - cbn. rewrite !app_nil_r. split; reflexivity.
  - cbn. rewrite app_nil_r. split; reflexivity.
  - cbn. split; reflexivity.
  - cbn. split; reflexivity.
  - destruct IH as [IHs IHr]. cbn in IHs, IHr.
    rewrite IHs, IHr, <- !app_assoc. split; reflexivity.
Qed.

Lemma skipn_length_app {A : Type} (l m : list A) :
  skipn (length l) (l ++ m) = m.
Proof.
  rewrite skipn_app, Nat.sub_diag, skipn_all. reflexivity.
Qed.

End RunLogs.

(** ** Runs and error frames *)

Section RunFacts.

Context {L : Type}.

Lemma error_frame_helper_ret (F : list byte) :
  error_frame F -> helper_ret F = -1.
Proof.
  intros [_ He]. unfold helper_ret.
  rewrite (proj2 (Z.eqb_neq _ _) He). reflexivity.
Qed.

Lemma helper_ret_errno (F : list byte) :
  helper_ret F <> -1 -> frame_errno F = 0 /\ helper_ret F = frame_val F.
Proof.
  unfold helper_ret. destruct (Z.eqb_spec (frame_errno F) 0) as [He|He].
  - intros _. split; [exact He | reflexivity].
  - intros H. contradiction H. reflexivity.
Qed.

Lemma helper_ret_zero_errno (F : list byte) :
  helper_ret F = 0 -> frame_errno F = 0.
Proof.
  intros H. apply helper_ret_errno. lia.
Qed.

Lemma singleton_split {A : Type} (x y : A) (pre post : list A) :
  [x] = pre ++ y :: post -> pre = [] /\ y = x /\ post = [].
Proof.
  destruct pre as [|a pre]; cbn; intros H.
  - injection H as -> <-. repeat split.
  - injection H as _ H. destruct pre; discriminate H.
Qed.

Lemma write_run_error_frame (fd : Z) (buf : list byte) count total
  (w : world L) reqs frames res :
  write_run fd buf count total w reqs frames res ->
  forall pre F post,
    frames = pre ++ F :: post -> error_frame F ->
    aborted_at res reqs pre F post.
Proof.
  induction 1 as [total w | count total w Hc Hlen req
                 | count total w F0 rest Hc Hin HF Hr req
                 | count total w F0 rest reqs frames res Hc Hin HF Hr req
                     Hrun IH];
    intros pre F post Hsplit Herr.
  - destruct pre; discriminate Hsplit.
  - destruct pre; discriminate Hsplit.
  - apply singleton_split in Hsplit. destruct Hsplit as [-> [-> ->]].
    unfold aborted_at. cbn. repeat split. constructor.
  - destruct pre as [|G pre]; cbn in Hsplit; injection Hsplit as -> ->.
    + contradiction Hr. apply error_frame_helper_ret. exact Herr.
    + destruct (IH pre F post eq_refl Herr) as [H1 [H2 [H3 [H4 H5]]]].
      unfold aborted_at. repeat split; try assumption.
      * constructor; [|exact H3].
        intros HG. apply Hr. apply error_frame_helper_ret. exact HG.
      * cbn. rewrite H5. reflexivity.
Qed.

Lemma read_run_error_frame (fd : Z) count total (w : world L)
  reqs frames res :
  read_run fd count total w reqs frames res ->
  forall pre F post,
    frames = pre ++ F :: post -> error_frame F ->
    aborted_at res reqs pre F post.
Proof.
  induction 1 as [total w | count total w Hc Hlen req
                 | count total w F0 rest Hc Hin HF Hr req
                 | count total w F0 rest Hc Hin HF Hr req
                 | count total w F0 rest reqs frames res Hc Hin HF Hr Hz req
                     Hrun IH];
    intros pre F post Hsplit Herr.
  - destruct pre; discriminate Hsplit.
  - destruct pre; discriminate Hsplit.
  - apply singleton_split in Hsplit. destruct Hsplit as [-> [-> ->]].
    unfold aborted_at. cbn. repeat split. constructor.
  - apply singleton_split in Hsplit. destruct Hsplit as [-> [-> ->]].
    apply error_frame_helper_ret in Herr. lia.
  - destruct pre as [|G pre]; cbn in Hsplit; injection Hsplit as -> ->.
    + contradiction Hr. apply error_frame_helper_ret. exact Herr.
    + destruct (IH pre F post eq_refl Herr) as [H1 [H2 [H3 [H4 H5]]]].
      unfold aborted_at. repeat split; try assumption.
      * constructor; [|exact H3].
        intros HG. apply Hr. apply error_frame_helper_ret. exact HG.
      * cbn. rewrite H5. reflexivity.
Qed.

(** A run that returns has returned [-1], or has taken no reply, or has
    left 0 in [errno]. *)
Lemma write_run_errno (fd : Z) (buf : list byte) count total (w : world L)
  reqs frames res :
  write_run fd buf count total w reqs frames res ->
  forall r w', res = Done r w' ->
    r = -1 \/ (frames = [] /\ w' = w)
    \/ (frames <> [] /\ h_errno (w_host w') = 0).
Proof.
  induction 1 as [total w | count total w Hc Hlen req
                 | count total w F0 rest Hc Hin HF Hr req
                 | count total w F0 rest reqs frames res Hc Hin HF Hr req
                     Hrun IH];
    intros r w' Hres.
  - injection Hres as _ <-. right. left. split; reflexivity.
  - discriminate Hres.
  - injection Hres as <- _. left. reflexivity.
  - destruct (IH r w' Hres) as [H1 | [[H1 H2] | [H1 H2]]].
    + left. exact H1.
    + right. right. split; [discriminate|].
      rewrite H2. cbn. apply helper_ret_errno. exact Hr.
    + right. right. split; [discriminate|exact H2].
Qed.

Lemma read_run_errno (fd : Z) count total (w : world L) reqs frames res :
  read_run fd count total w reqs frames res ->
  forall r w', res = Done r w' ->
    r = -1 \/ (frames = [] /\ w' = w)
    \/ (frames <> [] /\ h_errno (w_host w') = 0).
Proof.
  induction 1 as [total w | count total w Hc Hlen req
                 | count total w F0 rest Hc Hin HF Hr req
                 | count total w F0 rest Hc Hin HF Hr req
                 | count total w F0 rest reqs frames res Hc Hin HF Hr Hz req
                     Hrun IH];
    intros r w' Hres.
  - injection Hres as _ <-. right. left. split; reflexivity.
  - discriminate Hres.
  - injection Hres as <- _. left. reflexivity.
  - injection Hres as _ <-. right. right. split; [discriminate|].
    cbn. apply helper_ret_zero_errno. exact Hr.
  - destruct (IH r w' Hres) as [H1 | [[H1 H2] | [H1 H2]]].
    + left. exact H1.
    + right. right. split; [discriminate|].
      rewrite H2. cbn. apply helper_ret_errno. exact Hr.
    + right. right. split; [discriminate|exact H2].
Qed.

End RunFacts.

(** ** The chunked calls on a remote descriptor *)

Section Chunked.

Context {L : Type}.
Variable orig_read : Z -> Z -> host L -> Z * host L.
Variable orig_write : Z -> list byte -> Z -> host L -> Z * host L.

Lemma read_remote_run (fd count : Z) (w : world L) :
  Client.FD_OFFSET <= fd -> is_size_t count ->
  exists reqs frames,
    read_run (fd - Client.FD_OFFSET) count 0 w reqs frames
      (Client.read orig_read fd count w)
    /\ sent_during w (final (Client.read orig_read fd count w)) = reqs
    /\ rcvd_during w (final (Client.read orig_read fd count w)) = frames.
Proof.
  intros Hfd Hs. unfold Client.read.
  replace (fd <? Client.FD_OFFSET) with false
    by (symmetry; apply Z.ltb_ge; exact Hfd).
  destruct (read_loop_run (fd - Client.FD_OFFSET) (S (length (w_inbox w)))
              count 0 w Hs (Nat.lt_succ_diag_r _)) as [reqs [frames Hrun]].
  exists reqs, frames. split; [exact Hrun|].
  destruct (read_run_logs _ _ _ _ _ _ _ Hrun) as [Hs' Hr'].
  unfold sent_during, rcvd_during. rewrite Hs', Hr', !skipn_length_app.
  split; reflexivity.
Qed.

Lemma write_remote_run (fd : Z) (buf : list byte) (count : Z) (w : world L) :
  Client.FD_OFFSET <= fd ->
  exists reqs frames,
    write_run (fd - Client.FD_OFFSET) buf count 0 w reqs frames
      (Client.write orig_write fd buf count w)
    /\ sent_during w (final (Client.write orig_write fd buf count w)) = reqs
    /\ rcvd_during w (final (Client.write orig_write fd buf count w))
       = frames.
Proof.
  intros Hfd. unfold Client.write.
  replace (fd <? Client.FD_OFFSET) with false
    by (symmetry; apply Z.ltb_ge; exact Hfd).
  destruct (write_loop_run (fd - Client.FD_OFFSET) buf
              (S (length (w_inbox w))) count 0 w (Nat.lt_succ_diag_r _))
    as [reqs [frames Hrun]].
  exists reqs, frames. split; [exact Hrun|].
  destruct (write_run_logs _ _ _ _ _ _ _ _ Hrun) as [Hs' Hr'].
  unfold sent_during, rcvd_during. rewrite Hs', Hr', !skipn_length_app.
  split; reflexivity.
Qed.

(** C2.  A call of [read] or [write] on a remote descriptor that receives
    an error-indicating sub-frame [F] (bytes value [-1], error number not
    0) aborts at it: the call returns [-1], [F] is the first
    error-indicating sub-frame and the last sub-frame received, the error
    number of [F] is in [errno], and the requests sent are those up to the
    one [F] answers. *)
Theorem chunked_call_aborts_at_error_frame (c : chunked_call) (fd count : Z)
  (w : world L) (pre : list (list byte)) (F : list byte)
  (post : list (list byte)) :
  Client.FD_OFFSET <= fd ->
  is_size_t count ->
  rcvd_during w (final (chunked orig_read orig_write c fd count w))
  = pre ++ F :: post ->
  error_frame F ->
  aborted_at (chunked orig_read orig_write c fd count w)
    (sent_during w (final (chunked orig_read orig_write c fd count w)))
    pre F post.
Proof.
  intros Hfd Hs Hsplit Herr. destruct c as [|buf]; cbn [chunked] in *.
  - destruct (read_remote_run fd count w Hfd Hs)
      as [reqs [frames [Hrun [Hsent Hrcvd]]]].
    rewrite Hsent. rewrite Hrcvd in Hsplit.
    exact (read_run_error_frame _ _ _ _ _ _ _ Hrun pre F post Hsplit Herr).
  - destruct (write_remote_run fd buf count w Hfd)
      as [reqs [frames [Hrun [Hsent Hrcvd]]]].
    rewrite Hsent. rewrite Hrcvd in Hsplit.
    exact (write_run_error_frame _ _ _ _ _ _ _ _ Hrun pre F post Hsplit Herr).
Qed.

End Chunked.

(** ** The value [write] returns *)

Section WriteResult.

Context {L : Type}.
Variable orig_write : Z -> list byte -> Z -> host L -> Z * host L.

Lemma write_run_result (fd : Z) (buf : list byte) count total (w : world L)
  reqs frames res :
  write_run fd buf count total w reqs frames res ->
  forall r w', res = Done r w' ->
    r = if existsb aborting frames then -1
        else if accumulated total frames =? 0 then -1
             else accumulated total frames.
Proof.
  induction 1 as [total w | count total w Hc Hlen req
                 | count total w F0 rest Hc Hin HF Hr req
                 | count total w F0 rest reqs frames res Hc Hin HF Hr req
                     Hrun IH];
    intros r w' Hres.
  - injection Hres as <- _. reflexivity.
  - discriminate Hres.
  - injection Hres as <- _. cbn [existsb]. unfold aborting.
    rewrite Hr. reflexivity.
  - rewrite (IH r w' Hres). cbn [existsb accumulated fold_left].
    unfold aborting at 2.
    rewrite (proj2 (Z.eqb_neq _ _) Hr). cbn [orb].
    destruct (helper_ret_errno F0 Hr) as [_ ->]. reflexivity.
Qed.

(** C8 (amended).  A call of [write] on a remote descriptor that returns
    after a reply that made the helper return [-1] returns [-1], whatever
    it had accumulated; a call that returns with no such reply returns the
    accumulated bytes-written count, and [-1] in its place when that count
    is 0.  With [count = 0] no frame is exchanged and [-1] is returned. *)
Theorem write_returns_accumulated_count (fd : Z) (buf : list byte)
  (count : Z) (w : world L) (r : Z) (w' : world L) :
  Client.FD_OFFSET <= fd ->
  Client.write orig_write fd buf count w = Done r w' ->
  r = write_result (rcvd_during w w')
  /\ Client.write orig_write fd buf 0 w = Done (-1) w.
Proof.
  intros Hfd Hres. split.
  - destruct (write_remote_run orig_write fd buf count w Hfd)
      as [reqs [frames [Hrun [_ Hrcvd]]]].
    rewrite Hres in Hrun, Hrcvd. cbn [final] in Hrcvd. rewrite Hrcvd.
    exact (write_run_result _ _ _ _ _ _ _ _ Hrun r w' eq_refl).
  - unfold Client.write.
    replace (fd <? Client.FD_OFFSET) with false
      by (symmetry; apply Z.ltb_ge; exact Hfd).
    reflexivity.
Qed.

End WriteResult.

(** C8, as stated, fails.  [write] of 5000 bytes whose first sub-frame is
    answered with 4084 bytes written and whose second sub-frame is
    answered with [-1] and the error number 28 returns [-1], although the
    accumulated count is 4084 and not 0. *)
Lemma write_abort_drops_accumulated_count :
  exists w',
    Client.write (fun _ _ _ => const_local 0) 5003
      (repeat Byte.x41 5000) 5000
      (fresh (Host 0 tt) (reply 4084 0 ++ reply (-1) 28))
    = Done (-1) w'
    /\ rcvd_during (fresh (Host 0 tt) (reply 4084 0 ++ reply (-1) 28)) w'
       = [reply 4084 0; reply (-1) 28]
    /\ accumulated 0 [reply 4084 0] = 4084
    /\ 4084 <> 0 /\ -1 <> 4084.
Proof.
  eexists. split; [vm_compute; reflexivity|].
  split; [vm_compute; reflexivity|].
  split; [vm_compute; reflexivity|].
  split; lia.
Qed.

(** ** Termination of the loop of [write] *)

Section WriteTermination.

Context {L : Type}.
Variable orig_write : Z -> list byte -> Z -> host L -> Z * host L.

Lemma request_count_write (fd : Z) (buf : list byte) (chunk : Z) :
  0 <= chunk <= 4084 ->
  request_count (write_request fd buf chunk) = chunk.
Proof.
  intros H. unfold request_count, write_request.
  rewrite app_assoc.
  replace 8%nat with (length (store4 2 ++ store4 fd))
    by (rewrite length_app, !length_store4; reflexivity).
  rewrite skipn_length_app, load_int_store4.
  apply to_int_id. unfold is_int, INT_MIN, INT_MAX. lia.
Qed.

Lemma to_size_t_id (z : Z) : is_size_t z -> to_size_t z = z.
Proof. unfold is_size_t, to_size_t. intros H. apply Z.mod_small. exact H. Qed.

(** A reply that fits makes the pass abort or lowers the count. *)
Lemma fitting_reply_progress (fd : Z) (buf : list byte) (count : Z)
  (F : list byte) :
  is_size_t count -> count <> 0 ->
  fits (write_request fd buf (write_chunk count)) F ->
  helper_ret F = -1
  \/ (0 < helper_ret F <= count
      /\ to_size_t (count - helper_ret F) = count - helper_ret F).
Proof.
  intros Hs Hc Hfit.
  destruct (write_chunk_range count Hs Hc) as [Hr Hle].
  unfold fits in Hfit. rewrite request_count_write in Hfit by lia.
  unfold helper_ret.
  destruct (Z.eqb_spec (frame_errno F) 0) as [He|He]; [|left; reflexivity].
  right. destruct Hfit as [Hfit|Hfit]; [contradiction|].
  split; [lia|]. apply to_size_t_id. unfold is_size_t in *. lia.
Qed.

Lemma write_run_terminates (fd : Z) (buf : list byte) count total
  (w : world L) reqs frames res :
  write_run fd buf count total w reqs frames res ->
  is_size_t count ->
  Forall (fun x => fits (fst x) (snd x)) (combine reqs frames) ->
  Z.of_nat (length frames) <= count
  /\ (8 * count <= Z.of_nat (length (w_inbox w)) ->
      exists r w', res = Done r w').
Proof.
  induction 1 as [total w | count total w Hc Hlen req
                 | count total w F0 rest Hc Hin HF Hr req
                 | count total w F0 rest reqs frames res Hc Hin HF Hr req
                     Hrun IH];
    intros Hs Hfits.
  - split; [cbn; lia|]. intros _. eexists. eexists. reflexivity.
  - unfold is_size_t in Hs. split; [cbn; lia|]. intros Hlong. lia.
  - unfold is_size_t in Hs. split; [cbn; lia|].
    intros _. eexists. eexists. reflexivity.
  - cbn [combine] in Hfits. apply Forall_cons_iff in Hfits.
    destruct Hfits as [Hfit Hfits]. cbn [fst snd] in Hfit.
    destruct (fitting_reply_progress _ _ count F0 Hs Hc Hfit)
      as [Hm|[Hpos Hid]]; [contradiction|].
    rewrite Hid in IH.
    destruct IH as [IHlen IHdone]; [unfold is_size_t in *; lia|exact Hfits|].
    split; [cbn [length]; lia|].
    intros Hlong. apply IHdone.
    cbn [exchanged w_inbox]. rewrite Hin, length_app in Hlong. lia.
Qed.

(** C9 (amended).  In a call of [write] on a remote descriptor with
    [count > 0], a pass of the loop whose reply carries a non-zero error
    number, or a positive bytes-written value that is at most the count
    asked for in its request, returns [-1] or goes round with a strictly
    smaller count; a pass whose reply carries zero bytes written and the
    error number 0 goes round with the count and the total it had.  When
    every reply fits its request in that way the loop makes at most
    [count] passes, and it returns once the stream holds [count] replies. *)
Theorem write_loop_terminates (fd : Z) (buf : list byte) (count : Z)
  (w : world L) :
  Client.FD_OFFSET <= fd ->
  is_size_t count -> 0 < count ->
  (forall total F rest,
      w_inbox w = F ++ rest -> length F = 8%nat ->
      let req := write_request (fd - Client.FD_OFFSET)
                   (skipn (Z.to_nat total) buf) (write_chunk count) in
      let pass := Client.write_step (fd - Client.FD_OFFSET) buf count total w in
      (fits req F ->
       pass = Done Client.WAbort (exchanged w req F rest)
       \/ exists count' total',
           pass = Done (Client.WNext count' total') (exchanged w req F rest)
           /\ 0 <= count' < count)
      /\ (frame_val F = 0 -> frame_errno F = 0 ->
          pass = Done (Client.WNext count (to_int total))
                      (exchanged w req F rest)))
  /\ (let res := Client.write orig_write fd buf count w in
      Forall (fun x => fits (fst x) (snd x))
        (combine (sent_during w (final res)) (rcvd_during w (final res))) ->
      Z.of_nat (length (rcvd_during w (final res))) <= count
      /\ (8 * count <= Z.of_nat (length (w_inbox w)) ->
          exists r w', res = Done r w')).
Proof.
  intros Hfd Hs Hpos. split.
  - intros total F rest Hin HF req pass. subst req pass.
    rewrite (write_step_exchange _ _ _ _ w F rest Hin HF).
    split.
    + intros Hfit.
      destruct (fitting_reply_progress _ _ count F Hs (Z.neq_sym _ _ (Z.lt_neq _ _ Hpos)) Hfit)
        as [Hm|[Hr Hid]].
      * left. rewrite Hm. reflexivity.
      * right. rewrite Hid.
        replace (helper_ret F =? -1) with false
          by (symmetry; apply Z.eqb_neq; lia).
        eexists. eexists. split; [reflexivity|lia].
    + intros Hv He.
      assert (Hz : helper_ret F = 0)
        by (unfold helper_ret; rewrite He; exact Hv).
      rewrite Hz. cbn [Z.eqb].
      rewrite Z.sub_0_r, Z.add_0_r, (to_size_t_id count Hs). reflexivity.
  - intros res Hfits. subst res.
    destruct (write_remote_run orig_write fd buf count w Hfd)
      as [reqs [frames [Hrun [Hsent Hrcvd]]]].
    rewrite Hsent, Hrcvd in Hfits. rewrite Hrcvd.
    exact (write_run_terminates _ _ _ _ _ _ _ _ Hrun Hs Hfits).
Qed.

End WriteTermination.

(** C9, as stated, fails.  With [count = 1] and a reply that carries two
    bytes written and the error number 0, the precondition of the claim
    holds, and the pass neither returns [-1] nor lowers the count: it goes
    round with the count [2^64 - 1].  After three such replies the call is
    still in its loop. *)
Lemma write_overlong_reply_raises_count :
  (frame_errno (reply 2 0) <> 0 \/ 0 < frame_val (reply 2 0))
  /\ Client.write_step 3 [Byte.x41] 1 0 (fresh (Host 0 tt) (reply 2 0))
     = Done (Client.WNext (2 ^ 64 - 1) 2)
            (exchanged (fresh (Host 0 tt) (reply 2 0))
               (write_request 3 [Byte.x41] 1) (reply 2 0) [])
  /\ ~ (2 ^ 64 - 1 < 1)
  /\ exists w',
       Client.write (fun _ _ _ => const_local 0) 5003 [Byte.x41] 1
         (fresh (Host 0 tt) (reply 2 0 ++ reply 2 0 ++ reply 2 0))
       = Blocked w'
       /\ w_rcvd w' = [reply 2 0; reply 2 0; reply 2 0]
       /\ w_inbox w' = [].
Proof.
  split; [right; vm_compute; reflexivity|].
  split; [vm_compute; reflexivity|].
  split; [lia|].
  eexists. split; [vm_compute; reflexivity|].
  split; reflexivity.
Qed.

Section Overlong.

Context {L : Type}.

Lemma odd_to_size_t (z : Z) : Z.odd (to_size_t z) = Z.odd z.
Proof.
  unfold to_size_t. rewrite Z.mod_eq by lia.
  replace (z - 2 ^ 64 * (z / 2 ^ 64)) with (z + 2 * (- 2 ^ 63 * (z / 2 ^ 64)))
    by (change (2 ^ 64) with (2 * 2 ^ 63); lia).
  apply Z.odd_add_mul_2.
Qed.

(** However many replies of two bytes written arrive, a [write] of one
    byte does not return. *)
Lemma write_loop_overlong_replies (fd : Z) (buf : list byte) (n : nat) :
  forall fuel count total (w : world L),
    Z.odd count = true ->
    w_inbox w = concat (repeat (reply 2 0) n) ->
    (length (w_inbox w) < fuel)%nat ->
    exists w', Client.write_loop fuel fd buf count total w = Blocked w'.
Proof.
  induction n as [|n IH]; intros fuel count total w Hodd Hin Hfuel;
    (destruct fuel as [|fuel]; [lia|]); cbn [Client.write_loop];
    (destruct (Z.eqb_spec count 0) as [->|Hc]; [discriminate Hodd|]);
    unfold bind.
  - rewrite write_step_wait by (rewrite Hin; cbn; lia).
    eexists. reflexivity.
  - cbn [repeat concat] in Hin.
    rewrite (write_step_exchange _ _ _ _ w _ _ Hin (length_reply 2 0)).
    change (helper_ret (reply 2 0)) with 2. cbn [Z.eqb].
    apply IH.
    + rewrite odd_to_size_t.
      replace (count - 2) with (count + 2 * (-1)) by lia.
      rewrite Z.odd_add_mul_2. exact Hodd.
    + reflexivity.
    + cbn [exchanged w_inbox]. rewrite Hin, length_app, length_reply in Hfuel.
      lia.
Qed.

End Overlong.

(** ** The boundary of one sub-frame *)

Section Boundary.

Context {L : Type}.
Variable orig_write : Z -> list byte -> Z -> host L -> Z * host L.

Lemma helper_ret_reply_ok (v : Z) :
  is_int v -> helper_ret (reply v 0) = v.
Proof.
  intros Hv. unfold helper_ret.
  rewrite <- (app_nil_r (reply v 0)).
  rewrite frame_errno_reply, frame_val_reply.
  rewrite (to_int_id v Hv). reflexivity.
Qed.

Lemma write_loop_pass (fuel : nat) (fd : Z) (buf : list byte)
  (count total : Z) (w : world L) (F rest : list byte) :
  count <> 0 -> w_inbox w = F ++ rest -> length F = 8%nat ->
  Client.write_loop (S fuel) fd buf count total w
  = let w' := exchanged w (write_request fd (skipn (Z.to_nat total) buf)
                             (write_chunk count)) F rest in
    if helper_ret F =? -1 then Done (-1) w'
    else Client.write_loop fuel fd buf (to_size_t (count - helper_ret F))
           (to_int (total + helper_ret F)) w'.
Proof.
  intros Hc Hin HF. cbn [Client.write_loop].
  rewrite (proj2 (Z.eqb_neq _ _) Hc). unfold bind.
  rewrite (write_step_exchange _ _ _ _ w F rest Hin HF).
  cbv zeta. destruct (helper_ret F =? -1); reflexivity.
Qed.

Lemma write_loop_done (fuel : nat) (fd : Z) (buf : list byte) (total : Z)
  (w : world L) :
  Client.write_loop (S fuel) fd buf 0 total w
  = Done (if total =? 0 then -1 else total) w.
Proof. reflexivity. Qed.

(** C7.  A remote [write] of 4084 bytes whose sub-frame is answered with
    4084 bytes written returns 4084 after one request, which carries the
    whole payload; a remote [write] of 4085 bytes whose sub-frames are
    answered with 4084 and 1 bytes written returns 4085 after two
    requests, which carry the first 4084 bytes and the last byte. *)
Theorem write_boundary_subframes (fd : Z) (buf1 buf2 rest1 rest2 : list byte)
  (w1 w2 : world L) :
  Client.FD_OFFSET <= fd ->
  length buf1 = 4084%nat ->
  w_inbox w1 = reply 4084 0 ++ rest1 ->
  length buf2 = 4085%nat ->
  w_inbox w2 = reply 4084 0 ++ reply 1 0 ++ rest2 ->
  (exists w',
      Client.write orig_write fd buf1 4084 w1 = Done 4084 w'
      /\ sent_during w1 w'
         = [store4 2 ++ store4 (fd - 5000) ++ store4 4084 ++ buf1]
      /\ rcvd_during w1 w' = [reply 4084 0])
  /\ (exists w',
        Client.write orig_write fd buf2 4085 w2 = Done 4085 w'
        /\ sent_during w2 w'
           = [store4 2 ++ store4 (fd - 5000) ++ store4 4084
                ++ firstn 4084 buf2;
              store4 2 ++ store4 (fd - 5000) ++ store4 1
                ++ skipn 4084 buf2]
        /\ rcvd_during w2 w' = [reply 4084 0; reply 1 0]).
Proof.
  intros Hfd Hb1 Hin1 Hb2 Hin2.
  assert (H4084 : helper_ret (reply 4084 0) = 4084)
    by (apply helper_ret_reply_ok; unfold is_int, INT_MIN, INT_MAX; lia).
  assert (H1 : helper_ret (reply 1 0) = 1)
    by (apply helper_ret_reply_ok; unfold is_int, INT_MIN, INT_MAX; lia).
  unfold Client.write.
  replace (fd <? Client.FD_OFFSET) with false
    by (symmetry; apply Z.ltb_ge; exact Hfd).
  change Client.FD_OFFSET with 5000.
  cbv beta iota zeta.
  split.
  - assert (Hn : exists k, length (w_inbox w1) = S k)
      by (rewrite Hin1, length_app, length_reply; eexists; reflexivity).
    destruct Hn as [k ->].
    rewrite (write_loop_pass _ (fd - 5000) buf1 4084 0 w1 _ _
               ltac:(lia) Hin1 (length_reply 4084 0)).
    cbv zeta. rewrite H4084.
    change (4084 =? -1) with false. cbv iota.
    change (to_size_t (4084 - 4084)) with 0.
    change (to_int (0 + 4084)) with 4084.
    rewrite write_loop_done.
    change (4084 =? 0) with false. cbv iota.
    eexists. split; [reflexivity|].
    unfold sent_during, rcvd_during, exchanged, write_request.
    cbn [w_sent w_rcvd]. rewrite !skipn_length_app.
    change (write_chunk 4084) with 4084.
    change (Z.to_nat 0) with 0%nat. cbn [skipn].
    rewrite firstn_all2 by lia.
    split; reflexivity.
  - assert (Hn : exists k, length (w_inbox w2) = S (S k))
      by (rewrite Hin2, !length_app, !length_reply; eexists; reflexivity).
    destruct Hn as [k ->].
    rewrite (write_loop_pass _ (fd - 5000) buf2 4085 0 w2 _ _
               ltac:(lia) Hin2 (length_reply 4084 0)).
    cbv zeta. rewrite H4084.
    change (4084 =? -1) with false. cbv iota.
    change (to_size_t (4085 - 4084)) with 1.
    change (to_int (0 + 4084)) with 4084.
    erewrite write_loop_pass;
      [ | lia | cbn [exchanged w_inbox]; reflexivity | apply length_reply ].
    cbv zeta. rewrite H1.
    change (1 =? -1) with false. cbv iota.
    change (to_size_t (1 - 1)) with 0.
    change (to_int (4084 + 1)) with 4085.
    rewrite write_loop_done.
    change (4085 =? 0) with false. cbv iota.
    eexists. split; [reflexivity|].
    unfold sent_during, rcvd_during, exchanged, write_request.
    cbn [w_sent w_rcvd]. rewrite <- !app_assoc, !skipn_length_app.
    change (write_chunk 4085) with 4084. change (write_chunk 1) with 1.
    change (Z.to_nat 0) with 0%nat. cbn [skipn].
    replace (firstn (Z.to_nat 1) (skipn (Z.to_nat 4084) buf2))
      with (skipn 4084 buf2).
    2: { symmetry. apply firstn_all2. rewrite length_skipn. lia. }
    split; reflexivity.
Qed.

End Boundary.

(** ** The value returned and the error number stored *)

Section ErrnoDiscipline.

Context {L : Type}.
Variable lib : locals L.

Lemma receiveResponse_logs (n : Z) (w : world L) (d : list byte)
  (w' : world L) :
  Client.receiveResponse n w = Done d w' ->
  w_host w' = w_host w
  /\ exists extra, w_rcvd w' = w_rcvd w ++ extra.
Proof.
  unfold Client.receiveResponse.
  destruct (n =? 0).
  - intros H. injection H as _ <-. split; [reflexivity|].
    exists []. rewrite app_nil_r. reflexivity.
  - destruct (n <=? Z.of_nat (length (w_inbox w))); [|discriminate].
    intros H. injection H as _ <-. split; [reflexivity|].
    eexists. reflexivity.
Qed.

(** An entry point that sends one request and waits for a header of [n]
    bytes: the header is there, or the call does not return. *)
Lemma header_cases (n : nat) (w : world L) :
  (exists F rest, w_inbox w = F ++ rest /\ length F = n)
  \/ Z.of_nat (length (w_inbox w)) < Z.of_nat n.
Proof.
  destruct (Nat.lt_ge_cases (length (w_inbox w)) n) as [Hs|Hl].
  - right. lia.
  - left. destruct (inbox_split n (w_inbox w) Hl) as [Hin HF].
    eexists. eexists. split; eassumption.
Qed.

Ltac single_exchange w n :=
  unfold bind; rewrite sendRequest_store4;
  destruct (header_cases n w) as [[F [rest [Hin HF]]]|Hshort];
  [ erewrite receiveResponse_frame; [ | exact Hin | rewrite HF; reflexivity | lia ]
  | rewrite receiveResponse_short by (cbn [w_inbox] in *; lia);
    intros Hres; discriminate Hres ].

Ltac close_exchange F :=
  unfold set_errno, ret; cbv beta iota;
  cbn [w_host w_sent w_rcvd w_inbox w_copied h_state];
  intros Hres; injection Hres as <- <-;
  exists F; unfold rcvd_during, reply_value, reply_errno, frame_val,
    frame_errno;
  cbn [w_rcvd w_host h_errno];
  rewrite skipn_length_app; repeat split.

(** C4 (amended).  On the remote path, a call of [read] or [write] that
    has stored a non-zero error number returns [-1].  A call of [open],
    [close], [lseek], [stat], [unlink] or [getdirentries] returns the
    value of its reply header ([open] adds 5000 to it unless it is [-1])
    and stores the error number of that header, whatever the two are: the
    value is [-1] with a non-zero error number only when the reply carries
    the two together. *)
Theorem errno_and_return_value (c : call) (w : world L) (r : Z)
  (w' : world L) :
  remote c ->
  run lib c w = Done r w' ->
  errno_discipline c w r w'.
Proof.
  destruct c as [pathname flags mode | fd count | fd buf count | fd
                | fd offset whence | pathname statbuf | pathname
                | fd nbyte basep];
    cbn [remote run errno_discipline]; intros Hrem.
  - unfold Client.open. single_exchange w 8%nat. close_exchange F.
    destruct (Z.eqb_spec (load_int F) (-1)) as [->|Hne]; reflexivity.
  - destruct Hrem as [Hfd Hs]. intros Hres Hne He.
    destruct (read_remote_run (orig_read lib) fd count w Hfd Hs)
      as [reqs [frames [Hrun [_ Hrcvd]]]].
    rewrite Hres in Hrun, Hrcvd. cbn [final] in Hrcvd.
    destruct (read_run_errno _ _ _ _ _ _ _ Hrun r w' eq_refl)
      as [H|[[H _]|[_ H]]]; [exact H| |contradiction].
    rewrite Hrcvd in Hne. contradiction.
  - intros Hres Hne He.
    destruct (write_remote_run (orig_write lib) fd buf count w Hrem)
      as [reqs [frames [Hrun [_ Hrcvd]]]].
    rewrite Hres in Hrun, Hrcvd. cbn [final] in Hrcvd.
    destruct (write_run_errno _ _ _ _ _ _ _ _ Hrun r w' eq_refl)
      as [H|[[H _]|[_ H]]]; [exact H| |contradiction].
    rewrite Hrcvd in Hne. contradiction.
  - unfold Client.close.
    replace (fd <? Client.FD_OFFSET) with false
      by (symmetry; apply Z.ltb_ge; exact Hrem).
    cbv zeta. single_exchange w 8%nat. close_exchange F.
  - unfold Client.lseek.
    replace (fd <? Client.FD_OFFSET) with false
      by (symmetry; apply Z.ltb_ge; exact Hrem).
    cbv zeta. single_exchange w 12%nat. close_exchange F.
  - unfold Client.stat. single_exchange w 8%nat. close_exchange F.
  - unfold Client.unlink. single_exchange w 8%nat. close_exchange F.
  - unfold Client.getdirentries.
    replace (fd <? Client.FD_OFFSET) with false
      by (symmetry; apply Z.ltb_ge; exact Hrem).
    cbv zeta. single_exchange w 8%nat.
    unfold set_errno, get_errno, ret. cbn [w_host h_errno].
    destruct (load_int (skipn 4 F) =? 0); cbn [negb].
    + match goal with
      | |- context [Client.receiveResponse ?n ?v] =>
          destruct (Client.receiveResponse n v) as [d v'|v'] eqn:Hrecv
      end; [|intros Hres; discriminate Hres].
      destruct (receiveResponse_logs _ _ _ _ Hrecv) as [Hhost [extra Hlog]].
      unfold copy_out. intros Hres. injection Hres as <- <-.
      exists F. unfold rcvd_during. cbn [w_rcvd w_host].
      rewrite Hlog, Hhost. cbn [w_rcvd w_host h_errno].
      rewrite <- app_assoc, skipn_length_app.
      repeat split.
    + intros Hres. injection Hres as <- <-.
      exists F. unfold rcvd_during. cbn [w_rcvd w_host h_errno].
      rewrite skipn_length_app. repeat split.
Qed.

End ErrnoDiscipline.

(** C4, as stated, fails.  [lseek] on a reply that carries the offset 10
    and the error number 2 returns 10 and leaves 2 in [errno]; and
    [getdirentries] on a reply header that carries 24 bytes and the error
    number 2 returns 24 and leaves 2 in [errno]. *)
Lemma value_returned_with_nonzero_errno :
  (exists w',
      run example_locals (CLseek 5003 0 0)
        (fresh (Host 0 tt) (store8 10 ++ store4 2))
      = Done 10 w'
      /\ h_errno (w_host w') = 2 /\ 2 <> 0 /\ 10 <> -1)
  /\ (exists w',
        run example_locals (CGetdirentries 5003 4096 0)
          (fresh (Host 0 tt) (reply 24 2))
        = Done 24 w'
        /\ h_errno (w_host w') = 2 /\ 2 <> 0 /\ 24 <> -1).
Proof.
  split; eexists; (split; [vm_compute; reflexivity|]);
    (split; [reflexivity|]); split; lia.
Qed.

(** ** The reply of the server to [getdirentries] *)

Section GetdirentriesReply.

Context {K : Type}.
Variable sys_getdirentries :
  Z -> Z -> Z -> host K -> (Z * list byte) * host K.
Variable sys_getdirtree : list byte -> host K -> option dirtreenode * host K.
Variable handle_fixed :
  Z -> list byte -> list byte -> host K -> (list byte * Z) * host K.

(** For the opcode 7 the session sends the header and then calls [send]
    once more, with the length the system call returned, whatever the
    error number in the header is. *)
Lemma serve_getdirentries_trace (buf retBuf : list byte) (s : Server.session K) :
  load_int buf = 7 ->
  exists s' bytes,
    Server.serve sys_getdirentries sys_getdirtree handle_fixed buf retBuf s
    = Some s'
    /\ let '((r, _), h) :=
         sys_getdirentries (load_int (skipn 4 buf)) (load_int (skipn 8 buf))
           (load_int64 (skipn 12 buf)) (Server.s_host s) in
       Server.s_host s' = h
       /\ (Server.s_trace s'
           = Server.s_trace s
             ++ [Server.Send 8 (store4 (to_size_t r) ++ store4 (h_errno h));
                 Server.Send (to_size_t r) bytes]
           \/ Server.s_trace s'
              = Server.s_trace s
                ++ [Server.Send 8 (store4 (to_size_t r) ++ store4 (h_errno h));
                    Server.StoreOutside (to_size_t r);
                    Server.Send (to_size_t r) bytes]).
Proof.
  intros Hop. unfold Server.serve. rewrite Hop.
  change ((0 <=? 7) && (7 <=? 6)) with false.
  change (7 =? 7) with true. cbv iota.
  unfold Server.handle_getdirentries.
  rewrite !skipn_skipn. cbn [Nat.add].
  destruct (sys_getdirentries (load_int (skipn 4 buf))
              (load_int (skipn 8 buf)) (load_int64 (skipn 12 buf))
              (Server.s_host s)) as [[r data] h].
  cbn [obind].
  destruct (to_size_t r <? Z.of_nat (length (data ++ skipn (length data) retBuf)));
    eexists; eexists; (split; [reflexivity|]);
    (split; [reflexivity|]);
    unfold Server.send; cbn [Server.s_trace Server.s_host]; rewrite <- !app_assoc;
    [left|right]; reflexivity.
Qed.

End GetdirentriesReply.

(** C5, evaluated.  A session whose [errno] holds 2 from an earlier
    request serves a [getdirentries] that succeeds with 24 bytes: it sends
    the header [24 | 2] and then the 24 data bytes, although the error
    number of the header is not 0.  The shim, on that header, returns 24
    and leaves the 24 data bytes in the stream.  When [getdirentries]
    fails with the error number 9, the session sends the header
    [-1 | 9], stores outside the reply buffer and calls [send] again with
    the length [2^64 - 1]. *)
Theorem server_sends_data_frame_despite_errno :
  Server.serve (getdirentries_ok entries) no_getdirtree no_fixed
    getdirentries_request empty_retBuf (Server.Session (Host 2 tt) [])
  = Some (Server.Session (Host 2 tt)
            [Server.Send 8 (reply 24 2); Server.Send 24 entries])
  /\ frame_errno (reply 24 2) <> 0
  /\ (exists w',
         Client.getdirentries (fun _ _ _ => const_local 0) 5003 4096 0
           (fresh (Host 0 tt) (reply 24 2 ++ entries))
         = Done 24 w'
         /\ w_inbox w' = entries)
  /\ Server.serve (getdirentries_fails 9) no_getdirtree no_fixed
       getdirentries_request empty_retBuf (Server.Session (Host 0 tt) [])
     = Some (Server.Session (Host 9 tt)
               [Server.Send 8 (reply (-1) 9); Server.StoreOutside (2 ^ 64 - 1);
                Server.Send (2 ^ 64 - 1) empty_retBuf]).
Proof.
  split; [vm_compute; reflexivity|].
  split; [vm_compute; discriminate|].
  split; [eexists; split; vm_compute; reflexivity|].
  vm_compute; reflexivity.
Qed.

(** ** The directory tree across the wire *)

(** Induction on a tree with the property at hand for every child. *)
Lemma dirtreenode_forall_ind (P : dirtreenode -> Prop) :
  (forall nm num subs, Forall P subs -> P (Dirtreenode nm num subs)) ->
  forall T, P T.
Proof.
  intros step. fix IH 1. intros [nm num subs]. apply step.
  induction subs as [|c subs IHsubs].
  - constructor.
  - constructor; [apply IH|exact IHsubs].
Qed.

Section Memory.

Lemma strlen_app_nul (s rest : list byte) :
  ~ In NUL s -> strlen (s ++ NUL :: rest) = Some (Z.of_nat (length s)).
Proof.
  induction s as [|b s IH]; intros Hnul.
  - reflexivity.
  - cbn [app strlen length].
    destruct (Byte.eqb b NUL) eqn:Hb.
    + contradiction Hnul. left. symmetry. apply Byte.byte_dec_bl. exact Hb.
    + rewrite IH by (intros H; apply Hnul; right; exact H).
      f_equal. lia.
Qed.

Lemma memcpy_to_hole (pre old post src : list byte) :
  length old = length src ->
  memcpy_to (pre ++ old ++ post) (Z.of_nat (length pre)) src
  = Some (pre ++ src ++ post).
Proof.
  intros Hlen. unfold memcpy_to.
  rewrite !length_app.
  replace ((0 <=? Z.of_nat (length pre))
           && (Z.of_nat (length pre) + Z.of_nat (length src)
               <=? Z.of_nat (length pre + (length old + length post))))
    with true.
  2: { symmetry. apply andb_true_intro. split; [apply Z.leb_le|apply Z.leb_le]; lia. }
  rewrite Nat2Z.id.
  rewrite firstn_app, Nat.sub_diag, firstn_O, app_nil_r, firstn_all.
  rewrite skipn_app.
  rewrite skipn_all2 by lia.
  replace (length pre + length src - length pre)%nat with (length old) by lia.
  rewrite skipn_app, Nat.sub_diag, skipn_all.
  reflexivity.
Qed.

Lemma memcpy_from_mid (pre mid post : list byte) :
  memcpy_from (pre ++ mid ++ post) (Z.of_nat (length pre))
    (Z.of_nat (length mid))
  = Some mid.
Proof.
  unfold memcpy_from. rewrite !length_app.
  replace ((0 <=? Z.of_nat (length pre)) && (0 <=? Z.of_nat (length mid))
           && (Z.of_nat (length pre) + Z.of_nat (length mid)
               <=? Z.of_nat (length pre + (length mid + length post))))
    with true.
  2: { symmetry. rewrite !andb_true_iff. repeat split; apply Z.leb_le; lia. }
  rewrite !Nat2Z.id.
  rewrite skipn_app, Nat.sub_diag, skipn_all.
  cbn [skipn app].
  rewrite firstn_app, Nat.sub_diag, firstn_O, app_nil_r, firstn_all.
  reflexivity.
Qed.

Lemma mem_from_app (pre rest : list byte) :
  mem_from (pre ++ rest) (Z.of_nat (length pre)) = Some rest.
Proof.
  unfold mem_from. rewrite length_app.
  replace ((0 <=? Z.of_nat (length pre))
           && (Z.of_nat (length pre)
               <=? Z.of_nat (length pre + length rest)))
    with true.
  2: { symmetry. rewrite andb_true_iff. split; apply Z.leb_le; lia. }
  rewrite Nat2Z.id, skipn_app, Nat.sub_diag, skipn_all.
  reflexivity.
Qed.

(** A buffer with room for [n] bytes after [pre] has a hole of [n] bytes. *)
Lemma hole_split (n : nat) (hole : list byte) :
  (n <= length hole)%nat ->
  exists h t, hole = h ++ t /\ length h = n.
Proof.
  intros H. exists (firstn n hole), (skipn n hole).
  split; [symmetry; apply firstn_skipn|apply firstn_length_le; exact H].
Qed.

End Memory.

Section Serialize.

Lemma to_int_of_nat (n : nat) :
  Z.of_nat n <= INT_MAX -> to_int (Z.of_nat n) = Z.of_nat n.
Proof.
  intros H. apply to_int_id. unfold is_int, INT_MIN, INT_MAX in *. lia.
Qed.

Lemma length_tree_bytes (T : dirtreenode) :
  (5 <= length (tree_bytes T))%nat.
Proof.
  destruct T as [nm num subs]. cbn [tree_bytes].
  rewrite !length_app, length_store4. cbn [length]. lia.
Qed.

Lemma length_subdirs_bytes (subs : list dirtreenode) :
  (length subs <= length (concat (map tree_bytes subs)))%nat.
Proof.
  induction subs as [|c subs IH]; cbn [map concat length]; [lia|].
  rewrite length_app. pose proof (length_tree_bytes c). lia.
Qed.

Lemma serialize_subdirs_hole (num : Z) (subs : list dirtreenode) :
  Forall fills_hole subs ->
  forall i pre hole post,
    0 <= i -> num = i + Z.of_nat (length subs) -> num <= INT_MAX ->
    length hole = length (concat (map tree_bytes subs)) ->
    Z.of_nat (length (pre ++ hole ++ post)) <= INT_MAX ->
    Server.serialize_subdirs Server.serialize_node num subs i
      (pre ++ hole ++ post) (Z.of_nat (length pre))
    = Some (pre ++ concat (map tree_bytes subs) ++ post,
            Z.of_nat (length pre)
            + Z.of_nat (length (concat (map tree_bytes subs)))).
Proof.
  induction 1 as [|c subs Hc Hsubs IH];
    intros i pre hole post Hi Hnum Hmax Hhole Hlen.
  - cbn [Server.serialize_subdirs length map concat] in *.
    replace (i <? num) with false by (symmetry; apply Z.ltb_ge; lia).
    destruct hole; [|discriminate Hhole].
    cbn [app length]. rewrite Z.add_0_r. reflexivity.
  - cbn [Server.serialize_subdirs length map concat] in *.
    replace (i <? num) with true by (symmetry; apply Z.ltb_lt; lia).
    rewrite length_app in Hhole.
    destruct (hole_split (length (tree_bytes c)) hole) as [h [t [-> Hh]]];
      [lia|].
    rewrite length_app in Hhole.
    rewrite <- (app_assoc h t post).
    rewrite (Hc pre h (t ++ post) Hh)
      by (rewrite <- (app_assoc h t post) in Hlen; exact Hlen).
    cbn [obind].
    rewrite <- Nat2Z.inj_add, <- length_app.
    rewrite (app_assoc pre (tree_bytes c) (t ++ post)).
    rewrite to_int_id by (unfold is_int, INT_MIN, INT_MAX in *; lia).
    rewrite (IH (i + 1) (pre ++ tree_bytes c) t post); try lia.
    + rewrite <- !app_assoc, !length_app. f_equal. f_equal. lia.
    + rewrite !length_app in *. lia.
Qed.

Lemma serialize_node_hole (T : dirtreenode) :
  well_formed T -> fills_hole T.
Proof.
  induction T as [nm num subs IH] using dirtreenode_forall_ind.
  intros Hwf. inversion Hwf as [nm' num' subs' Hne Hnul Hnum0 Hnum Hsubs];
    subst nm' num' subs'.
  assert (IH' : Forall fills_hole subs).
  { apply Forall_forall. intros c Hc.
    rewrite Forall_forall in IH, Hsubs. apply IH; [exact Hc|].
    apply Hsubs. exact Hc. }
  intros pre hole post Hhole Hlen.
  cbn [tree_bytes] in *. rewrite !length_app, length_store4 in Hhole.
  cbn [length] in Hhole.
  pose proof (length_subdirs_bytes subs) as Hsubs_len.
  destruct (hole_split (length nm) hole) as [h1 [t1 [-> H1]]]; [lia|].
  rewrite length_app in Hhole.
  destruct (hole_split 1 t1) as [h2 [t2 [-> H2]]]; [lia|].
  rewrite length_app in Hhole.
  destruct (hole_split 4 t2) as [h3 [h4 [-> H3]]]; [lia|].
  rewrite length_app in Hhole.
  rewrite !length_app in Hlen.
  cbn [Server.serialize_node].
  unfold cstring at 1. rewrite (strlen_app_nul nm [] Hnul). cbn [obind].
  rewrite to_int_of_nat by lia.
  change (memcpy_from (cstring nm) 0 (Z.of_nat (length nm)))
    with (memcpy_from ([] ++ nm ++ [NUL]) (Z.of_nat (length (@nil byte)))
            (Z.of_nat (length nm))).
  rewrite memcpy_from_mid. cbn [obind].
  rewrite <- !app_assoc.
  rewrite (memcpy_to_hole pre h1 _ nm H1). cbn [obind].
  rewrite <- Nat2Z.inj_add, <- length_app.
  rewrite (app_assoc pre nm).
  rewrite (memcpy_to_hole (pre ++ nm) h2 _ [NUL] H2). cbn [obind].
  replace (Z.of_nat (length pre) + (Z.of_nat (length nm) + 1))
    with (Z.of_nat (length ((pre ++ nm) ++ [NUL])))
    by (rewrite !length_app; cbn [length]; lia).
  rewrite to_int_of_nat by (rewrite !length_app; cbn [length]; lia).
  rewrite (app_assoc (pre ++ nm) [NUL]).
  rewrite (memcpy_to_hole ((pre ++ nm) ++ [NUL]) h3 _ (store4 num))
    by (rewrite length_store4; exact H3).
  cbn [obind].
  replace (Z.of_nat (length ((pre ++ nm) ++ [NUL])) + 4)
    with (Z.of_nat (length (((pre ++ nm) ++ [NUL]) ++ store4 num)))
    by (rewrite !length_app, length_store4; cbn [length]; lia).
  rewrite to_int_of_nat
    by (rewrite !length_app, length_store4; cbn [length]; lia).
  rewrite (app_assoc ((pre ++ nm) ++ [NUL]) (store4 num)).
  rewrite (serialize_subdirs_hole num subs IH' 0
             ((((pre ++ nm) ++ [NUL]) ++ store4 num)) h4 post);
    try lia.
  - rewrite <- !app_assoc. rewrite !length_app, length_store4.
    cbn [length app]. f_equal. f_equal. lia.
  - rewrite !length_app, length_store4. cbn [length]. lia.
Qed.

End Serialize.

Section Deserialize.

Lemma load_int_store4_only (v : Z) : load_int (store4 v) = to_int v.
Proof.
  rewrite <- (app_nil_r (store4 v)). apply load_int_store4.
Qed.

Lemma length_child_bytes (c : dirtreenode) (subs : list dirtreenode) :
  In c subs ->
  (length (tree_bytes c) <= length (concat (map tree_bytes subs)))%nat.
Proof.
  induction subs as [|d subs IH]; intros Hin; [contradiction Hin|].
  cbn [map concat]. rewrite length_app.
  destruct Hin as [->|Hin]; [lia|]. specialize (IH Hin). lia.
Qed.

Lemma deserialize_subdirs_bytes (fuel : nat) (subs : list dirtreenode) :
  Forall (reads_back fuel) subs ->
  forall pre post,
    Z.of_nat (length (pre ++ concat (map tree_bytes subs))) <= INT_MAX ->
    Client.deserialize_subdirs (Client.deserialize_dirtree fuel)
      (pre ++ concat (map tree_bytes subs) ++ post) (length subs)
      (Z.of_nat (length pre))
    = Some (subs, Z.of_nat (length pre)
                  + Z.of_nat (length (concat (map tree_bytes subs)))).
Proof.
  induction 1 as [|c subs Hc Hsubs IH]; intros pre post Hlen.
  - cbn. rewrite Z.add_0_r. reflexivity.
  - cbn [map concat length Client.deserialize_subdirs] in *.
    rewrite <- app_assoc.
    rewrite (Hc pre (concat (map tree_bytes subs) ++ post))
      by (rewrite !length_app in *; lia).
    cbn [obind].
    rewrite <- Nat2Z.inj_add, <- length_app.
    rewrite (app_assoc pre (tree_bytes c)).
    rewrite (IH (pre ++ tree_bytes c) post)
      by (rewrite <- app_assoc; exact Hlen).
    cbn [obind]. rewrite !length_app. f_equal. f_equal. lia.
Qed.

Lemma deserialize_tree_bytes (T : dirtreenode) :
  well_formed T ->
  forall fuel, (length (tree_bytes T) < fuel)%nat -> reads_back fuel T.
Proof.
  induction T as [nm num subs IH] using dirtreenode_forall_ind.
  intros Hwf fuel Hfuel.
  inversion Hwf as [nm' num' subs' Hne Hnul Hnum0 Hnum Hsubs];
    subst nm' num' subs'.
  destruct fuel as [|fuel]; [lia|].
  cbn [tree_bytes] in Hfuel.
  rewrite !length_app, length_store4 in Hfuel. cbn [length] in Hfuel.
  assert (IH' : Forall (reads_back fuel) subs).
  { apply Forall_forall. intros c Hc.
    rewrite Forall_forall in IH, Hsubs.
    apply IH; [exact Hc|apply Hsubs; exact Hc|].
    pose proof (length_child_bytes c subs Hc). lia. }
  intros pre post Hlen.
  pose proof (length_subdirs_bytes subs) as Hsubs_len.
  cbn [tree_bytes] in *.
  rewrite !length_app, length_store4 in Hlen. cbn [length] in Hlen.
  cbn [Client.deserialize_dirtree].
  rewrite mem_from_app. cbn [obind].
  rewrite <- !app_assoc. cbn [app].
  rewrite (strlen_app_nul nm _ Hnul). cbn [obind].
  rewrite to_int_of_nat by lia.
  rewrite memcpy_from_mid. cbn [obind].
  replace (Z.of_nat (length pre) + (Z.of_nat (length nm) + 1))
    with (Z.of_nat (length ((pre ++ nm) ++ [NUL])))
    by (rewrite !length_app; cbn [length]; lia).
  rewrite to_int_of_nat by (rewrite !length_app; cbn [length]; lia).
  change (pre ++ nm ++ NUL :: store4 num
            ++ concat (map tree_bytes subs) ++ post)
    with (pre ++ nm ++ [NUL] ++ store4 num
            ++ concat (map tree_bytes subs) ++ post).
  rewrite (app_assoc pre nm), (app_assoc (pre ++ nm) [NUL]).
  change 4 with (Z.of_nat (length (store4 num))) at 1.
  rewrite memcpy_from_mid. cbn [obind].
  rewrite load_int_store4_only.
  rewrite (to_int_id num) by (unfold is_int, INT_MIN, INT_MAX in *; lia).
  replace (Z.to_nat num) with (length subs) by lia.
  replace (Z.of_nat (length ((pre ++ nm) ++ [NUL])) + 4)
    with (Z.of_nat (length (((pre ++ nm) ++ [NUL]) ++ store4 num)))
    by (rewrite !length_app, length_store4; cbn [length]; lia).
  rewrite to_int_of_nat
    by (rewrite !length_app, length_store4; cbn [length]; lia).
  rewrite (app_assoc ((pre ++ nm) ++ [NUL]) (store4 num)).
  rewrite (deserialize_subdirs_bytes fuel subs IH')
    by (rewrite !length_app, length_store4; cbn [length]; lia).
  cbn [obind]. rewrite !length_app, length_store4. cbn [length].
  f_equal. f_equal. rewrite ?length_app, ?length_store4. lia.
Qed.

End Deserialize.

(** C3.  For a tree whose names are non-empty and NUL-free and whose
    child counts are non-negative and are the lengths of the lists of
    children, and a buffer with room for it, [serialize_dirtree] from the
    offset 0 returns, and [deserialize_dirtree] on the bytes it produced,
    as [getdirtree] receives and terminates them, returns the tree. *)
Theorem deserialize_serialize_roundtrip (T : dirtreenode) (buf : list byte) :
  well_formed T ->
  Z.of_nat (length (tree_bytes T)) <= Z.of_nat (length buf) <= INT_MAX ->
  exists buf' offset,
    Server.serialize_dirtree (Some T) buf 0 = Some (buf', offset)
    /\ firstn (Z.to_nat offset) buf' = tree_bytes T
    /\ let resBuf := firstn (Z.to_nat offset) buf' ++ [NUL] in
       Client.deserialize_dirtree (length resBuf) resBuf 0
       = Some (T, offset).
Proof.
  intros Hwf [Hroom Hmax].
  destruct (hole_split (length (tree_bytes T)) buf) as [hole [post [-> Hh]]];
    [lia|].
  pose proof (serialize_node_hole T Hwf [] hole post Hh Hmax) as Hser.
  cbn [app length] in Hser. rewrite Z.add_0_l in Hser.
  exists (tree_bytes T ++ post), (Z.of_nat (length (tree_bytes T))).
  split; [exact Hser|].
  rewrite Nat2Z.id, firstn_app, Nat.sub_diag, firstn_O, app_nil_r, firstn_all.
  split; [reflexivity|].
  cbv zeta.
  assert (Hfuel : (length (tree_bytes T) < length (tree_bytes T ++ [NUL]))%nat)
    by (rewrite length_app; cbn [length]; lia).
  pose proof (deserialize_tree_bytes T Hwf _ Hfuel [] [NUL]) as Hde.
  cbn [app length] in Hde. rewrite Z.add_0_l in Hde.
  apply Hde. rewrite length_app in Hmax. lia.
Qed.

(** ** [getdirtree] from end to end *)

Section GetdirtreeEndToEnd.

Context {K L : Type}.
Variable sys_getdirentries :
  Z -> Z -> Z -> host K -> (Z * list byte) * host K.
Variable sys_getdirtree : list byte -> host K -> option dirtreenode * host K.
Variable handle_fixed :
  Z -> list byte -> list byte -> host K -> (list byte * Z) * host K.

(** The session serves the opcode 8 for a tree that fits the reply buffer
    with two sends: the length of the serialized tree in four bytes, and
    the bytes of the tree. *)
Lemma serve_getdirtree_trace (T : dirtreenode) (buf retBuf : list byte)
  (s : Server.session K) (h : host K) :
  well_formed T ->
  Z.of_nat (length (tree_bytes T)) < Z.of_nat (length retBuf) <= INT_MAX ->
  load_int buf = 8 ->
  sys_getdirtree
    (firstn (Z.to_nat (le_combine (firstn 4 (skipn 4 buf))))
       (skipn 4 (skipn 4 buf))) (Server.s_host s) = (Some T, h) ->
  Server.serve sys_getdirentries sys_getdirtree handle_fixed buf retBuf s
  = Some (Server.Session h
            (Server.s_trace s
             ++ [Server.Send 4 (store4 (Z.of_nat (length (tree_bytes T))));
                 Server.Send (Z.of_nat (length (tree_bytes T)))
                   (tree_bytes T)])).
Proof.
  intros Hwf [Hroom Hmax] Hop Hsys.
  unfold Server.serve. rewrite Hop.
  change ((0 <=? 8) && (8 <=? 6)) with false.
  change (8 =? 7) with false. change (8 =? 8) with true. cbv iota.
  unfold Server.handle_getdirtree. rewrite Hsys.
  destruct (hole_split (length (tree_bytes T)) retBuf)
    as [hole [post [-> Hh]]]; [lia|].
  pose proof (serialize_node_hole T Hwf [] hole post Hh Hmax) as Hser.
  cbn [app length] in Hser. change (Z.of_nat 0) with 0 in Hser.
  rewrite Z.add_0_l in Hser.
  cbn [Server.serialize_dirtree]. rewrite Hser. cbn [obind].
  rewrite length_app in Hroom, Hmax.
  assert (Hsize : to_size_t (Z.of_nat (length (tree_bytes T)))
                  = Z.of_nat (length (tree_bytes T))).
  { unfold to_size_t. apply Z.mod_small. unfold INT_MAX in Hmax. lia. }
  rewrite Hsize.
  replace (Z.of_nat (length (tree_bytes T))
           <? Z.of_nat (length (tree_bytes T ++ post))) with true
    by (symmetry; apply Z.ltb_lt; rewrite length_app; lia).
  unfold Server.send. cbn [Server.s_host Server.s_trace].
  rewrite Nat2Z.id.
  rewrite firstn_app, Nat.sub_diag, firstn_O, app_nil_r, firstn_all.
  replace (4 <=? Z.of_nat (length (store4 (Z.of_nat (length (tree_bytes T))))))
    with true by (rewrite length_store4; reflexivity).
  rewrite firstn_all2 by (rewrite length_store4; cbn; lia).
  replace (Z.of_nat (length (tree_bytes T))
           <=? Z.of_nat
                 (length
                    (tree_bytes T
                     ++ NUL :: skipn (S (length (tree_bytes T)))
                                 (tree_bytes T ++ post))))
    with true
    by (symmetry; apply Z.leb_le; rewrite length_app; lia).
  rewrite firstn_app, Nat.sub_diag, firstn_O, app_nil_r, firstn_all.
  rewrite <- app_assoc. reflexivity.
Qed.

(** On these two frames the shim's [getdirtree] returns the tree. *)
Lemma getdirtree_reads_tree (T : dirtreenode) (path rest : list byte)
  (w : world L) :
  well_formed T ->
  Z.of_nat (length (tree_bytes T)) <= INT_MAX ->
  w_inbox w
  = store4 (Z.of_nat (length (tree_bytes T))) ++ tree_bytes T ++ rest ->
  exists w',
    Client.getdirtree path w = Done (Some T) w'
    /\ w_inbox w' = rest.
Proof.
  intros Hwf Hmax Hin.
  pose proof (length_tree_bytes T) as Hmin.
  unfold Client.getdirtree, bind.
  rewrite sendRequest_store4.
  erewrite receiveResponse_frame;
    [ | exact Hin | rewrite length_store4; reflexivity | lia ].
  rewrite load_int_store4_only, to_int_of_nat by exact Hmax.
  assert (Hsize : to_size_t (Z.of_nat (length (tree_bytes T)))
                  = Z.of_nat (length (tree_bytes T))).
  { unfold to_size_t. apply Z.mod_small. unfold INT_MAX in Hmax. lia. }
  rewrite Hsize.
  erewrite receiveResponse_frame;
    [ | cbn [w_inbox]; reflexivity | reflexivity | lia ].
  assert (Hfuel : (length (tree_bytes T) < length (tree_bytes T ++ [NUL]))%nat)
    by (rewrite length_app; cbn [length]; lia).
  pose proof (deserialize_tree_bytes T Hwf _ Hfuel [] [NUL]) as Hde.
  cbn [app length] in Hde. change (Z.of_nat 0) with 0 in Hde.
  rewrite Z.add_0_l in Hde.
  rewrite Hde by exact Hmax.
  eexists. split; reflexivity.
Qed.

End GetdirtreeEndToEnd.

(** ** The theorems at concrete inputs *)

Lemma chunked_call_aborts_at_error_frame_witness :
  aborted_at
    (chunked (orig_read example_locals) (orig_write example_locals)
       (CallWrite [Byte.x41; Byte.x42]) 5003 2 write_aborted_world)
    (sent_during write_aborted_world
       (final (chunked (orig_read example_locals) (orig_write example_locals)
                 (CallWrite [Byte.x41; Byte.x42]) 5003 2
                 write_aborted_world)))
    [reply 1 0] (reply (-1) 28) []
  /\ aborted_at
       (chunked (orig_read example_locals) (orig_write example_locals)
          CallRead 5003 2 read_aborted_world)
       (sent_during read_aborted_world
          (final (chunked (orig_read example_locals)
                    (orig_write example_locals) CallRead 5003 2
                    read_aborted_world)))
       [] (reply (-1) 9 ++ [Byte.x41; Byte.x42]) [].
Proof.
  split; apply chunked_call_aborts_at_error_frame.
  - unfold Client.FD_OFFSET. lia.
  - unfold is_size_t. lia.
  - vm_compute. reflexivity.
  - split; vm_compute; [reflexivity|discriminate].
  - unfold Client.FD_OFFSET. lia.
  - unfold is_size_t. lia.
  - vm_compute. reflexivity.
  - split; vm_compute; [reflexivity|discriminate].
Defined.

Lemma deserialize_serialize_roundtrip_witness :
  exists buf' offset,
    Server.serialize_dirtree (Some example_tree) (repeat NUL 32) 0
    = Some (buf', offset)
    /\ firstn (Z.to_nat offset) buf' = tree_bytes example_tree
    /\ let resBuf := firstn (Z.to_nat offset) buf' ++ [NUL] in
       Client.deserialize_dirtree (length resBuf) resBuf 0
       = Some (example_tree, offset).
Proof.
  apply deserialize_serialize_roundtrip.
  - unfold example_tree.
    repeat (constructor; try discriminate; try lia; try reflexivity);
      intros [H|[]]; discriminate H.
  - split; apply Z.leb_le; reflexivity.
Defined.

Lemma errno_and_return_value_witness :
  (exists r w',
      run example_locals (CRead 5003 2) read_aborted_world = Done r w'
      /\ errno_discipline (CRead 5003 2) read_aborted_world r w')
  /\ (exists r w',
        run example_locals (CClose 5003) (fresh example_host (reply 0 0))
        = Done r w'
        /\ errno_discipline (CClose 5003) (fresh example_host (reply 0 0))
             r w').
Proof.
  split; eexists; eexists.
  - split; [vm_compute; reflexivity|].
    eapply (errno_and_return_value example_locals (CRead 5003 2)).
    + split; [unfold Client.FD_OFFSET|unfold is_size_t]; lia.
    + vm_compute. reflexivity.
  - split; [vm_compute; reflexivity|].
    eapply (errno_and_return_value example_locals (CClose 5003)).
    + cbn. unfold Client.FD_OFFSET. lia.
    + vm_compute. reflexivity.
Defined.

Lemma local_descriptor_no_traffic_witness :
  3 < Client.FD_OFFSET
  /\ delegated (orig_close example_locals 3) (fresh example_host [])
       (Client.close (orig_close example_locals) 3 (fresh example_host [])).
Proof.
  assert (H : 3 < Client.FD_OFFSET) by (unfold Client.FD_OFFSET; lia).
  split; [exact H|].
  exact (proj1 (proj2 (proj2
           (local_descriptor_no_traffic
              (orig_read example_locals) (orig_write example_locals)
              (orig_close example_locals) (orig_lseek example_locals)
              (orig_getdirentries example_locals)
              3 (fresh example_host []) H)))).
Defined.

Lemma write_boundary_subframes_witness :
  (exists w',
      Client.write (orig_write example_locals) 5003
        (repeat Byte.x41 4084) 4084 (fresh example_host (reply 4084 0 ++ []))
      = Done 4084 w'
      /\ sent_during (fresh example_host (reply 4084 0 ++ [])) w'
         = [store4 2 ++ store4 (5003 - 5000) ++ store4 4084
              ++ repeat Byte.x41 4084]
      /\ rcvd_during (fresh example_host (reply 4084 0 ++ [])) w'
         = [reply 4084 0])
  /\ (exists w',
        Client.write (orig_write example_locals) 5003
          (repeat Byte.x42 4085) 4085
          (fresh example_host (reply 4084 0 ++ reply 1 0 ++ []))
        = Done 4085 w'
        /\ sent_during
             (fresh example_host (reply 4084 0 ++ reply 1 0 ++ [])) w'
           = [store4 2 ++ store4 (5003 - 5000) ++ store4 4084
                ++ firstn 4084 (repeat Byte.x42 4085);
              store4 2 ++ store4 (5003 - 5000) ++ store4 1
                ++ skipn 4084 (repeat Byte.x42 4085)]
        /\ rcvd_during
             (fresh example_host (reply 4084 0 ++ reply 1 0 ++ [])) w'
           = [reply 4084 0; reply 1 0]).
Proof.
  apply (write_boundary_subframes (orig_write example_locals) 5003
           (repeat Byte.x41 4084) (repeat Byte.x42 4085) [] []).
  - unfold Client.FD_OFFSET. lia.
  - apply repeat_length.
  - reflexivity.
  - apply repeat_length.
  - reflexivity.
Defined.

Lemma write_returns_accumulated_count_witness :
  exists r w',
    Client.write (orig_write example_locals) 5003 [Byte.x41; Byte.x42] 2
      two_replies_world
    = Done r w'
    /\ r = write_result (rcvd_during two_replies_world w')
    /\ Client.write (orig_write example_locals) 5003 [Byte.x41; Byte.x42] 0
         two_replies_world
       = Done (-1) two_replies_world.
Proof.
  eexists. eexists. split; [vm_compute; reflexivity|].
  eapply (write_returns_accumulated_count (orig_write example_locals) 5003
            [Byte.x41; Byte.x42] 2 two_replies_world).
  - unfold Client.FD_OFFSET. lia.
  - vm_compute. reflexivity.
Defined.

Lemma write_loop_terminates_witness :
  exists r w',
    Client.write (orig_write example_locals) 5003 [Byte.x41; Byte.x42] 2
      two_replies_world
    = Done r w'.
Proof.
  assert (Hfd : Client.FD_OFFSET <= 5003) by (unfold Client.FD_OFFSET; lia).
  assert (Hs : is_size_t 2) by (unfold is_size_t; lia).
  assert (Hpos : 0 < 2) by lia.
  destruct (write_loop_terminates (orig_write example_locals) 5003
              [Byte.x41; Byte.x42] 2 two_replies_world Hfd Hs Hpos)
    as [_ Hrun].
  cbv zeta in Hrun.
  apply Hrun.
  - match goal with
    | |- Forall _ ?l =>
        let l' := eval vm_compute in l in
        change l with l'
    end.
    repeat (constructor;
            [right; cbn [fst snd]; split; vm_compute;
             [reflexivity|discriminate]|]).
    constructor.
  - vm_compute. discriminate.
Defined.

Lemma read_zero_count_witness :
  Client.FD_OFFSET <= 5003
  /\ Client.read (orig_read example_locals) 5003 0 (fresh example_host [])
     = Done 0 (fresh example_host []).
Proof.
  assert (H : Client.FD_OFFSET <= 5003) by (unfold Client.FD_OFFSET; lia).
  split; [exact H|].
  exact (read_zero_count (orig_read example_locals) 5003
           (fresh example_host []) H).
Defined.

(** * Further properties of the shim and the server *)

(** ** The value [read] returns *)

Section ReadResult.

Context {L : Type}.
Variable orig_read : Z -> Z -> host L -> Z * host L.

Lemma accumulated_to_int (total : Z) (frames : list (list byte)) :
  is_int total -> is_int (accumulated total frames).
Proof.
  revert total. induction frames as [|F frames IH]; intros total Ht.
  - exact Ht.
  - cbn [accumulated fold_left]. apply IH. apply to_int_range.
Qed.

Lemma read_run_result (fd : Z) count total (w : world L) reqs frames res :
  read_run fd count total w reqs frames res ->
  is_int total ->
  forall r w', res = Done r w' ->
    r = (if existsb aborting frames then -1 else accumulated total frames)
    /\ Forall carries_data (removelast frames)
    /\ length reqs = length frames.
Proof.
  induction 1 as [total w | count total w Hc Hlen req
                 | count total w F0 rest Hc Hin HF Hr req
                 | count total w F0 rest Hc Hin HF Hr req
                 | count total w F0 rest reqs frames res Hc Hin HF Hr Hz req
                     Hrun IH];
    intros Ht r w' Hres.
  - injection Hres as <- _. repeat split. constructor.
  - discriminate Hres.
  - injection Hres as <- _. cbn [existsb removelast]. unfold aborting.
    rewrite Hr. repeat split. constructor.
  - injection Hres as <- _. cbn [existsb removelast accumulated fold_left].
    unfold aborting. rewrite Hr. cbn [Z.eqb orb].
    assert (Hv : frame_val F0 = 0).
    { destruct (helper_ret_errno F0) as [_ Hv]; [lia|]. lia. }
    rewrite Hv, Z.add_0_r, (to_int_id total Ht).
    repeat split. constructor.
  - destruct (IH (to_int_range _) r w' Hres) as [Hres' [Hdata Hlen]].
    split; [|split].
    + rewrite Hres'. cbn [existsb accumulated fold_left].
      unfold aborting at 2.
      rewrite (proj2 (Z.eqb_neq _ _) Hr). cbn [orb].
      destruct (helper_ret_errno F0 Hr) as [_ ->]. reflexivity.
    + destruct frames as [|G frames].
      * constructor.
      * change (removelast (F0 :: G :: frames))
          with (F0 :: removelast (G :: frames)).
        constructor; [split; assumption|exact Hdata].
    + cbn [length]. rewrite Hlen. reflexivity.
Qed.

(** X1.  A call of [read] on a remote descriptor that returns has
    returned [-1] if a reply made the helper return [-1], and the
    accumulated bytes-read count otherwise; every reply but the last one
    carried data, so the loop stopped at the first reply that reported an
    error or zero bytes; and it sent one request for each reply. *)
Theorem read_returns_accumulated_count (fd count : Z) (w : world L) (r : Z)
  (w' : world L) :
  Client.FD_OFFSET <= fd -> is_size_t count ->
  Client.read orig_read fd count w = Done r w' ->
  r = read_result (rcvd_during w w')
  /\ Forall carries_data (removelast (rcvd_during w w'))
  /\ length (sent_during w w') = length (rcvd_during w w').
Proof.
  intros Hfd Hs Hres.
  destruct (read_remote_run orig_read fd count w Hfd Hs)
    as [reqs [frames [Hrun [Hsent Hrcvd]]]].
  rewrite Hres in Hrun, Hsent, Hrcvd. cbn [final] in Hsent, Hrcvd.
  rewrite Hsent, Hrcvd.
  assert (H0 : is_int 0) by (unfold is_int, INT_MIN, INT_MAX; lia).
  exact (read_run_result _ _ _ _ _ _ _ Hrun H0 r w' eq_refl).
Qed.

End ReadResult.

(** ** Where [read] copies, and how long it runs *)

Section ReadBounds.

Context {L : Type}.
Variable orig_read : Z -> Z -> host L -> Z * host L.

Lemma request_count_read (fd chunk : Z) :
  0 <= chunk <= 4088 -> request_count (read_request fd chunk) = chunk.
Proof.
  intros H. unfold request_count, read_request.
  rewrite app_assoc.
  replace 8%nat with (length (store4 1 ++ store4 fd))
    by (rewrite length_app, !length_store4; reflexivity).
  rewrite skipn_length_app, load_int_store4_only.
  apply to_int_id. unfold is_int, INT_MIN, INT_MAX. lia.
Qed.

(** A reply that fits and carries data lowers the count by what it
    carries. *)
Lemma fitting_read_progress (fd count : Z) (F : list byte) :
  is_size_t count -> count <> 0 ->
  fits_read (read_request fd (read_chunk count)) F ->
  helper_ret F <> -1 -> helper_ret F <> 0 ->
  0 < helper_ret F <= read_chunk count
  /\ to_size_t (count - helper_ret F) = count - helper_ret F.
Proof.
  intros Hs Hc Hfit Hm Hz.
  destruct (read_chunk_range count Hs Hc) as [Hr Hle].
  unfold fits_read in Hfit. rewrite request_count_read in Hfit by lia.
  destruct (helper_ret_errno F Hm) as [He Hv].
  destruct Hfit as [Hfit|Hfit]; [contradiction|].
  split; [lia|]. apply to_size_t_id. unfold is_size_t in *. lia.
Qed.

Lemma length_payload (F : list byte) (chunk : Z) :
  Z.of_nat (length F) = 8 + chunk -> 0 <= chunk ->
  Z.of_nat (length (skipn 8 F)) = chunk.
Proof. intros H Hc. rewrite length_skipn. lia. Qed.

Lemma read_run_inside (N : Z) (fd : Z) count total (w : world L)
  reqs frames res :
  read_run fd count total w reqs frames res ->
  is_size_t count -> 0 <= total -> total + count <= N -> N <= INT_MAX ->
  Forall (fun x => fits_read (fst x) (snd x)) (combine reqs frames) ->
  exists copies,
    w_copied (final res) = w_copied w ++ copies
    /\ Forall (inside N) copies.
Proof.
  induction 1 as [total w | count total w Hc Hlen req
                 | count total w F0 rest Hc Hin HF Hr req
                 | count total w F0 rest Hc Hin HF Hr req
                 | count total w F0 rest reqs frames res Hc Hin HF Hr Hz req
                     Hrun IH];
    intros Hs Ht HN Hmax Hfits.
  - exists []. cbn. rewrite app_nil_r. split; [reflexivity|constructor].
  - exists []. cbn. rewrite app_nil_r. split; [reflexivity|constructor].
  - destruct (read_chunk_range count Hs Hc) as [Hchunk Hle].
    exists [(total, skipn 8 F0)]. cbn [final exchanged_read w_copied].
    split; [reflexivity|].
    constructor; [|constructor]. unfold inside. cbn [fst snd].
    rewrite (length_payload F0 (read_chunk count)) by lia. lia.
  - destruct (read_chunk_range count Hs Hc) as [Hchunk Hle].
    exists [(total, skipn 8 F0)]. cbn [final exchanged_read w_copied].
    split; [reflexivity|].
    constructor; [|constructor]. unfold inside. cbn [fst snd].
    rewrite (length_payload F0 (read_chunk count)) by lia. lia.
  - destruct (read_chunk_range count Hs Hc) as [Hchunk Hle].
    cbn [combine] in Hfits. apply Forall_cons_iff in Hfits.
    destruct Hfits as [Hfit Hfits]. cbn [fst snd] in Hfit.
    destruct (fitting_read_progress _ count F0 Hs Hc Hfit Hr Hz)
      as [Hpos Hid].
    rewrite Hid in IH.
    rewrite (to_int_id (total + helper_ret F0)) in IH
      by (unfold is_int, INT_MIN, INT_MAX in *; lia).
    destruct IH as [copies [Hlog Hin']];
      [unfold is_size_t in *; lia|lia|lia|exact Hmax|exact Hfits|].
    exists ((total, skipn 8 F0) :: copies). split.
    + rewrite Hlog. cbn [exchanged_read w_copied].
      rewrite <- app_assoc. reflexivity.
    + constructor; [|exact Hin']. unfold inside. cbn [fst snd].
      rewrite (length_payload F0 (read_chunk count)) by lia. lia.
Qed.

Lemma read_run_terminates (fd : Z) count total (w : world L)
  reqs frames res :
  read_run fd count total w reqs frames res ->
  is_size_t count ->
  Forall (fun x => fits_read (fst x) (snd x)) (combine reqs frames) ->
  Z.of_nat (length frames) <= count
  /\ (Client.MAX_MSG_LEN * count <= Z.of_nat (length (w_inbox w)) ->
      exists r w', res = Done r w').
Proof.
  unfold Client.MAX_MSG_LEN.
  induction 1 as [total w | count total w Hc Hlen req
                 | count total w F0 rest Hc Hin HF Hr req
                 | count total w F0 rest Hc Hin HF Hr req
                 | count total w F0 rest reqs frames res Hc Hin HF Hr Hz req
                     Hrun IH];
    intros Hs Hfits;
    try (destruct (read_chunk_range count Hs Hc) as [Hchunk Hle]).
  - split; [cbn; lia|]. intros _. eexists. eexists. reflexivity.
  - unfold is_size_t in Hs. split; [cbn; lia|]. intros Hlong. lia.
  - unfold is_size_t in Hs. split; [cbn; lia|].
    intros _. eexists. eexists. reflexivity.
  - unfold is_size_t in Hs. split; [cbn; lia|].
    intros _. eexists. eexists. reflexivity.
  - cbn [combine] in Hfits. apply Forall_cons_iff in Hfits.
    destruct Hfits as [Hfit Hfits]. cbn [fst snd] in Hfit.
    destruct (fitting_read_progress _ count F0 Hs Hc Hfit Hr Hz)
      as [Hpos Hid].
    rewrite Hid in IH.
    destruct IH as [IHlen IHdone]; [unfold is_size_t in *; lia|exact Hfits|].
    split; [cbn [length]; lia|].
    intros Hlong. apply IHdone.
    cbn [exchanged_read w_inbox].
    assert (Hl : Z.of_nat (length (w_inbox w))
                 = Z.of_nat (length F0) + Z.of_nat (length rest))
      by (rewrite Hin, length_app; lia).
    lia.
Qed.

(** X2.  When every reply reports an error or at most the bytes asked
    for, [read] on a remote descriptor copies only inside the caller's
    buffer of [count] bytes: every copy starts at a non-negative offset
    and ends at or before [count]. *)
Theorem read_copies_inside_buffer (fd count : Z) (w : world L) :
  Client.FD_OFFSET <= fd ->
  0 <= count <= INT_MAX ->
  Forall (fun x => fits_read (fst x) (snd x))
    (combine (sent_during w (final (Client.read orig_read fd count w)))
             (rcvd_during w (final (Client.read orig_read fd count w)))) ->
  Forall (inside count)
    (copied_during w (final (Client.read orig_read fd count w))).
Proof.
  intros Hfd Hcount Hfits.
  assert (Hs : is_size_t count)
    by (unfold is_size_t, INT_MAX in *; lia).
  destruct (read_remote_run orig_read fd count w Hfd Hs)
    as [reqs [frames [Hrun [Hsent Hrcvd]]]].
  rewrite Hsent, Hrcvd in Hfits.
  destruct (read_run_inside count _ _ _ _ _ _ _ Hrun Hs) as [copies [Hlog Hin]];
    [lia|lia|lia|exact Hfits|].
  unfold copied_during. rewrite Hlog, skipn_length_app. exact Hin.
Qed.

(** X3.  When every reply reports an error or at most the bytes asked
    for, the loop of [read] makes at most [count] passes, and the call
    returns once the stream holds [count] replies of the largest size: a
    reply of zero bytes ends the loop. *)
Theorem read_loop_terminates (fd count : Z) (w : world L) :
  Client.FD_OFFSET <= fd ->
  is_size_t count ->
  Forall (fun x => fits_read (fst x) (snd x))
    (combine (sent_during w (final (Client.read orig_read fd count w)))
             (rcvd_during w (final (Client.read orig_read fd count w)))) ->
  Z.of_nat (length (rcvd_during w (final (Client.read orig_read fd count w))))
  <= count
  /\ (Client.MAX_MSG_LEN * count <= Z.of_nat (length (w_inbox w)) ->
      exists r w', Client.read orig_read fd count w = Done r w').
Proof.
  intros Hfd Hs Hfits.
  destruct (read_remote_run orig_read fd count w Hfd Hs)
    as [reqs [frames [Hrun [Hsent Hrcvd]]]].
  rewrite Hsent, Hrcvd in Hfits. rewrite Hrcvd.
  exact (read_run_terminates _ _ _ _ _ _ _ Hrun Hs Hfits).
Qed.

End ReadBounds.

(** ** What [write] puts on the wire *)

Section WriteDelivery.

Context {L : Type}.
Variable orig_write : Z -> list byte -> Z -> host L -> Z * host L.





Lemma helper_ret_zero_reply : helper_ret (reply 0 0) = 0.
Proof. reflexivity. Qed.

Lemma write_loop_zero_acks (fd : Z) (buf : list byte) (n : nat) :
  forall fuel count total (w : world L),
    is_size_t count -> count <> 0 ->
    w_inbox w = concat (repeat (reply 0 0) n) ->
    (length (w_inbox w) < fuel)%nat ->
    exists w',
      Client.write_loop fuel fd buf count total w = Blocked w'
      /\ length (w_sent w') = (length (w_sent w) + S n)%nat
      /\ w_rcvd w' = w_rcvd w ++ repeat (reply 0 0) n.
Proof.
  induction n as [|n IH]; intros fuel count total w Hs Hc Hin Hfuel;
    (destruct fuel as [|fuel]; [lia|]).
  - cbn [Client.write_loop].
    rewrite (proj2 (Z.eqb_neq _ _) Hc). unfold bind.
    rewrite write_step_wait by (rewrite Hin; cbn; lia).
    eexists. split; [reflexivity|].
    cbn [requested w_sent w_rcvd repeat]. rewrite length_app, app_nil_r.
    cbn [length]. split; [lia|reflexivity].
  - cbn [repeat concat] in Hin.
    rewrite (write_loop_pass _ _ _ _ _ w _ _ Hc Hin (length_reply 0 0)).
    cbv zeta. rewrite helper_ret_zero_reply.
    change (0 =? -1) with false. cbv iota.
    rewrite Z.sub_0_r, (to_size_t_id count Hs).
    destruct (IH fuel count (to_int (total + 0))
                (exchanged w
                   (write_request fd (skipn (Z.to_nat total) buf)
                      (write_chunk count))
                   (reply 0 0) (concat (repeat (reply 0 0) n))) Hs Hc)
      as [w' [Hres [Hsent Hrcvd]]].
    + reflexivity.
    + cbn [exchanged w_inbox]. rewrite Hin, length_app, length_reply in Hfuel.
      lia.
    + exists w'. split; [exact Hres|].
      cbn [exchanged w_sent w_rcvd] in Hsent, Hrcvd.
      rewrite length_app in Hsent. cbn [length] in Hsent.
      split; [lia|]. rewrite Hrcvd, <- app_assoc. reflexivity.
Qed.

(** X5.  A [write] of [count > 0] bytes on a remote descriptor does not
    return while the replies report zero bytes written and no error:
    after [n] such replies it has sent [n + 1] requests and waits for the
    next reply. *)
Theorem write_spins_on_zero_acknowledgements (fd : Z) (buf : list byte)
  (count : Z) (n : nat) (w : world L) :
  Client.FD_OFFSET <= fd ->
  is_size_t count -> count <> 0 ->
  w_inbox w = concat (repeat (reply 0 0) n) ->
  exists w',
    Client.write orig_write fd buf count w = Blocked w'
    /\ length (sent_during w w') = S n
    /\ rcvd_during w w' = repeat (reply 0 0) n.
Proof.
  intros Hfd Hs Hc Hin. unfold Client.write.
  replace (fd <? Client.FD_OFFSET) with false
    by (symmetry; apply Z.ltb_ge; exact Hfd).
  cbv beta iota zeta.
  destruct (write_loop_zero_acks (fd - Client.FD_OFFSET) buf n
              (S (length (w_inbox w))) count 0 w Hs Hc Hin
              (Nat.lt_succ_diag_r _)) as [w' [Hres [Hsent Hrcvd]]].
  exists w'. split; [exact Hres|].
  unfold sent_during, rcvd_during.
  rewrite Hrcvd, skipn_length_app, length_skipn, Hsent.
  split; [lia|reflexivity].
Qed.

End WriteDelivery.

(** ** The size of the sub-frames *)

Section FrameSizes.

Context {L : Type}.
Variable orig_read : Z -> Z -> host L -> Z * host L.
Variable orig_write : Z -> list byte -> Z -> host L -> Z * host L.

Lemma length_write_request (fd : Z) (buf : list byte) (count : Z) :
  Z.of_nat (length (write_request fd buf (write_chunk count)))
  <= Client.MAX_MSG_LEN.
Proof.
  unfold write_request, write_chunk, Client.MAX_MSG_LEN.
  rewrite !length_app, !length_store4.
  pose proof (firstn_le_length
                (Z.to_nat (if count >? 4096 - 12 then 4096 - 12 else count))
                buf) as Hle.
  pose proof (length_firstn
                (Z.to_nat (if count >? 4096 - 12 then 4096 - 12 else count))
                buf) as Hlen.
  destruct (Z.gtb_spec count (4096 - 12)); lia.
Qed.

Lemma write_run_request_sizes (fd : Z) (buf : list byte) count total
  (w : world L) reqs frames res :
  write_run fd buf count total w reqs frames res ->
  Forall (fun req => Z.of_nat (length req) <= Client.MAX_MSG_LEN) reqs.
Proof.
  induction 1; repeat constructor;
    try apply length_write_request; assumption.
Qed.

Lemma read_run_frame_sizes (fd : Z) count total (w : world L)
  reqs frames res :
  read_run fd count total w reqs frames res ->
  is_size_t count ->
  Forall (fun req => length req = 12%nat) reqs
  /\ Forall (fun F => 8 < Z.of_nat (length F) <= Client.MAX_MSG_LEN) frames.
Proof.
  unfold Client.MAX_MSG_LEN.
  induction 1 as [total w | count total w Hc Hlen req
                 | count total w F0 rest Hc Hin HF Hr req
                 | count total w F0 rest Hc Hin HF Hr req
                 | count total w F0 rest reqs frames res Hc Hin HF Hr Hz req
                     Hrun IH];
    intros Hs;
    try (destruct (read_chunk_range count Hs Hc) as [Hchunk Hle]);
    try (assert (Hreq : length req = 12%nat)
          by (subst req; unfold read_request;
              rewrite !length_app, !length_store4; reflexivity)).
  - split; constructor.
  - split; repeat constructor; first [exact Hreq|lia].
  - split; repeat constructor; first [exact Hreq|lia].
  - split; repeat constructor; first [exact Hreq|lia].
  - destruct (IH (to_size_t_range _)) as [IH1 IH2].
    split; constructor; first [assumption|lia].
Qed.

(** X6.  No sub-frame is larger than [MAX_MSG_LEN]: every request that
    [write] sends on a remote descriptor has at most 4096 bytes, and
    every request that [read] sends has 12 bytes and is answered by a
    reply that the shim takes to be more than 8 and at most 4096 bytes
    long. *)
Theorem sub_frames_within_max_msg_len (fd count : Z) (buf : list byte)
  (w : world L) :
  Client.FD_OFFSET <= fd ->
  is_size_t count ->
  Forall (fun req => Z.of_nat (length req) <= Client.MAX_MSG_LEN)
    (sent_during w (final (Client.write orig_write fd buf count w)))
  /\ Forall (fun req => length req = 12%nat)
       (sent_during w (final (Client.read orig_read fd count w)))
  /\ Forall (fun F => 8 < Z.of_nat (length F) <= Client.MAX_MSG_LEN)
       (rcvd_during w (final (Client.read orig_read fd count w))).
Proof.
  intros Hfd Hs. split.
  - destruct (write_remote_run orig_write fd buf count w Hfd)
      as [reqs [frames [Hrun [Hsent _]]]].
    rewrite Hsent. exact (write_run_request_sizes _ _ _ _ _ _ _ _ Hrun).
  - destruct (read_remote_run orig_read fd count w Hfd Hs)
      as [reqs [frames [Hrun [Hsent Hrcvd]]]].
    rewrite Hsent, Hrcvd.
    exact (read_run_frame_sizes _ _ _ _ _ _ _ Hrun Hs).
Qed.

End FrameSizes.

(** ** The descriptor on the wire *)

Section DescriptorRoundTrip.

Context {L : Type}.
Variable lib : locals L.








End DescriptorRoundTrip.

(** ** What [getdirentries] stores *)

Section GetdirentriesCopy.

Context {L : Type}.
Variable orig_getdirentries : Z -> Z -> Z -> host L -> Z * host L.

(** X8.  On a reply header with the error number 0 and [n > 0] bytes,
    followed by the [n] data bytes, [getdirentries] on a remote
    descriptor returns [n] and stores [n + 1] bytes in the caller's
    buffer, the data and a NUL after them, whatever [nbyte] is.  On a
    reply header with a non-zero error number it returns the value of the
    header, stores nothing, and takes nothing after the header from the
    stream. *)
Theorem getdirentries_stores_data_and_nul (fd nbyte basep : Z)
  (n v e : Z) (data rest1 rest2 : list byte) (w1 w2 : world L) :
  Client.FD_OFFSET <= fd ->
  0 < n <= INT_MAX -> Z.of_nat (length data) = n ->
  w_inbox w1 = reply n 0 ++ data ++ rest1 ->
  is_int v -> is_int e -> e <> 0 ->
  w_inbox w2 = reply v e ++ rest2 ->
  (exists w',
      Client.getdirentries orig_getdirentries fd nbyte basep w1 = Done n w'
      /\ copied_during w1 w' = [(0, data ++ [NUL])]
      /\ Z.of_nat (length (data ++ [NUL])) = n + 1
      /\ w_inbox w' = rest1)
  /\ (exists w',
        Client.getdirentries orig_getdirentries fd nbyte basep w2 = Done v w'
        /\ copied_during w2 w' = []
        /\ h_errno (w_host w') = e
        /\ w_inbox w' = rest2).
Proof.
  intros Hfd Hn Hdata Hin1 Hv He Hne Hin2.
  assert (Hnint : is_int n) by (unfold is_int, INT_MIN, INT_MAX in *; lia).
  unfold Client.getdirentries.
  replace (fd <? Client.FD_OFFSET) with false
    by (symmetry; apply Z.ltb_ge; exact Hfd).
  cbv zeta. unfold bind. rewrite !sendRequest_store4.
  split.
  - erewrite receiveResponse_frame;
      [ | exact Hin1 | rewrite length_reply; reflexivity | lia ].
    unfold set_errno, get_errno, ret. cbv beta iota. cbn [w_host h_errno].
    fold (frame_errno (reply n 0)). fold (frame_val (reply n 0)).
    rewrite <- (app_nil_r (reply n 0)).
    rewrite frame_errno_reply, frame_val_reply, (to_int_id n Hnint).
    change (to_int 0 =? 0) with true. cbn [negb].
    rewrite to_size_t_id by (unfold is_size_t, INT_MAX in *; lia).
    erewrite receiveResponse_frame;
      [ | cbn [w_inbox]; reflexivity | exact Hdata | lia ].
    unfold copy_out. cbv beta iota.
    eexists. split; [reflexivity|].
    unfold copied_during. cbn [w_copied w_inbox].
    rewrite skipn_length_app, length_app. cbn [length].
    repeat split. lia.
  - erewrite receiveResponse_frame;
      [ | exact Hin2 | rewrite length_reply; reflexivity | lia ].
    unfold set_errno, get_errno, ret. cbv beta iota. cbn [w_host h_errno].
    fold (frame_errno (reply v e)). fold (frame_val (reply v e)).
    rewrite <- (app_nil_r (reply v e)).
    rewrite frame_errno_reply, frame_val_reply.
    rewrite (to_int_id v Hv), (to_int_id e He).
    replace (e =? 0) with false by (symmetry; apply Z.eqb_neq; exact Hne).
    cbn [negb].
    eexists. split; [reflexivity|].
    unfold copied_during. cbn [w_copied w_inbox w_host h_errno].
    rewrite skipn_all. repeat split.
Qed.

End GetdirentriesCopy.

(** ** The handlers of the server and the shim, end to end *)

Section ServerMemory.

Lemma skipn_store4 (v : Z) (tail : list byte) :
  skipn 4 (store4 v ++ tail) = tail.
Proof. reflexivity. Qed.

Lemma skipn_store8 (v : Z) (tail : list byte) :
  skipn 8 (store8 v ++ tail) = tail.
Proof. reflexivity. Qed.

Lemma to_int64_id (z : Z) : is_off_t z -> to_int64 z = z.
Proof.
  unfold is_off_t, to_int64. intros H. rewrite Z.mod_small; lia.
Qed.

Lemma load_int64_store8 (v : Z) (tail : list byte) :
  load_int64 (store8 v ++ tail) = to_int64 v.
Proof.
  unfold load_int64.
  rewrite firstn_app, length_store8, Nat.sub_diag, firstn_O, app_nil_r.
  rewrite firstn_all2 by (rewrite length_store8; lia).
  unfold store8. rewrite le_combine_split.
  change (Z.of_nat 8 * 8) with 64. unfold to_int64.
  rewrite Z.add_mod_idemp_l by lia. reflexivity.
Qed.

Lemma le_combine_store4 (v : Z) (tail : list byte) :
  0 <= v < 2 ^ 32 -> le_combine (firstn 4 (store4 v ++ tail)) = v.
Proof.
  intros Hv.
  rewrite firstn_app, length_store4, Nat.sub_diag, firstn_O, app_nil_r.
  rewrite firstn_all2 by (rewrite length_store4; lia).
  unfold store4. rewrite le_combine_split.
  change (Z.of_nat 4 * 8) with 32. apply Z.mod_small. exact Hv.
Qed.

Lemma frame_val_reply_only (v e : Z) : is_int v -> frame_val (reply v e) = v.
Proof.
  intros Hv. rewrite <- (app_nil_r (reply v e)), frame_val_reply.
  apply to_int_id. exact Hv.
Qed.

Lemma frame_errno_reply_only (v e : Z) :
  is_int e -> frame_errno (reply v e) = e.
Proof.
  intros He. rewrite <- (app_nil_r (reply v e)), frame_errno_reply.
  apply to_int_id. exact He.
Qed.

Lemma memcpy_to_inside (buf : list byte) (off : nat) (src : list byte) :
  (off + length src <= length buf)%nat ->
  memcpy_to buf (Z.of_nat off) src
  = Some (firstn off buf ++ src ++ skipn (off + length src) buf).
Proof.
  intros H. unfold memcpy_to.
  replace ((0 <=? Z.of_nat off)
           && (Z.of_nat off + Z.of_nat (length src)
               <=? Z.of_nat (length buf))) with true.
  2: { symmetry. apply andb_true_intro. split; apply Z.leb_le; lia. }
  rewrite Nat2Z.id. reflexivity.
Qed.

Lemma put_header_reply (retBuf : list byte) (v e : Z) :
  (8 <= length retBuf)%nat ->
  Server.put_header retBuf v e = Some (reply v e ++ skipn 8 retBuf).
Proof.
  intros H. unfold Server.put_header.
  pose proof (memcpy_to_inside retBuf 0 (store4 v)) as H0.
  change (Z.of_nat 0) with 0 in H0.
  rewrite H0 by (rewrite length_store4; lia). clear H0.
  cbn [obind firstn app Nat.add]. rewrite length_store4.
  pose proof (memcpy_to_inside (store4 v ++ skipn 4 retBuf) 4 (store4 e))
    as H4.
  change (Z.of_nat 4) with 4 in H4.
  rewrite H4 by (rewrite length_app, !length_store4, length_skipn; lia).
  clear H4. rewrite length_store4.
  rewrite firstn_app, length_store4, Nat.sub_diag, firstn_O, app_nil_r.
  rewrite firstn_all2 by (rewrite length_store4; lia).
  rewrite skipn_app, length_store4.
  rewrite skipn_all2 by (rewrite length_store4; lia).
  cbn [app Nat.add Nat.sub]. rewrite skipn_skipn.
  unfold reply. rewrite <- app_assoc. reflexivity.
Qed.

Lemma length_received_tail (req stale rest : list byte) :
  received (req ++ rest) stale = req ++ received rest stale.
Proof. unfold received. rewrite <- app_assoc. reflexivity. Qed.

End ServerMemory.

Section RequestStep.

Context {K : Type}.
Variable sys_getdirentries :
  Z -> Z -> Z -> host K -> (Z * list byte) * host K.
Variable sys_getdirtree : list byte -> host K -> option dirtreenode * host K.

(** For the opcodes 0 to 6 [main] stores the terminator after the reply
    that the handler left and sends the reply. *)
Lemma serve_fixed_reply (buf retBuf out : list byte) (len : nat)
  (h : host K) (s : Server.session K) :
  0 <= load_int buf <= 6 ->
  (len < length out)%nat ->
  Server.serve sys_getdirentries sys_getdirtree
    (fun _ _ _ _ => ((out, Z.of_nat len), h)) buf retBuf s
  = Some (Server.Session h
            (Server.s_trace s ++ [Server.Send (Z.of_nat len) (firstn len out)])).
Proof.
  intros Hop Hlen. unfold Server.serve.
  replace ((0 <=? load_int buf) && (load_int buf <=? 6)) with true.
  2: { symmetry. apply andb_true_intro. split; apply Z.leb_le; lia. }
  cbn [obind].
  replace (Z.of_nat len <? Z.of_nat (length out)) with true
    by (symmetry; apply Z.ltb_lt; lia).
  unfold Server.send. cbn [Server.s_host Server.s_trace].
  rewrite Nat2Z.id.
  replace (Z.of_nat len
           <=? Z.of_nat (length (firstn len out ++ NUL :: skipn (S len) out)))
    with true.
  2: { symmetry. apply Z.leb_le. rewrite length_app, firstn_length_le by lia.
       lia. }
  rewrite firstn_app, firstn_length_le by lia.
  rewrite Nat.sub_diag, firstn_O, app_nil_r, firstn_firstn, Nat.min_id.
  reflexivity.
Qed.

End RequestStep.

Section EndToEnd.

Context {K L : Type}.

(** The system calls of the server. *)
Variable sys_open : list byte -> Z -> Z -> host K -> Z * host K.
Variable sys_read : Z -> Z -> host K -> (Z * list byte) * host K.
Variable sys_write : Z -> list byte -> Z -> host K -> Z * host K.
Variable sys_close : Z -> host K -> Z * host K.
Variable sys_lseek : Z -> Z -> Z -> host K -> Z * host K.
Variable sys_stat : list byte -> list byte -> host K -> Z * host K.
Variable sys_unlink : list byte -> host K -> Z * host K.
Variable sys_getdirentries :
  Z -> Z -> Z -> host K -> (Z * list byte) * host K.
Variable sys_getdirtree : list byte -> host K -> option dirtreenode * host K.
Variable uninit : byte.

(** What the shim was built with; [sizeof(struct stat)] is the same on
    both sides. *)
Variable lib : locals L.

Local Abbreviation step :=
  (Server.request_step sys_open sys_read sys_write sys_close sys_lseek
     sys_stat sys_unlink (stat_size lib) uninit sys_getdirentries
     sys_getdirtree).

Local Abbreviation fixed_ops :=
  (Server.handle_fixed_ops sys_open sys_read sys_write sys_close sys_lseek
     sys_stat sys_unlink (stat_size lib) uninit).

(** A request with an opcode from 0 to 6 whose handler leaves a reply of
    [len] bytes in [retBuf]. *)
Lemma step_fixed (op : Z) (tail stale retBuf out : list byte) (len : nat)
  (h : host K) (s : Server.session K) :
  0 <= op <= 6 ->
  fixed_ops op (received tail stale) retBuf (Server.s_host s)
  = Some ((out, Z.of_nat len), h) ->
  (len < length out)%nat ->
  step (received (store4 op ++ tail) stale) retBuf s
  = Some (Server.Session h
            (Server.s_trace s
             ++ [Server.Send (Z.of_nat len) (firstn len out)])).
Proof.
  intros Hop Hfix Hlen.
  assert (Hint : is_int op) by (unfold is_int, INT_MIN, INT_MAX; lia).
  unfold Server.request_step.
  rewrite length_received_tail, load_int_store4, (to_int_id op Hint).
  replace ((0 <=? op) && (op <=? 6)) with true.
  2: { symmetry. apply andb_true_intro. split; apply Z.leb_le; lia. }
  rewrite skipn_store4, Hfix. cbn [obind].
  apply serve_fixed_reply; [|exact Hlen].
  rewrite load_int_store4, (to_int_id op Hint). exact Hop.
Qed.

Lemma reply_in_retBuf (retBuf : list byte) (v e : Z) :
  Z.of_nat (length retBuf) = Server.MAX_MSG_LEN + 1 ->
  (8 < length (reply v e ++ skipn 8 retBuf))%nat
  /\ firstn 8 (reply v e ++ skipn 8 retBuf) = reply v e.
Proof.
  unfold Server.MAX_MSG_LEN. intros H. split.
  - rewrite length_app, length_reply, length_skipn. lia.
  - rewrite firstn_app, length_reply, Nat.sub_diag, firstn_O, app_nil_r.
    apply firstn_all2. rewrite length_reply. lia.
Qed.

(** X9.  [close] from end to end.  For a remote descriptor the server
    closes the descriptor without the bias of 5000, and the shim returns
    the value of that [close] and leaves its error number in [errno]:
    the request of the shim is one that [main] takes in whole, the
    handler answers it with the eight bytes of the value and the error
    number, and on these bytes the shim returns. *)
Theorem close_end_to_end (fd : Z) (retBuf : list byte)
  (s : Server.session K) (r : Z) (h' : host K) :
  Client.FD_OFFSET <= fd <= INT_MAX ->
  Z.of_nat (length retBuf) = Server.MAX_MSG_LEN + 1 ->
  sys_close (fd - Client.FD_OFFSET) (Server.s_host s) = (r, h') ->
  is_int r -> is_int (h_errno h') ->
  exists req,
    Z.of_nat (length req) <= Server.MAX_MSG_LEN
    /\ (forall stale,
           step (received req stale) retBuf s
           = Some (Server.Session h'
                     (Server.s_trace s
                      ++ [Server.Send 8 (reply r (h_errno h'))])))
    /\ (forall (w : world L) rest,
           w_inbox w = reply r (h_errno h') ++ rest ->
           exists w',
             run lib (CClose fd) w = Done r w'
             /\ sent_during w w' = [req]
             /\ h_errno (w_host w') = h_errno h'
             /\ w_inbox w' = rest).
Proof.
  intros Hfd Hbuf Hsys Hr He.
  assert (Hfd' : is_int (fd - Client.FD_OFFSET))
    by (unfold is_int, INT_MIN, INT_MAX, Client.FD_OFFSET in *; lia).
  exists (store4 3 ++ store4 (fd - Client.FD_OFFSET)).
  split; [rewrite length_app, !length_store4; unfold Server.MAX_MSG_LEN; lia|].
  split.
  - intros stale.
    destruct (reply_in_retBuf retBuf r (h_errno h') Hbuf) as [Hlen Hfirst].
    rewrite <- Hfirst.
    apply (step_fixed 3 _ stale retBuf _ 8); [lia| |exact Hlen].
    unfold Server.handle_fixed_ops. cbv beta iota.
    change (3 =? 0) with false. change (3 =? 1) with false.
    change (3 =? 2) with false. change (3 =? 3) with true. cbv iota.
    unfold Server.handle_close, received.
    rewrite load_int_store4, (to_int_id _ Hfd'), Hsys.
    rewrite put_header_reply by (unfold Server.MAX_MSG_LEN in Hbuf; lia).
    reflexivity.
  - intros w rest Hin. cbn [run]. unfold Client.close.
    replace (fd <? Client.FD_OFFSET) with false
      by (symmetry; apply Z.ltb_ge; lia).
    cbv zeta. unfold bind. rewrite sendRequest_store4.
    erewrite receiveResponse_frame;
      [ | exact Hin | rewrite length_reply; reflexivity | lia ].
    unfold set_errno, ret. cbv beta iota.
    fold (frame_errno (reply r (h_errno h'))).
    fold (frame_val (reply r (h_errno h'))).
    rewrite (frame_val_reply_only _ _ Hr), (frame_errno_reply_only _ _ He).
    eexists. split; [reflexivity|].
    unfold sent_during. cbn [w_sent w_host h_errno w_inbox].
    rewrite skipn_length_app. repeat split.
Qed.

Lemma put_offset (retBuf : list byte) (v : Z) :
  (12 <= length retBuf)%nat ->
  memcpy_to retBuf 0 (store8 v) = Some (store8 v ++ skipn 8 retBuf).
Proof.
  intros H.
  pose proof (memcpy_to_inside retBuf 0 (store8 v)) as H0.
  change (Z.of_nat 0) with 0 in H0.
  rewrite H0 by (rewrite length_store8; lia).
  rewrite length_store8. reflexivity.
Qed.

Lemma put_offset_errno (retBuf : list byte) (v e : Z) :
  (12 <= length retBuf)%nat ->
  memcpy_to (store8 v ++ skipn 8 retBuf) 8 (store4 e)
  = Some (lseek_reply v e ++ skipn 12 retBuf).
Proof.
  intros H.
  pose proof (memcpy_to_inside (store8 v ++ skipn 8 retBuf) 8 (store4 e))
    as H8.
  change (Z.of_nat 8) with 8 in H8.
  rewrite H8
    by (rewrite length_app, length_store4, length_store8, length_skipn; lia).
  clear H8. rewrite length_store4.
  rewrite firstn_app, length_store8, Nat.sub_diag, firstn_O, app_nil_r.
  rewrite firstn_all2 by (rewrite length_store8; lia).
  rewrite skipn_app, length_store8.
  rewrite skipn_all2 by (rewrite length_store8; lia).
  cbn [app Nat.add Nat.sub]. rewrite skipn_skipn.
  unfold lseek_reply. rewrite <- app_assoc. reflexivity.
Qed.

Lemma length_lseek_reply (v e : Z) : length (lseek_reply v e) = 12%nat.
Proof.
  unfold lseek_reply. rewrite length_app, length_store8, length_store4.
  reflexivity.
Qed.

(** X10.  [lseek] from end to end.  For a remote descriptor the server
    seeks on the descriptor without the bias of 5000, with the offset
    and the [whence] of the caller, and the shim returns the new offset
    of that [lseek] and leaves its error number in [errno]; the reply has
    twelve bytes, eight for the offset and four for the error number. *)
Theorem lseek_end_to_end (fd offset whence : Z) (retBuf : list byte)
  (s : Server.session K) (r : Z) (h' : host K) :
  Client.FD_OFFSET <= fd <= INT_MAX ->
  is_off_t offset -> is_int whence ->
  Z.of_nat (length retBuf) = Server.MAX_MSG_LEN + 1 ->
  sys_lseek (fd - Client.FD_OFFSET) offset whence (Server.s_host s)
  = (r, h') ->
  is_off_t r -> is_int (h_errno h') ->
  exists req,
    Z.of_nat (length req) <= Server.MAX_MSG_LEN
    /\ (forall stale,
           step (received req stale) retBuf s
           = Some (Server.Session h'
                     (Server.s_trace s
                      ++ [Server.Send 12 (lseek_reply r (h_errno h'))])))
    /\ (forall (w : world L) rest,
           w_inbox w = lseek_reply r (h_errno h') ++ rest ->
           exists w',
             run lib (CLseek fd offset whence) w = Done r w'
             /\ sent_during w w' = [req]
             /\ h_errno (w_host w') = h_errno h'
             /\ w_inbox w' = rest).
Proof.
  intros Hfd Hoff Hwh Hbuf Hsys Hr He.
  assert (Hfd' : is_int (fd - Client.FD_OFFSET))
    by (unfold is_int, INT_MIN, INT_MAX, Client.FD_OFFSET in *; lia).
  exists (store4 4 ++ store4 (fd - Client.FD_OFFSET) ++ store8 offset
          ++ store4 whence).
  split.
  { rewrite !length_app, !length_store4, length_store8.
    unfold Server.MAX_MSG_LEN. lia. }
  split.
  - intros stale.
    assert (Hlen : (12 < length (lseek_reply r (h_errno h')
                                 ++ skipn 12 retBuf))%nat).
    { rewrite length_app, length_lseek_reply, length_skipn.
      unfold Server.MAX_MSG_LEN in Hbuf. lia. }
    assert (Hfirst : firstn 12 (lseek_reply r (h_errno h')
                                ++ skipn 12 retBuf)
                     = lseek_reply r (h_errno h')).
    { rewrite firstn_app, length_lseek_reply, Nat.sub_diag, firstn_O,
        app_nil_r.
      apply firstn_all2. rewrite length_lseek_reply. lia. }
    rewrite <- Hfirst.
    apply (step_fixed 4 _ stale retBuf _ 12); [lia| |exact Hlen].
    change (fixed_ops 4) with (Server.handle_lseek sys_lseek).
    unfold Server.handle_lseek, received.
    rewrite <- !app_assoc.
    rewrite load_int_store4, (to_int_id _ Hfd').
    rewrite skipn_store4, load_int64_store8, (to_int64_id _ Hoff).
    change (skipn 12 (store4 (fd - Client.FD_OFFSET) ++ store8 offset
                      ++ store4 whence ++ NUL :: stale))
      with (store4 whence ++ NUL :: stale).
    rewrite load_int_store4, (to_int_id _ Hwh), Hsys.
    rewrite put_offset by (unfold Server.MAX_MSG_LEN in Hbuf; lia).
    cbn [obind].
    rewrite put_offset_errno by (unfold Server.MAX_MSG_LEN in Hbuf; lia).
    reflexivity.
  - intros w rest Hin. cbn [run]. unfold Client.lseek.
    replace (fd <? Client.FD_OFFSET) with false
      by (symmetry; apply Z.ltb_ge; lia).
    cbv zeta. unfold bind. rewrite sendRequest_store4.
    erewrite receiveResponse_frame;
      [ | exact Hin | rewrite length_lseek_reply; reflexivity | lia ].
    unfold set_errno, ret. cbv beta iota.
    unfold lseek_reply at 1 2.
    rewrite load_int64_store8, (to_int64_id _ Hr).
    rewrite skipn_store8, load_int_store4_only, (to_int_id _ He).
    eexists. split; [reflexivity|].
    unfold sent_during. cbn [w_sent w_host h_errno w_inbox].
    rewrite skipn_length_app. repeat split.
Qed.

Lemma memcpy_from_at (pre mid post : list byte) (off len : Z) :
  off = Z.of_nat (length pre) -> len = Z.of_nat (length mid) ->
  memcpy_from (pre ++ mid ++ post) off len = Some mid.
Proof. intros -> ->. apply memcpy_from_mid. Qed.

Lemma path_is_chars (pathname : list byte) :
  ~ In NUL pathname ->
  Client.path_len pathname = Z.of_nat (length pathname)
  /\ Client.path_chars pathname = pathname.
Proof.
  intros Hnul. unfold Client.path_chars, Client.path_len, cstring.
  rewrite (strlen_app_nul pathname [] Hnul), Nat2Z.id.
  split; [reflexivity|].
  rewrite firstn_app, Nat.sub_diag, firstn_O, app_nil_r.
  apply firstn_all.
Qed.

Lemma le_combine_store4_only (v : Z) :
  0 <= v < 2 ^ 32 -> le_combine (store4 v) = v.
Proof.
  intros Hv. unfold store4. rewrite le_combine_split.
  change (Z.of_nat 4 * 8) with 32. apply Z.mod_small. exact Hv.
Qed.

(** The path of a request, as the handlers of [open], [stat] and
    [unlink] copy it: the length field gives back the length, and the
    copy gives back the characters. *)
Lemma path_of_request (pathname tail : list byte) :
  Z.of_nat (length pathname) <= Server.MAX_MSG_LEN ->
  le_combine
    (firstn 4 (store4 (Z.of_nat (length pathname)) ++ pathname ++ tail))
  = Z.of_nat (length pathname)
  /\ memcpy_from (store4 (Z.of_nat (length pathname)) ++ pathname ++ tail)
       4 (Z.of_nat (length pathname))
     = Some pathname
  /\ to_int (4 + Z.of_nat (length pathname))
     = 4 + Z.of_nat (length pathname).
Proof.
  unfold Server.MAX_MSG_LEN. intros Hlen. split; [|split].
  - apply le_combine_store4. lia.
  - apply memcpy_from_at; [rewrite length_store4|]; reflexivity.
  - apply to_int_id. unfold is_int, INT_MIN, INT_MAX. lia.
Qed.

(** What the shim has done when a call with one exchange returns. *)
Lemma exchanged_logs (w : world L) (req : list byte) (v e : Z)
  (rest : list byte) :
  is_int e ->
  sent_during w (exchanged w req (reply v e) rest) = [req]
  /\ h_errno (w_host (exchanged w req (reply v e) rest)) = e
  /\ w_inbox (exchanged w req (reply v e) rest) = rest
  /\ copied_during w (exchanged w req (reply v e) rest) = [].
Proof.
  intros He. unfold sent_during, copied_during, exchanged.
  cbn [w_sent w_host h_errno w_inbox w_copied].
  rewrite skipn_length_app, skipn_all, (frame_errno_reply_only _ _ He).
  repeat split.
Qed.

(** X11.  [open] from end to end.  The server opens the path of the
    caller with the caller's flags, and with the caller's mode when the
    flags have [O_CREAT] and the mode 0 otherwise; the buffer it gives to
    [open] holds the characters of the path and then a byte that the
    handler did not write.  The shim returns the descriptor of that
    [open] with the bias of 5000, or [-1], and leaves its error number in
    [errno]. *)
Theorem open_end_to_end (pathname : list byte) (flags mode : Z)
  (retBuf : list byte) (s : Server.session K) (fd : Z) (h' : host K) :
  ~ In NUL pathname ->
  Z.of_nat (length pathname) + 16 <= Server.MAX_MSG_LEN ->
  is_int flags -> 0 <= mode < 2 ^ 32 ->
  Z.of_nat (length retBuf) = Server.MAX_MSG_LEN + 1 ->
  sys_open (pathname ++ [uninit]) flags
    (if Z.land flags (O_CREAT lib) =? 0 then 0 else mode) (Server.s_host s)
  = (fd, h') ->
  is_int fd -> is_int (h_errno h') ->
  exists req,
    Z.of_nat (length req) <= Server.MAX_MSG_LEN
    /\ (forall stale,
           step (received req stale) retBuf s
           = Some (Server.Session h'
                     (Server.s_trace s
                      ++ [Server.Send 8 (reply fd (h_errno h'))])))
    /\ (forall (w : world L) rest,
           w_inbox w = reply fd (h_errno h') ++ rest ->
           exists w',
             run lib (COpen pathname flags mode) w
             = Done (if fd =? -1 then -1
                     else to_int (fd + Client.FD_OFFSET)) w'
             /\ sent_during w w' = [req]
             /\ h_errno (w_host w') = h_errno h'
             /\ w_inbox w' = rest).
Proof.
  intros Hnul Hsize Hflags Hmode Hbuf Hsys Hfd He.
  destruct (path_is_chars pathname Hnul) as [Hplen Hchars].
  set (mode' := if Z.land flags (O_CREAT lib) =? 0 then 0 else mode) in *.
  assert (Hmode' : 0 <= mode' < 2 ^ 32)
    by (unfold mode'; destruct (Z.land flags (O_CREAT lib) =? 0); lia).
  assert (Hreq : open_request (O_CREAT lib) pathname flags mode
                 = store4 0 ++ store4 (Z.of_nat (length pathname))
                   ++ pathname ++ store4 flags ++ store4 mode').
  { unfold open_request. rewrite Hplen, Hchars.
    rewrite to_int_id
      by (unfold is_int, INT_MIN, INT_MAX, Server.MAX_MSG_LEN in *; lia).
    reflexivity. }
  exists (open_request (O_CREAT lib) pathname flags mode).
  split.
  { rewrite Hreq, !length_app, !length_store4. lia. }
  split.
  - intros stale. rewrite Hreq.
    destruct (reply_in_retBuf retBuf fd (h_errno h') Hbuf) as [Hlen Hfirst].
    rewrite <- Hfirst.
    apply (step_fixed 0 _ stale retBuf _ 8); [lia| |exact Hlen].
    change (fixed_ops 0) with (Server.handle_open sys_open uninit).
    unfold Server.handle_open, received. rewrite <- !app_assoc.
    destruct (path_of_request pathname
                (store4 flags ++ store4 mode' ++ NUL :: stale))
      as [Hn [Hpath Hoff]]; [lia|].
    rewrite Hn, Hpath, Hoff. cbn [obind].
    rewrite to_int_id
      by (unfold is_int, INT_MIN, INT_MAX, Server.MAX_MSG_LEN in *; lia).
    assert (Hw2 : memcpy_from
                    (store4 (Z.of_nat (length pathname)) ++ pathname
                     ++ store4 flags ++ store4 mode' ++ NUL :: stale)
                    (4 + Z.of_nat (length pathname)) 4
                  = Some (store4 flags)).
    { rewrite app_assoc. apply memcpy_from_at.
      - rewrite length_app, length_store4. lia.
      - rewrite length_store4. reflexivity. }
    assert (Hw3 : memcpy_from
                    (store4 (Z.of_nat (length pathname)) ++ pathname
                     ++ store4 flags ++ store4 mode' ++ NUL :: stale)
                    (4 + Z.of_nat (length pathname) + 4) 4
                  = Some (store4 mode')).
    { rewrite app_assoc, app_assoc. apply memcpy_from_at.
      - rewrite !length_app, !length_store4. lia.
      - rewrite length_store4. reflexivity. }
    rewrite Hw2. cbn [obind]. rewrite Hw3. cbn [obind].
    rewrite load_int_store4_only, (to_int_id _ Hflags).
    rewrite (le_combine_store4_only _ Hmode'), Hsys.
    rewrite put_header_reply by (unfold Server.MAX_MSG_LEN in Hbuf; lia).
    reflexivity.
  - intros w rest Hin. cbn [run].
    rewrite (open_exchange (O_CREAT lib) pathname flags mode w
               (reply fd (h_errno h')) rest Hin (length_reply _ _)).
    rewrite (frame_val_reply_only _ _ Hfd).
    eexists. split.
    + destruct (fd =? -1) eqn:E; [|reflexivity].
      apply Z.eqb_eq in E. rewrite E. reflexivity.
    + destruct (exchanged_logs w
                  (open_request (O_CREAT lib) pathname flags mode) fd
                  (h_errno h') rest He) as [H1 [H2 [H3 _]]].
      split; [exact H1|split; [exact H2|exact H3]].
Qed.

(** X12.  [stat] from end to end.  The server calls [stat] on the path
    of the caller and on a copy of the caller's structure; the shim
    returns the value of that [stat] and leaves its error number in
    [errno], and it stores nothing in the caller's structure: the reply
    has the value and the error number only. *)
Theorem stat_end_to_end (pathname statbuf : list byte)
  (retBuf : list byte) (s : Server.session K) (r : Z) (h' : host K) :
  ~ In NUL pathname ->
  Z.of_nat (length statbuf) = stat_size lib ->
  Z.of_nat (length pathname) + 8 + stat_size lib <= Server.MAX_MSG_LEN ->
  Z.of_nat (length retBuf) = Server.MAX_MSG_LEN + 1 ->
  sys_stat (pathname ++ [uninit]) statbuf (Server.s_host s) = (r, h') ->
  is_int r -> is_int (h_errno h') ->
  exists req,
    Z.of_nat (length req) <= Server.MAX_MSG_LEN
    /\ (forall stale,
           step (received req stale) retBuf s
           = Some (Server.Session h'
                     (Server.s_trace s
                      ++ [Server.Send 8 (reply r (h_errno h'))])))
    /\ (forall (w : world L) rest,
           w_inbox w = reply r (h_errno h') ++ rest ->
           exists w',
             run lib (CStat pathname statbuf) w = Done r w'
             /\ sent_during w w' = [req]
             /\ h_errno (w_host w') = h_errno h'
             /\ w_inbox w' = rest
             /\ copied_during w w' = []).
Proof.
  intros Hnul Hstat Hsize Hbuf Hsys Hr He.
  destruct (path_is_chars pathname Hnul) as [Hplen Hchars].
  exists (store4 5 ++ store4 (Z.of_nat (length pathname)) ++ pathname
          ++ statbuf).
  split.
  { rewrite !length_app, !length_store4. lia. }
  split.
  - intros stale.
    destruct (reply_in_retBuf retBuf r (h_errno h') Hbuf) as [Hlen Hfirst].
    rewrite <- Hfirst.
    apply (step_fixed 5 _ stale retBuf _ 8); [lia| |exact Hlen].
    change (fixed_ops 5)
      with (Server.handle_stat sys_stat (stat_size lib) uninit).
    unfold Server.handle_stat, received. rewrite <- !app_assoc.
    destruct (path_of_request pathname (statbuf ++ NUL :: stale))
      as [Hn [Hpath Hoff]]; [lia|].
    rewrite Hn, Hpath, Hoff. cbn [obind].
    assert (Hw2 : memcpy_from
                    (store4 (Z.of_nat (length pathname)) ++ pathname
                     ++ statbuf ++ NUL :: stale)
                    (4 + Z.of_nat (length pathname)) (stat_size lib)
                  = Some statbuf).
    { rewrite app_assoc. apply memcpy_from_at.
      - rewrite length_app, length_store4. lia.
      - symmetry. exact Hstat. }
    rewrite Hw2. cbn [obind]. rewrite Hsys.
    rewrite put_header_reply by (unfold Server.MAX_MSG_LEN in Hbuf; lia).
    reflexivity.
  - intros w rest Hin. cbn [run]. unfold Client.stat.
    rewrite Hplen, Hchars.
    rewrite firstn_all2 by lia.
    cbv zeta. unfold bind. rewrite sendRequest_store4.
    erewrite receiveResponse_frame;
      [ | exact Hin | rewrite length_reply; reflexivity | lia ].
    unfold set_errno, ret. cbv beta iota.
    fold (frame_errno (reply r (h_errno h'))).
    fold (frame_val (reply r (h_errno h'))).
    rewrite (frame_val_reply_only _ _ Hr).
    eexists. split; [reflexivity|].
    apply (exchanged_logs w _ r (h_errno h') rest He).
Qed.

(** X13.  [unlink] from end to end.  The server unlinks the path of the
    caller, and the shim returns the value of that [unlink] and leaves
    its error number in [errno]. *)
Theorem unlink_end_to_end (pathname : list byte)
  (retBuf : list byte) (s : Server.session K) (r : Z) (h' : host K) :
  ~ In NUL pathname ->
  Z.of_nat (length pathname) + 8 <= Server.MAX_MSG_LEN ->
  Z.of_nat (length retBuf) = Server.MAX_MSG_LEN + 1 ->
  sys_unlink (pathname ++ [uninit]) (Server.s_host s) = (r, h') ->
  is_int r -> is_int (h_errno h') ->
  exists req,
    Z.of_nat (length req) <= Server.MAX_MSG_LEN
    /\ (forall stale,
           step (received req stale) retBuf s
           = Some (Server.Session h'
                     (Server.s_trace s
                      ++ [Server.Send 8 (reply r (h_errno h'))])))
    /\ (forall (w : world L) rest,
           w_inbox w = reply r (h_errno h') ++ rest ->
           exists w',
             run lib (CUnlink pathname) w = Done r w'
             /\ sent_during w w' = [req]
             /\ h_errno (w_host w') = h_errno h'
             /\ w_inbox w' = rest).
Proof.
  intros Hnul Hsize Hbuf Hsys Hr He.
  destruct (path_is_chars pathname Hnul) as [Hplen Hchars].
  exists (store4 6 ++ store4 (Z.of_nat (length pathname)) ++ pathname).
  split.
  { rewrite !length_app, !length_store4. lia. }
  split.
  - intros stale.
    destruct (reply_in_retBuf retBuf r (h_errno h') Hbuf) as [Hlen Hfirst].
    rewrite <- Hfirst.
    apply (step_fixed 6 _ stale retBuf _ 8); [lia| |exact Hlen].
    change (fixed_ops 6) with (Server.handle_unlink sys_unlink uninit).
    unfold Server.handle_unlink, received. rewrite <- !app_assoc.
    destruct (path_of_request pathname (NUL :: stale))
      as [Hn [Hpath _]]; [lia|].
    rewrite Hn, Hpath. cbn [obind]. rewrite Hsys.
    rewrite put_header_reply by (unfold Server.MAX_MSG_LEN in Hbuf; lia).
    reflexivity.
  - intros w rest Hin. cbn [run]. unfold Client.unlink.
    rewrite Hplen, Hchars.
    cbv zeta. unfold bind. rewrite sendRequest_store4.
    erewrite receiveResponse_frame;
      [ | exact Hin | rewrite length_reply; reflexivity | lia ].
    unfold set_errno, ret. cbv beta iota.
    fold (frame_errno (reply r (h_errno h'))).
    fold (frame_val (reply r (h_errno h'))).
    rewrite (frame_val_reply_only _ _ Hr).
    eexists. split; [reflexivity|].
    destruct (exchanged_logs w
                (store4 6 ++ store4 (Z.of_nat (length pathname))
                 ++ pathname) r (h_errno h') rest He) as [H1 [H2 [H3 _]]].
    split; [exact H1|split; [exact H2|exact H3]].
Qed.

Lemma helper_ret_reply_only (v e : Z) :
  is_int v -> is_int e ->
  helper_ret (reply v e) = if e =? 0 then v else -1.
Proof.
  intros Hv He. unfold helper_ret.
  rewrite (frame_val_reply_only _ _ Hv), (frame_errno_reply_only _ _ He).
  reflexivity.
Qed.

(** X14.  One sub-frame of [write] from end to end.  For a chunk that
    the loop of [write] may ask for, the server writes the bytes of the
    caller's buffer, as many as the chunk has, to the descriptor of the
    request; [writeHelper] returns the value of that [write] when its
    error number is 0 and [-1] otherwise, and leaves the error number in
    [errno]. *)
Theorem write_chunk_end_to_end (fd : Z) (buf : list byte) (count : Z)
  (retBuf : list byte) (s : Server.session K) (r : Z) (h' : host K) :
  is_int fd ->
  0 < count <= Client.MAX_MSG_LEN - 12 ->
  count <= Z.of_nat (length buf) ->
  Z.of_nat (length retBuf) = Server.MAX_MSG_LEN + 1 ->
  sys_write fd (firstn (Z.to_nat count) buf) count (Server.s_host s)
  = (r, h') ->
  is_int r -> is_int (h_errno h') ->
  exists req,
    Z.of_nat (length req) <= Server.MAX_MSG_LEN
    /\ (forall stale,
           step (received req stale) retBuf s
           = Some (Server.Session h'
                     (Server.s_trace s
                      ++ [Server.Send 8 (reply r (h_errno h'))])))
    /\ (forall (w : world L) rest,
           w_inbox w = reply r (h_errno h') ++ rest ->
           exists w',
             Client.writeHelper fd buf count w
             = Done (if h_errno h' =? 0 then r else -1) w'
             /\ sent_during w w' = [req]
             /\ h_errno (w_host w') = h_errno h'
             /\ w_inbox w' = rest).
Proof.
  unfold Client.MAX_MSG_LEN.
  intros Hfd Hcount Hroom Hbuf Hsys Hr He.
  assert (Hcint : is_int count)
    by (unfold is_int, INT_MIN, INT_MAX; lia).
  assert (Hdata : Z.of_nat (length (firstn (Z.to_nat count) buf)) = count)
    by (rewrite firstn_length_le; lia).
  exists (write_request fd buf count).
  split.
  { unfold write_request, Server.MAX_MSG_LEN.
    rewrite !length_app, !length_store4. lia. }
  split.
  - intros stale.
    destruct (reply_in_retBuf retBuf r (h_errno h') Hbuf) as [Hlen Hfirst].
    rewrite <- Hfirst. unfold write_request.
    apply (step_fixed 2 _ stale retBuf _ 8); [lia| |exact Hlen].
    change (fixed_ops 2) with (Server.handle_write sys_write).
    unfold Server.handle_write, received. rewrite <- !app_assoc.
    rewrite load_int_store4, (to_int_id _ Hfd).
    rewrite skipn_store4, load_int_store4, (to_int_id _ Hcint).
    rewrite to_size_t_id by (unfold is_size_t; lia).
    assert (Hw : memcpy_from
                   (store4 fd ++ store4 count
                    ++ firstn (Z.to_nat count) buf ++ NUL :: stale) 8 count
                 = Some (firstn (Z.to_nat count) buf)).
    { rewrite app_assoc. apply memcpy_from_at.
      - rewrite length_app, !length_store4. reflexivity.
      - symmetry. exact Hdata. }
    rewrite Hw. cbn [obind]. rewrite Hsys.
    rewrite put_header_reply by (unfold Server.MAX_MSG_LEN in Hbuf; lia).
    reflexivity.
  - intros w rest Hin.
    rewrite (writeHelper_exchange fd buf count w (reply r (h_errno h')) rest
               Hin (length_reply _ _)).
    rewrite (helper_ret_reply_only _ _ Hr He).
    eexists. split; [reflexivity|].
    destruct (exchanged_logs w (write_request fd buf count) r (h_errno h')
                rest He) as [H1 [H2 [H3 _]]].
    split; [exact H1|split; [exact H2|exact H3]].
Qed.

Lemma memcpy_from_all (data : list byte) :
  memcpy_from data 0 (Z.of_nat (length data)) = Some data.
Proof.
  pose proof (memcpy_from_at [] data [] 0 (Z.of_nat (length data))
                eq_refl eq_refl) as H.
  cbn [app] in H. rewrite app_nil_r in H. exact H.
Qed.

(** The reply that [handle_read] leaves in [retBuf]. *)
Lemma put_read_reply (retBuf data : list byte) (v e : Z) :
  (8 + length data <= length retBuf)%nat ->
  (retBuf <- Server.put_header retBuf v e ;;
   memcpy_to retBuf 8 data)%mem
  = Some ((reply v e ++ data) ++ skipn (8 + length data) retBuf).
Proof.
  intros H. rewrite put_header_reply by lia. cbn [obind].
  pose proof (memcpy_to_inside (reply v e ++ skipn 8 retBuf) 8 data) as H8.
  change (Z.of_nat 8) with 8 in H8.
  rewrite H8 by (rewrite length_app, length_reply, length_skipn; lia).
  rewrite firstn_app, length_reply, Nat.sub_diag, firstn_O, app_nil_r.
  rewrite firstn_all2 by (rewrite length_reply; lia).
  rewrite skipn_app, length_reply.
  rewrite skipn_all2 by (rewrite length_reply; lia).
  replace (8 + length data - 8)%nat with (length data) by lia.
  cbn [app]. rewrite skipn_skipn.
  replace (length data + 8)%nat with (8 + length data)%nat by lia.
  rewrite <- app_assoc. reflexivity.
Qed.

(** [handle_read] on a request the shim may send. *)
Lemma handle_read_reply (fd count : Z) (tail retBuf data : list byte)
  (h h' : host K) (r : Z) :
  is_int fd -> 0 <= count <= INT_MAX ->
  sys_read fd count h = ((r, data), h') ->
  Z.of_nat (length data) = count -> is_int r ->
  Server.handle_read sys_read (store4 fd ++ store4 count ++ tail) retBuf h
  = (out <- (retBuf <- Server.put_header retBuf r (h_errno h') ;;
             memcpy_to retBuf 8 data) ;;
     Some ((out, to_size_t (to_int (8 + count))), h'))%mem.
Proof.
  intros Hfd Hcount Hsys Hdata Hr.
  assert (Hcint : is_int count)
    by (unfold is_int, INT_MIN, INT_MAX in *; lia).
  unfold Server.handle_read.
  rewrite load_int_store4, (to_int_id _ Hfd).
  rewrite skipn_store4, load_int_store4, (to_int_id _ Hcint).
  rewrite to_size_t_id by (unfold is_size_t, INT_MAX in *; lia).
  rewrite Hsys, (to_int_id _ Hr).
  destruct (Server.put_header retBuf r (h_errno h')) as [b|];
    [|reflexivity].
  cbn [obind]. rewrite <- Hdata, memcpy_from_all. reflexivity.
Qed.

(** X15.  One sub-frame of [read] from end to end.  For a chunk that the
    loop of [read] may ask for, the server reads into a buffer of that
    many bytes and sends the value of [read], the error number and the
    whole buffer, which are the [8 + count] bytes that [readHelper]
    waits for.  [readHelper] stores the whole buffer in the caller's
    memory, whatever [read] returned, and returns the value of [read]
    when its error number is 0 and [-1] otherwise. *)
Theorem read_chunk_end_to_end (fd dst count : Z) (retBuf : list byte)
  (s : Server.session K) (r : Z) (data : list byte) (h' : host K) :
  is_int fd ->
  0 < count <= Client.MAX_MSG_LEN - 8 ->
  Z.of_nat (length retBuf) = Server.MAX_MSG_LEN + 1 ->
  sys_read fd count (Server.s_host s) = ((r, data), h') ->
  Z.of_nat (length data) = count ->
  is_int r -> is_int (h_errno h') ->
  exists req,
    Z.of_nat (length req) <= Server.MAX_MSG_LEN
    /\ (forall stale,
           step (received req stale) retBuf s
           = Some (Server.Session h'
                     (Server.s_trace s
                      ++ [Server.Send (8 + count)
                            (reply r (h_errno h') ++ data)])))
    /\ (forall (w : world L) rest,
           w_inbox w = (reply r (h_errno h') ++ data) ++ rest ->
           exists w',
             Client.readHelper fd dst count w
             = Done (if h_errno h' =? 0 then r else -1) w'
             /\ sent_during w w' = [req]
             /\ h_errno (w_host w') = h_errno h'
             /\ w_inbox w' = rest
             /\ copied_during w w' = [(dst, data)]).
Proof.
  unfold Client.MAX_MSG_LEN.
  intros Hfd Hcount Hbuf Hsys Hdata Hr He.
  assert (HF : Z.of_nat (length (reply r (h_errno h') ++ data)) = 8 + count)
    by (rewrite length_app, length_reply; lia).
  exists (read_request fd count).
  split.
  { unfold read_request, Server.MAX_MSG_LEN.
    rewrite !length_app, !length_store4. cbn. lia. }
  split.
  - intros stale. unfold Server.MAX_MSG_LEN in Hbuf.
    assert (Hput := put_read_reply retBuf data r (h_errno h')
                      ltac:(lia)).
    set (out := (reply r (h_errno h') ++ data)
                ++ skipn (8 + length data) retBuf) in *.
    assert (Hfirst : firstn (8 + length data) out
                     = reply r (h_errno h') ++ data).
    { unfold out.
      rewrite firstn_app.
      replace (8 + length data
               - length (reply r (h_errno h') ++ data))%nat with 0%nat
        by (rewrite length_app, length_reply; lia).
      rewrite firstn_O, app_nil_r.
      apply firstn_all2. rewrite length_app, length_reply. lia. }
    rewrite <- Hfirst.
    replace (8 + count) with (Z.of_nat (8 + length data)) by lia.
    unfold read_request.
    apply (step_fixed 1 _ stale retBuf out (8 + length data)); [lia| |].
    + change (fixed_ops 1) with (Server.handle_read sys_read).
      unfold received. rewrite <- !app_assoc.
      rewrite (handle_read_reply fd count _ retBuf data _ h' r Hfd
                 ltac:(unfold INT_MAX; lia) Hsys Hdata Hr).
      rewrite Hput. cbn [obind].
      rewrite to_int_id by (unfold is_int, INT_MIN, INT_MAX; lia).
      rewrite to_size_t_id by (unfold is_size_t; lia).
      replace (8 + count) with (Z.of_nat (8 + length data)) by lia.
      reflexivity.
    + unfold out. rewrite !length_app, length_reply, length_skipn. lia.
  - intros w rest Hin.
    rewrite (readHelper_exchange fd dst count w
               (reply r (h_errno h') ++ data) rest ltac:(lia) Hin HF).
    unfold helper_ret, frame_val, frame_errno.
    fold (frame_val (reply r (h_errno h') ++ data)).
    fold (frame_errno (reply r (h_errno h') ++ data)).
    rewrite frame_val_reply, frame_errno_reply.
    rewrite (to_int_id _ Hr), (to_int_id _ He).
    eexists. split; [reflexivity|].
    unfold sent_during, copied_during, exchanged_read.
    cbn [w_sent w_host h_errno w_inbox w_copied].
    rewrite !skipn_length_app.
    fold (frame_errno (reply r (h_errno h') ++ data)).
    rewrite frame_errno_reply, (to_int_id _ He).
    repeat split.
Qed.

(** X16.  [handle_read] does not compare the count of the request with
    the size of the reply buffer.  A request that asks for one byte more
    than the largest chunk of the shim fills [retBuf] to its last byte,
    and [main] stores the terminator after the end of [retBuf]; for a
    larger count the handler copies past the end of [retBuf]. *)
Theorem read_count_beyond_reply_buffer (fd count : Z)
  (stale retBuf : list byte) (s : Server.session K) (r : Z)
  (data : list byte) (h' : host K) :
  is_int fd ->
  Server.MAX_MSG_LEN - 8 < count <= INT_MAX - 8 ->
  Z.of_nat (length retBuf) = Server.MAX_MSG_LEN + 1 ->
  sys_read fd count (Server.s_host s) = ((r, data), h') ->
  Z.of_nat (length data) = count ->
  is_int r ->
  (count = Server.MAX_MSG_LEN - 7 ->
   step (received (read_request fd count) stale) retBuf s
   = Some (Server.Session h'
             (Server.s_trace s
              ++ [Server.StoreOutside (Server.MAX_MSG_LEN + 1);
                  Server.Send (Server.MAX_MSG_LEN + 1)
                    (reply r (h_errno h') ++ data)])))
  /\ (Server.MAX_MSG_LEN - 7 < count ->
      step (received (read_request fd count) stale) retBuf s = None).
Proof.
  unfold Server.MAX_MSG_LEN.
  intros Hfd Hcount Hbuf Hsys Hdata Hr.
  assert (Hop : is_int 1) by (unfold is_int, INT_MIN, INT_MAX; lia).
  assert (Hstep :
    step (received (read_request fd count) stale) retBuf s
    = ('(out, h) <- Server.handle_read sys_read
                      (store4 fd ++ store4 count ++ NUL :: stale) retBuf
                      (Server.s_host s) ;;
       Server.serve sys_getdirentries sys_getdirtree
         (fun _ _ _ _ => (out, h))
         (received (read_request fd count) stale) retBuf s)%mem).
  { unfold Server.request_step, read_request.
    rewrite length_received_tail, load_int_store4, (to_int_id 1 Hop).
    reflexivity. }
  rewrite Hstep.
  rewrite (handle_read_reply fd count _ retBuf data _ h' r Hfd
             ltac:(lia) Hsys Hdata Hr).
  rewrite to_int_id by (unfold is_int, INT_MIN, INT_MAX in *; lia).
  rewrite to_size_t_id by (unfold is_size_t, INT_MAX in *; lia).
  split.
  - intros Hc.
    rewrite (put_read_reply retBuf data r (h_errno h')) by lia.
    cbn [obind].
    replace (skipn (8 + length data) retBuf) with (@nil byte)
      by (symmetry; apply skipn_all2; lia).
    rewrite app_nil_r.
    unfold Server.serve, read_request.
    rewrite length_received_tail, load_int_store4, (to_int_id 1 Hop).
    change ((0 <=? 1) && (1 <=? 6)) with true. cbn [obind].
    replace (8 + count
             <? Z.of_nat (length (reply r (h_errno h') ++ data)))
      with false
      by (symmetry; apply Z.ltb_ge; rewrite length_app, length_reply; lia).
    unfold Server.send. cbn [Server.s_host Server.s_trace].
    replace (8 + count
             <=? Z.of_nat (length (reply r (h_errno h') ++ data)))
      with true
      by (symmetry; apply Z.leb_le; rewrite length_app, length_reply; lia).
    rewrite firstn_all2 by (rewrite length_app, length_reply; lia).
    rewrite <- app_assoc, Hc. reflexivity.
  - intros Hc.
    rewrite put_header_reply by lia. cbn [obind].
    unfold memcpy_to.
    replace ((0 <=? 8)
             && (8 + Z.of_nat (length data)
                 <=? Z.of_nat (length (reply r (h_errno h')
                                       ++ skipn 8 retBuf)))) with false.
    2: { symmetry. apply andb_false_intro2. apply Z.leb_gt.
         rewrite length_app, length_reply, length_skipn. lia. }
    reflexivity.
Qed.

(** X17.  [getdirentries] from end to end, when the call of the server
    succeeds with [n > 0] bytes and the error number of the server is 0.
    The server reads the entries of the descriptor without the bias of
    5000 and sends the header and then the [n] bytes; the shim returns
    [n] and stores the [n] bytes and a NUL in the caller's buffer. *)
Theorem getdirentries_end_to_end (fd nbyte basep : Z) (retBuf : list byte)
  (s : Server.session K) (n : Z) (data : list byte) (h' : host K) :
  Client.FD_OFFSET <= fd <= INT_MAX ->
  is_int nbyte -> is_off_t basep ->
  Z.of_nat (length retBuf) = Server.MAX_MSG_LEN + 1 ->
  sys_getdirentries (fd - Client.FD_OFFSET) nbyte basep (Server.s_host s)
  = ((n, data), h') ->
  0 < n <= Server.MAX_MSG_LEN -> Z.of_nat (length data) = n ->
  h_errno h' = 0 ->
  exists req,
    Z.of_nat (length req) <= Server.MAX_MSG_LEN
    /\ (forall stale,
           step (received req stale) retBuf s
           = Some (Server.Session h'
                     (Server.s_trace s
                      ++ [Server.Send 8 (reply n 0); Server.Send n data])))
    /\ (forall (w : world L) rest,
           w_inbox w = reply n 0 ++ data ++ rest ->
           exists w',
             run lib (CGetdirentries fd nbyte basep) w = Done n w'
             /\ sent_during w w' = [req]
             /\ h_errno (w_host w') = 0
             /\ w_inbox w' = rest
             /\ copied_during w w' = [(0, data ++ [NUL])]).
Proof.
  unfold Server.MAX_MSG_LEN.
  intros Hfd Hnbyte Hbasep Hbuf Hsys Hn Hdata Herr.
  assert (Hfd' : is_int (fd - Client.FD_OFFSET))
    by (unfold is_int, INT_MIN, INT_MAX, Client.FD_OFFSET in *; lia).
  assert (Hnint : is_int n) by (unfold is_int, INT_MIN, INT_MAX; lia).
  assert (Hop : is_int 7) by (unfold is_int, INT_MIN, INT_MAX; lia).
  exists (store4 7 ++ store4 (fd - Client.FD_OFFSET) ++ store4 nbyte
          ++ store8 basep).
  split.
  { rewrite !length_app, !length_store4, length_store8. lia. }
  split.
  - intros stale.
    unfold Server.request_step, Server.serve, received.
    rewrite <- !app_assoc.
    rewrite load_int_store4, (to_int_id 7 Hop).
    change ((0 <=? 7) && (7 <=? 6)) with false.
    change (7 =? 7) with true. cbv iota.
    unfold Server.handle_getdirentries.
    rewrite skipn_store4.
    rewrite load_int_store4, (to_int_id _ Hfd').
    rewrite skipn_store4, load_int_store4, (to_int_id _ Hnbyte).
    change (skipn 8 (store4 (fd - Client.FD_OFFSET) ++ store4 nbyte
                     ++ store8 basep ++ NUL :: stale))
      with (store8 basep ++ NUL :: stale).
    rewrite load_int64_store8, (to_int64_id _ Hbasep), Hsys, Herr.
    rewrite to_size_t_id by (unfold is_size_t; lia).
    cbn [obind].
    replace (n <? Z.of_nat (length (data ++ skipn (length data) retBuf)))
      with true
      by (symmetry; apply Z.ltb_lt; rewrite length_app, length_skipn; lia).
    unfold Server.send. cbn [Server.s_host Server.s_trace].
    fold (reply n 0). rewrite length_reply.
    change (8 <=? Z.of_nat 8) with true.
    change (firstn (Z.to_nat 8) (reply n 0)) with (reply n 0).
    replace (Z.to_nat n) with (length data) by lia.
    rewrite firstn_app, Nat.sub_diag, firstn_O, app_nil_r, firstn_all.
    replace (n <=? Z.of_nat
                     (length (data ++ NUL :: skipn (S (length data))
                                (data ++ skipn (length data) retBuf))))
      with true
      by (symmetry; apply Z.leb_le; rewrite length_app; lia).
    rewrite firstn_app, Nat.sub_diag, firstn_O, app_nil_r, firstn_all.
    rewrite <- app_assoc. reflexivity.
  - intros w rest Hin. cbn [run]. unfold Client.getdirentries.
    replace (fd <? Client.FD_OFFSET) with false
      by (symmetry; apply Z.ltb_ge; lia).
    cbv zeta. unfold bind. rewrite !sendRequest_store4.
    erewrite receiveResponse_frame;
      [ | exact Hin | rewrite length_reply; reflexivity | lia ].
    unfold set_errno, get_errno, ret. cbv beta iota. cbn [w_host h_errno].
    fold (frame_errno (reply n 0)). fold (frame_val (reply n 0)).
    rewrite (frame_val_reply_only _ _ Hnint).
    rewrite frame_errno_reply_only
      by (unfold is_int, INT_MIN, INT_MAX; lia).
    change (0 =? 0) with true. cbn [negb].
    rewrite to_size_t_id by (unfold is_size_t; lia).
    erewrite receiveResponse_frame;
      [ | cbn [w_inbox]; reflexivity | exact Hdata | lia ].
    unfold copy_out. cbv beta iota.
    eexists. split; [reflexivity|].
    unfold sent_during, copied_during.
    cbn [w_sent w_copied w_inbox w_host h_errno].
    rewrite !skipn_length_app. repeat split.
Qed.

(** The exchange of [getdirtree] on the bytes of a tree. *)
Lemma getdirtree_exchange (T : dirtreenode) (path rest : list byte)
  (w : world L) :
  well_formed T ->
  Z.of_nat (length (tree_bytes T)) <= INT_MAX ->
  w_inbox w
  = store4 (Z.of_nat (length (tree_bytes T))) ++ tree_bytes T ++ rest ->
  exists w',
    Client.getdirtree path w = Done (Some T) w'
    /\ sent_during w w'
       = [store4 8 ++ store4 (Client.path_len path)
          ++ Client.path_chars path]
    /\ w_host w' = w_host w
    /\ w_inbox w' = rest.
Proof.
  intros Hwf Hmax Hin.
  pose proof (length_tree_bytes T) as Hmin.
  unfold Client.getdirtree, bind.
  rewrite sendRequest_store4.
  erewrite receiveResponse_frame;
    [ | exact Hin | rewrite length_store4; reflexivity | lia ].
  rewrite load_int_store4_only, to_int_of_nat by exact Hmax.
  assert (Hsize : to_size_t (Z.of_nat (length (tree_bytes T)))
                  = Z.of_nat (length (tree_bytes T))).
  { unfold to_size_t. apply Z.mod_small. unfold INT_MAX in Hmax. lia. }
  rewrite Hsize.
  erewrite receiveResponse_frame;
    [ | cbn [w_inbox]; reflexivity | reflexivity | lia ].
  assert (Hfuel : (length (tree_bytes T) < length (tree_bytes T ++ [NUL]))%nat)
    by (rewrite length_app; cbn [length]; lia).
  pose proof (deserialize_tree_bytes T Hwf _ Hfuel [] [NUL]) as Hde.
  cbn [app length] in Hde. change (Z.of_nat 0) with 0 in Hde.
  rewrite Z.add_0_l in Hde.
  rewrite Hde by exact Hmax.
  eexists. split; [reflexivity|].
  unfold sent_during. cbn [w_sent w_host w_inbox].
  rewrite skipn_length_app. repeat split.
Qed.

(** X18.  [getdirtree] from end to end.  When the [getdirtree] of the
    server returns a tree whose bytes fit the reply buffer, the server
    sends the length of the serialized tree and then the tree, and the
    shim returns the same tree; the path that the server walks is the
    path of the caller. *)
Theorem getdirtree_end_to_end (path : list byte) (T : dirtreenode)
  (retBuf : list byte) (s : Server.session K) (h' : host K) :
  ~ In NUL path ->
  Z.of_nat (length path) + 8 <= Server.MAX_MSG_LEN ->
  Z.of_nat (length retBuf) = Server.MAX_MSG_LEN + 1 ->
  well_formed T ->
  Z.of_nat (length (tree_bytes T)) <= Server.MAX_MSG_LEN ->
  sys_getdirtree path (Server.s_host s) = (Some T, h') ->
  exists req,
    Z.of_nat (length req) <= Server.MAX_MSG_LEN
    /\ (forall stale,
           step (received req stale) retBuf s
           = Some (Server.Session h'
                     (Server.s_trace s
                      ++ [Server.Send 4
                            (store4 (Z.of_nat (length (tree_bytes T))));
                          Server.Send (Z.of_nat (length (tree_bytes T)))
                            (tree_bytes T)])))
    /\ (forall (w : world L) rest,
           w_inbox w
           = store4 (Z.of_nat (length (tree_bytes T)))
             ++ tree_bytes T ++ rest ->
           exists w',
             Client.getdirtree path w = Done (Some T) w'
             /\ sent_during w w' = [req]
             /\ w_inbox w' = rest).
Proof.
  unfold Server.MAX_MSG_LEN.
  intros Hnul Hsize Hbuf Hwf Htree Hsys.
  destruct (path_is_chars path Hnul) as [Hplen Hchars].
  assert (Hop : is_int 8) by (unfold is_int, INT_MIN, INT_MAX; lia).
  exists (store4 8 ++ store4 (Z.of_nat (length path)) ++ path).
  split.
  { rewrite !length_app, !length_store4. lia. }
  split.
  - intros stale.
    unfold Server.request_step, received. rewrite <- !app_assoc.
    rewrite load_int_store4, (to_int_id 8 Hop).
    change ((0 <=? 8) && (8 <=? 6)) with false. cbv iota.
    apply serve_getdirtree_trace.
    + exact Hwf.
    + unfold INT_MAX. lia.
    + rewrite load_int_store4. apply to_int_id. exact Hop.
    + rewrite skipn_store4.
      rewrite le_combine_store4 by lia.
      rewrite skipn_store4, Nat2Z.id.
      rewrite firstn_app, Nat.sub_diag, firstn_O, app_nil_r, firstn_all.
      exact Hsys.
  - intros w rest Hin.
    destruct (getdirtree_exchange T path rest w Hwf
                ltac:(unfold INT_MAX; lia) Hin)
      as [w' [Hres [Hsent [_ Hrest]]]].
    exists w'. rewrite Hplen, Hchars in Hsent.
    split; [exact Hres|split; [exact Hsent|exact Hrest]].
Qed.


End EndToEnd.

(** ** The further properties at concrete inputs *)

Lemma read_returns_accumulated_count_witness :
  exists r w',
    Client.read (orig_read example_locals) 5003 2 read_two_bytes_world
    = Done r w'
    /\ r = read_result (rcvd_during read_two_bytes_world w')
    /\ Forall carries_data
         (removelast (rcvd_during read_two_bytes_world w'))
    /\ length (sent_during read_two_bytes_world w')
       = length (rcvd_during read_two_bytes_world w').
Proof.
  eexists. eexists. split; [vm_compute; reflexivity|].
  eapply (read_returns_accumulated_count (orig_read example_locals) 5003 2
            read_two_bytes_world).
  - unfold Client.FD_OFFSET. lia.
  - unfold is_size_t. lia.
  - vm_compute. reflexivity.
Defined.

Ltac closed_forall tac :=
  match goal with
  | |- Forall _ ?l =>
      let l' := eval vm_compute in l in
      change l with l'
  end;
  repeat (constructor; [cbn [fst snd]; tac|]);
  try constructor.

Lemma read_copies_inside_buffer_witness :
  Forall (inside 2)
    (copied_during read_two_bytes_world
       (final (Client.read (orig_read example_locals) 5003 2
                 read_two_bytes_world))).
Proof.
  apply read_copies_inside_buffer.
  - unfold Client.FD_OFFSET. lia.
  - unfold INT_MAX. lia.
  - closed_forall ltac:(right; vm_compute; split; discriminate).
Defined.

Lemma read_loop_terminates_witness :
  Z.of_nat
    (length
       (rcvd_during read_two_bytes_world
          (final (Client.read (orig_read example_locals) 5003 2
                    read_two_bytes_world))))
  <= 2.
Proof.
  apply (read_loop_terminates (orig_read example_locals) 5003 2
           read_two_bytes_world).
  - unfold Client.FD_OFFSET. lia.
  - unfold is_size_t. lia.
  - closed_forall ltac:(right; vm_compute; split; discriminate).
Defined.


Lemma write_spins_on_zero_acknowledgements_witness :
  exists w',
    Client.write (orig_write example_locals) 5003 [Byte.x41; Byte.x42] 2
      zero_acks_world
    = Blocked w'
    /\ length (sent_during zero_acks_world w') = 3%nat
    /\ rcvd_during zero_acks_world w' = repeat (reply 0 0) 2.
Proof.
  apply (write_spins_on_zero_acknowledgements (orig_write example_locals)
           5003 [Byte.x41; Byte.x42] 2 2 zero_acks_world).
  - unfold Client.FD_OFFSET. lia.
  - unfold is_size_t. lia.
  - lia.
  - reflexivity.
Defined.

Lemma sub_frames_within_max_msg_len_witness :
  Forall (fun req => Z.of_nat (length req) <= Client.MAX_MSG_LEN)
    (sent_during two_replies_world
       (final (Client.write (orig_write example_locals) 5003
                 [Byte.x41; Byte.x42] 2 two_replies_world))).
Proof.
  apply (sub_frames_within_max_msg_len (orig_read example_locals)
           (orig_write example_locals) 5003 2 [Byte.x41; Byte.x42]
           two_replies_world).
  - unfold Client.FD_OFFSET. lia.
  - unfold is_size_t. lia.
Defined.


Lemma getdirentries_stores_data_and_nul_witness :
  (exists w',
      Client.getdirentries (orig_getdirentries example_locals) 5003 4096 0
        entries_world
      = Done 2 w'
      /\ copied_during entries_world w' = [(0, [Byte.x41; Byte.x42] ++ [NUL])]
      /\ w_inbox w' = [Byte.x43])
  /\ (exists w',
        Client.getdirentries (orig_getdirentries example_locals) 5003 4096 0
          entries_error_world
        = Done (-1) w'
        /\ copied_during entries_error_world w' = []
        /\ h_errno (w_host w') = 9
        /\ w_inbox w' = [Byte.x43]).
Proof.
  destruct (getdirentries_stores_data_and_nul
              (orig_getdirentries example_locals) 5003 4096 0 2 (-1) 9
              [Byte.x41; Byte.x42] [Byte.x43] [Byte.x43]
              entries_world entries_error_world)
    as [[w1 [H1 [H2 [_ H3]]]] Herr].
  - unfold Client.FD_OFFSET. lia.
  - unfold INT_MAX. lia.
  - reflexivity.
  - reflexivity.
  - unfold is_int, INT_MIN, INT_MAX. lia.
  - unfold is_int, INT_MIN, INT_MAX. lia.
  - lia.
  - reflexivity.
  - split; [|exact Herr]. exists w1. auto.
Defined.

Ltac concrete :=
  first
    [ reflexivity
    | vm_compute; reflexivity
    | unfold is_int, is_off_t, is_size_t, INT_MIN, INT_MAX,
        Client.FD_OFFSET, Client.MAX_MSG_LEN, Server.MAX_MSG_LEN;
      cbn [h_errno example_host length Z.of_nat]; lia
    | cbn [In]; intros [?|[]]; discriminate
    | vm_compute; repeat split; discriminate ].

Lemma close_end_to_end_witness :
  exists req,
    example_step no_getdirtree [] (received req []) empty_retBuf
      example_session
    = Some (Server.Session example_host [Server.Send 8 (reply 0 0)])
    /\ exists w',
         run example_locals (CClose 5003) (fresh example_host (reply 0 0))
         = Done 0 w'.
Proof.
  destruct (close_end_to_end (L := unit) (open_gives 3) (read_gives [])
              write_all close_ok lseek_to (stat_fails 2) unlink_ok
              (getdirentries_ok [Byte.x41; Byte.x42]) no_getdirtree Byte.xff
              example_locals 5003 empty_retBuf example_session 0
              example_host)
    as [req [_ [Hs Hc]]]; [concrete..|].
  exists req. split; [exact (Hs [])|].
  destruct (Hc (fresh example_host (reply 0 0)) []) as [w' [H _]];
    [concrete|].
  exists w'. exact H.
Defined.

Lemma lseek_end_to_end_witness :
  exists req,
    example_step no_getdirtree [] (received req []) empty_retBuf
      example_session
    = Some (Server.Session example_host
              [Server.Send 12 (lseek_reply 7 0)])
    /\ exists w',
         run example_locals (CLseek 5003 7 0)
           (fresh example_host (lseek_reply 7 0))
         = Done 7 w'.
Proof.
  destruct (lseek_end_to_end (L := unit) (open_gives 3) (read_gives [])
              write_all close_ok lseek_to (stat_fails 2) unlink_ok
              (getdirentries_ok [Byte.x41; Byte.x42]) no_getdirtree Byte.xff
              example_locals 5003 7 0 empty_retBuf example_session 7
              example_host)
    as [req [_ [Hs Hc]]]; [concrete..|].
  exists req. split; [exact (Hs [])|].
  destruct (Hc (fresh example_host (lseek_reply 7 0)) []) as [w' [H _]];
    [concrete|].
  exists w'. exact H.
Defined.

Lemma open_end_to_end_witness :
  exists req,
    example_step no_getdirtree [] (received req []) empty_retBuf
      example_session
    = Some (Server.Session example_host [Server.Send 8 (reply 3 0)])
    /\ exists w',
         run example_locals (COpen [Byte.x61] 0 0)
           (fresh example_host (reply 3 0))
         = Done 5003 w'.
Proof.
  destruct (open_end_to_end (L := unit) (open_gives 3) (read_gives [])
              write_all close_ok lseek_to (stat_fails 2) unlink_ok
              (getdirentries_ok [Byte.x41; Byte.x42]) no_getdirtree Byte.xff
              example_locals [Byte.x61] 0 0 empty_retBuf example_session 3
              example_host)
    as [req [_ [Hs Hc]]]; [concrete..|].
  exists req. split; [exact (Hs [])|].
  destruct (Hc (fresh example_host (reply 3 0)) []) as [w' [H _]];
    [concrete|].
  exists w'. exact H.
Defined.

Lemma stat_end_to_end_witness :
  exists req,
    example_step no_getdirtree [] (received req []) empty_retBuf
      example_session
    = Some (Server.Session (Host 2 tt) [Server.Send 8 (reply (-1) 2)])
    /\ exists w',
         run example_locals (CStat [Byte.x61] example_statbuf)
           (fresh example_host (reply (-1) 2))
         = Done (-1) w'
         /\ copied_during (fresh example_host (reply (-1) 2)) w' = [].
Proof.
  destruct (stat_end_to_end (L := unit) (open_gives 3) (read_gives [])
              write_all close_ok lseek_to (stat_fails 2) unlink_ok
              (getdirentries_ok [Byte.x41; Byte.x42]) no_getdirtree Byte.xff
              example_locals [Byte.x61] example_statbuf empty_retBuf
              example_session (-1) (Host 2 tt))
    as [req [_ [Hs Hc]]]; [concrete..|].
  exists req. split; [exact (Hs [])|].
  destruct (Hc (fresh example_host (reply (-1) 2)) [])
    as [w' [H [_ [_ [_ Hcopy]]]]]; [concrete|].
  exists w'. split; [exact H|exact Hcopy].
Defined.

Lemma unlink_end_to_end_witness :
  exists req,
    example_step no_getdirtree [] (received req []) empty_retBuf
      example_session
    = Some (Server.Session example_host [Server.Send 8 (reply 0 0)])
    /\ exists w',
         run example_locals (CUnlink [Byte.x61])
           (fresh example_host (reply 0 0))
         = Done 0 w'.
Proof.
  destruct (unlink_end_to_end (L := unit) (open_gives 3) (read_gives [])
              write_all close_ok lseek_to (stat_fails 2) unlink_ok
              (getdirentries_ok [Byte.x41; Byte.x42]) no_getdirtree Byte.xff
              example_locals [Byte.x61] empty_retBuf example_session 0
              example_host)
    as [req [_ [Hs Hc]]]; [concrete..|].
  exists req. split; [exact (Hs [])|].
  destruct (Hc (fresh example_host (reply 0 0)) []) as [w' [H _]];
    [concrete|].
  exists w'. exact H.
Defined.

Lemma write_chunk_end_to_end_witness :
  exists req,
    example_step no_getdirtree [] (received req []) empty_retBuf
      example_session
    = Some (Server.Session example_host [Server.Send 8 (reply 2 0)])
    /\ exists w',
         Client.writeHelper 3 [Byte.x41; Byte.x42] 2
           (fresh example_host (reply 2 0))
         = Done 2 w'.
Proof.
  destruct (write_chunk_end_to_end (L := unit) (open_gives 3) (read_gives [])
              write_all close_ok lseek_to (stat_fails 2) unlink_ok
              (getdirentries_ok [Byte.x41; Byte.x42]) no_getdirtree Byte.xff
              example_locals 3 [Byte.x41; Byte.x42] 2 empty_retBuf
              example_session 2 example_host)
    as [req [_ [Hs Hc]]]; [concrete..|].
  exists req. split; [exact (Hs [])|].
  destruct (Hc (fresh example_host (reply 2 0)) []) as [w' [H _]];
    [concrete|].
  exists w'. exact H.
Defined.

Lemma read_chunk_end_to_end_witness :
  exists req,
    example_step no_getdirtree [Byte.x41; Byte.x42] (received req [])
      empty_retBuf example_session
    = Some (Server.Session example_host
              [Server.Send (8 + 2) (reply 2 0 ++ [Byte.x41; Byte.x42])])
    /\ exists w',
         Client.readHelper 3 0 2 read_two_bytes_world = Done 2 w'
         /\ copied_during read_two_bytes_world w'
            = [(0, [Byte.x41; Byte.x42])].
Proof.
  destruct (read_chunk_end_to_end (L := unit) (open_gives 3)
              (read_gives [Byte.x41; Byte.x42])
              write_all close_ok lseek_to (stat_fails 2) unlink_ok
              (getdirentries_ok [Byte.x41; Byte.x42]) no_getdirtree Byte.xff
              example_locals 3 0 2 empty_retBuf example_session 2
              [Byte.x41; Byte.x42] example_host)
    as [req [_ [Hs Hc]]]; [concrete..|].
  exists req. split; [exact (Hs [])|].
  destruct (Hc read_two_bytes_world [])
    as [w' [H [_ [_ [_ Hcopy]]]]]; [concrete|].
  exists w'. split; [exact H|exact Hcopy].
Defined.

Lemma read_count_beyond_reply_buffer_witness :
  example_step no_getdirtree (repeat Byte.x41 5000)
    (received (read_request 3 5000) []) empty_retBuf example_session
  = None.
Proof.
  apply (read_count_beyond_reply_buffer (L := unit) (open_gives 3)
           (read_gives (repeat Byte.x41 5000))
           write_all close_ok lseek_to (stat_fails 2) unlink_ok
           (getdirentries_ok [Byte.x41; Byte.x42]) no_getdirtree Byte.xff
           example_locals 3 5000 [] empty_retBuf example_session 5000
           (repeat Byte.x41 5000) example_host); concrete.
Defined.

Lemma getdirentries_end_to_end_witness :
  exists req,
    example_step no_getdirtree [] (received req []) empty_retBuf
      example_session
    = Some (Server.Session example_host
              [Server.Send 8 (reply 2 0);
               Server.Send 2 [Byte.x41; Byte.x42]])
    /\ exists w',
         run example_locals (CGetdirentries 5003 4096 0)
           (fresh example_host (reply 2 0 ++ [Byte.x41; Byte.x42] ++ []))
         = Done 2 w'.
Proof.
  destruct (getdirentries_end_to_end (L := unit) (open_gives 3)
              (read_gives [])
              write_all close_ok lseek_to (stat_fails 2) unlink_ok
              (getdirentries_ok [Byte.x41; Byte.x42]) no_getdirtree Byte.xff
              example_locals 5003 4096 0 empty_retBuf example_session 2
              [Byte.x41; Byte.x42] example_host)
    as [req [_ [Hs Hc]]]; [concrete..|].
  exists req. split; [exact (Hs [])|].
  destruct (Hc (fresh example_host
                  (reply 2 0 ++ [Byte.x41; Byte.x42] ++ [])) [])
    as [w' [H _]]; [concrete|].
  exists w'. exact H.
Defined.

Lemma getdirtree_end_to_end_witness :
  exists req,
    example_step (getdirtree_gives example_tree) [] (received req [])
      empty_retBuf example_session
    = Some (Server.Session example_host
              [Server.Send 4
                 (store4 (Z.of_nat (length (tree_bytes example_tree))));
               Server.Send (Z.of_nat (length (tree_bytes example_tree)))
                 (tree_bytes example_tree)])
    /\ exists w',
         Client.getdirtree [Byte.x61]
           (fresh example_host
              (store4 (Z.of_nat (length (tree_bytes example_tree)))
               ++ tree_bytes example_tree ++ []))
         = Done (Some example_tree) w'.
Proof.
  destruct (getdirtree_end_to_end (L := unit) (open_gives 3)
              (read_gives [])
              write_all close_ok lseek_to (stat_fails 2) unlink_ok
              (getdirentries_ok [Byte.x41; Byte.x42])
              (getdirtree_gives example_tree) Byte.xff
              example_locals [Byte.x61] example_tree empty_retBuf
              example_session example_host)
    as [req [_ [Hs Hc]]];
    [concrete|concrete|concrete| | |concrete|].
  - unfold example_tree.
    repeat (constructor; try discriminate; try lia; try reflexivity);
      intros [H|[]]; discriminate H.
  - apply Z.leb_le. reflexivity.
  - exists req. split; [exact (Hs [])|].
    destruct (Hc (fresh example_host
                    (store4 (Z.of_nat (length (tree_bytes example_tree)))
                     ++ tree_bytes example_tree ++ [])) [])
      as [w' [H _]]; [concrete|].
    exists w'. exact H.
Defined.

